(** * Kiosk visual-feedback layer: coverage mapping, animation sequences,
      access-status handler and page life-cycle

    Shallow embedding of [static/js/websocket_handler.js] (channel
    handlers, body visualisation) and of the animation controller
    ([class AnimationController]).  JavaScript strings are modelled as
    ASCII strings; time is in milliseconds ([N]); the DOM is a finite
    map from element ids to elements; [setTimeout] appends to a queue of
    pending timers that an explicit event loop drains.  Console output
    is not part of the model, nor are the parts of the scripts that the
    properties below do not touch (the face and detection handlers, the
    equipment list markup, the bounce, flash, pulse and rotate helpers
    of the controller, the keypad). *)

From Stdlib Require Import Ascii String NArith QArith Qround Lqa.
From stdpp Require Import gmap strings list pretty.

Open Scope string_scope.
Open Scope list_scope.

(** ** JavaScript strings *)

Module JsString.

Definition is_upper (c : ascii) : bool :=
  let n := N_of_ascii c in ((65 <=? n) && (n <=? 90))%N.

Definition is_lower (c : ascii) : bool :=
  let n := N_of_ascii c in ((97 <=? n) && (n <=? 122))%N.

Definition lower_char (c : ascii) : ascii :=
  if is_upper c then ascii_of_N (N_of_ascii c + 32) else c.

Definition upper_char (c : ascii) : ascii :=
  if is_lower c then ascii_of_N (N_of_ascii c - 32) else c.

(** [String.prototype.toLowerCase] on ASCII text. *)
Fixpoint toLowerCase (s : string) : string :=
  match s with
  | EmptyString => EmptyString
  | String c r => String (lower_char c) (toLowerCase r)
  end.

(** Flipping the case of one letter; other characters are left alone. *)
Definition flip_char (c : ascii) : ascii :=
  if is_upper c then lower_char c else upper_char c.

(** [recase m s] flips the case of the letters of [s] selected by the
    mask [m]: every way of re-casing the letters of [s] is [recase m s]
    for some [m]. *)
Fixpoint recase (m : list bool) (s : string) : string :=
  match s, m with
  | EmptyString, _ => EmptyString
  | _, [] => s
  | String c r, b :: m' => String (if b then flip_char c else c) (recase m' r)
  end.

(** The same, class name by class name, over an array of names. *)
Fixpoint recaseAll (ms : list (list bool)) (l : list string) : list string :=
  match l, ms with
  | [], _ => []
  | _, [] => l
  | s :: l', m :: ms' => recase m s :: recaseAll ms' l'
  end.

(** [Array.prototype.includes] on an array of strings. *)
Definition includes (l : list string) (x : string) : bool :=
  existsb (String.eqb x) l.

End JsString.
Import JsString.

(** ** Body visualisation: the coverage mapping *)

(** [BODY_PART_MAPPING]: an object literal, so [Object.keys] lists the
    keys in the order they are written. *)
Definition BODY_PART_MAPPING : list (string * list string) :=
  [ ("head",        ["Head"; "Helmet"]);
    ("face",        ["Face"; "Face-mask-medical"]);
    ("eyes",        ["Glasses"; "Face-guard"]);
    ("mouth",       ["Face-mask-medical"]);
    ("ears",        ["Ear"; "Earmuffs"]);
    ("chest",       ["Safety-vest"; "Medical-suit"; "Safety-suit"]);
    ("hands-left",  ["Hands"; "Gloves"]);
    ("hands-right", ["Hands"; "Gloves"]);
    ("feet",        ["Foot"; "Shoes"]) ].

Definition Object_keys {A} (o : list (string * A)) : list string := map fst o.

(** [BODY_PART_MAPPING[partId]]; [undefined] is rendered as [None]. *)
Fixpoint get_prop {A} (o : list (string * A)) (k : string) : option A :=
  match o with
  | [] => None
  | (k', v) :: r => if String.eqb k k' then Some v else get_prop r k
  end.

Module COLORS.
Definition REQUIRED_DETECTED := "#10B981".
Definition REQUIRED_MISSING := "#EF4444".
Definition NOT_REQUIRED := "#9CA3AF".
Definition CHECKING := "#F59E0B".
Definition DEFAULT := "#D1D5DB".
End COLORS.

(** [partClassesLower.some(cls => arr.includes(cls))]: the test behind
    both [isRequired] and [isDetected]. *)
Definition some_included (arrLower partClassesLower : list string) : bool :=
  existsb (fun cls => includes arrLower cls) partClassesLower.

Definition partClassesLower (partId : string) : list string :=
  map toLowerCase (default [] (get_prop BODY_PART_MAPPING partId)).

Definition isRequired (required : list string) (partId : string) : bool :=
  some_included (map toLowerCase required) (partClassesLower partId).

Definition isDetected (detected : list string) (partId : string) : bool :=
  some_included (map toLowerCase detected) (partClassesLower partId).

(** The colour chosen by the body of the [forEach] in
    [updateBodyVisualization]. *)
Definition partColor (detected required : list string) (partId : string) : string :=
  if negb (isRequired required partId) then COLORS.NOT_REQUIRED
  else if isDetected detected partId then COLORS.REQUIRED_DETECTED
  else COLORS.REQUIRED_MISSING.

Definition shouldGlow (detected required : list string) (partId : string) : bool :=
  if negb (isRequired required partId) then false else true.

(** The region statuses all at once, in key order. *)
Definition regionStatuses (detected required : list string) : list (string * string) :=
  map (fun partId => (partId, partColor detected required partId))
      (Object_keys BODY_PART_MAPPING).

(** The object returned by [getStatusSummary]. *)
Record Summary := mkSummary {
  total : nat;
  detected : nat;
  missing : nat;
  missingList : list string;
  allDetected : bool
}.

Definition statusSummary (currentDetected currentRequired : list string) : Summary :=
  let detectedLower := map toLowerCase currentDetected in
  let requiredLower := map toLowerCase currentRequired in
  let missing := List.filter (fun cls => negb (includes detectedLower cls)) requiredLower in
  let detected := List.filter (fun cls => includes detectedLower cls) requiredLower in
  {| total := length requiredLower;
     detected := length detected;
     missing := length missing;
     missingList := missing;
     allDetected := Nat.eqb (length missing) 0 |}.

(** The [isDetected] test of [updatePPEList], one required class at a time. *)
Definition ppeItemDetected (detected : list string) (className : string) : bool :=
  existsb (fun d => String.eqb (toLowerCase d) (toLowerCase className)) detected.

(** ** The page, the channel and the script globals *)

(** A drawable child of a body-part group of the SVG figure. *)
Record Shape := mkShape {
  tag : string;
  fill : option string;
  stroke : option string
}.

(** A particle [div] made by [document.createElement]; it has no id and
    is known by the number of its node.  Only the style properties that
    vary are kept ([position], [borderRadius], [bottom], [pointerEvents]
    and the class [particle] are constants of the source). *)
Record Particle := mkParticle {
  node : nat;
  pwidth : option Q;          (* px *)
  pheight : option Q;         (* px *)
  pbackground : option string;
  pleft : Q;                  (* percent *)
  pdelay : option Q           (* animationDelay, seconds *)
}.

Record Element := mkElement {
  classList : list string;
  textContent : string;
  style : gmap string string;
  shapes : list Shape;
  kids : list Particle
}.

(** The closures handed to [setTimeout], one constructor per arrow
    function of the source; the arguments are the variables a closure
    captures (an element is captured by reference: its id). *)
Inductive Action :=
| CbBodyPartSuccess (partId : string)
| CbRemoveClass (el : string) (cls : string)
| CbTransitionStatusSection (type : string)
| CbFadeIn (section : string)
| CbShowWelcomeMessage (personName : string)
| CbCreateSuccessParticles
| CbSpawnParticle (container : string)
| CbRemoveParticle (particle : nat)
| CbAnimateDoorOpening (duration : N)
| CbDoorFill (progressBar : string) (duration : N)
| CbEndSequence
| CbHighlightMissingPPE
| CbShowDenialReason (reason : string)
| CbFullWidth (progressBar : string).

#[global] Instance Action_eq_dec : EqDecision Action.
Proof. solve_decision. Defined.

(** A pending timer: the time it is due and its callback. *)
Definition Timer := (N * Action)%type.

Record World := mkWorld {
  now : N;                          (* milliseconds *)
  timers : list Timer;              (* pending, in creation order *)
  document : gmap string Element;
  hidden : bool;                    (* document.hidden *)
  nextNode : nat;                   (* nodes created so far *)
  entropy : nat -> N;               (* the source of Math.random *)
  drawn : nat;                      (* numbers drawn so far *)
  emitted : list string;            (* socket.emit, oldest first *)
  currentState : string;
  detectedClasses : list string;
  requiredClasses : list string;
  bodyVisualization : bool;         (* the body visualisation script is loaded *)
  svgLoaded : bool;
  currentDetected : list string;
  currentRequired : list string;
  isAnimating : bool
}.

Definition set_now (v : N) (w : World) : World :=
  mkWorld v (timers w) (document w) (hidden w) (nextNode w) (entropy w) (drawn w)
    (emitted w) (currentState w) (detectedClasses w) (requiredClasses w)
    (bodyVisualization w) (svgLoaded w) (currentDetected w) (currentRequired w)
    (isAnimating w).

Definition set_timers (v : list Timer) (w : World) : World :=
  mkWorld (now w) v (document w) (hidden w) (nextNode w) (entropy w) (drawn w)
    (emitted w) (currentState w) (detectedClasses w) (requiredClasses w)
    (bodyVisualization w) (svgLoaded w) (currentDetected w) (currentRequired w)
    (isAnimating w).

Definition set_document (v : gmap string Element) (w : World) : World :=
  mkWorld (now w) (timers w) v (hidden w) (nextNode w) (entropy w) (drawn w)
    (emitted w) (currentState w) (detectedClasses w) (requiredClasses w)
    (bodyVisualization w) (svgLoaded w) (currentDetected w) (currentRequired w)
    (isAnimating w).

Definition set_hidden (v : bool) (w : World) : World :=
  mkWorld (now w) (timers w) (document w) v (nextNode w) (entropy w) (drawn w)
    (emitted w) (currentState w) (detectedClasses w) (requiredClasses w)
    (bodyVisualization w) (svgLoaded w) (currentDetected w) (currentRequired w)
    (isAnimating w).

Definition set_nextNode (v : nat) (w : World) : World :=
  mkWorld (now w) (timers w) (document w) (hidden w) v (entropy w) (drawn w)
    (emitted w) (currentState w) (detectedClasses w) (requiredClasses w)
    (bodyVisualization w) (svgLoaded w) (currentDetected w) (currentRequired w)
    (isAnimating w).

Definition set_drawn (v : nat) (w : World) : World :=
  mkWorld (now w) (timers w) (document w) (hidden w) (nextNode w) (entropy w) v
    (emitted w) (currentState w) (detectedClasses w) (requiredClasses w)
    (bodyVisualization w) (svgLoaded w) (currentDetected w) (currentRequired w)
    (isAnimating w).

Definition set_emitted (v : list string) (w : World) : World :=
  mkWorld (now w) (timers w) (document w) (hidden w) (nextNode w) (entropy w) (drawn w)
    v (currentState w) (detectedClasses w) (requiredClasses w)
    (bodyVisualization w) (svgLoaded w) (currentDetected w) (currentRequired w)
    (isAnimating w).

Definition set_currentState (v : string) (w : World) : World :=
  mkWorld (now w) (timers w) (document w) (hidden w) (nextNode w) (entropy w) (drawn w)
    (emitted w) v (detectedClasses w) (requiredClasses w)
    (bodyVisualization w) (svgLoaded w) (currentDetected w) (currentRequired w)
    (isAnimating w).

Definition set_requiredClasses (v : list string) (w : World) : World :=
  mkWorld (now w) (timers w) (document w) (hidden w) (nextNode w) (entropy w) (drawn w)
    (emitted w) (currentState w) (detectedClasses w) v
    (bodyVisualization w) (svgLoaded w) (currentDetected w) (currentRequired w)
    (isAnimating w).

Definition set_svgLoaded (v : bool) (w : World) : World :=
  mkWorld (now w) (timers w) (document w) (hidden w) (nextNode w) (entropy w) (drawn w)
    (emitted w) (currentState w) (detectedClasses w) (requiredClasses w)
    (bodyVisualization w) v (currentDetected w) (currentRequired w)
    (isAnimating w).

Definition set_current (d r : list string) (w : World) : World :=
  mkWorld (now w) (timers w) (document w) (hidden w) (nextNode w) (entropy w) (drawn w)
    (emitted w) (currentState w) (detectedClasses w) (requiredClasses w)
    (bodyVisualization w) (svgLoaded w) d r
    (isAnimating w).

Definition set_isAnimating (v : bool) (w : World) : World :=
  mkWorld (now w) (timers w) (document w) (hidden w) (nextNode w) (entropy w) (drawn w)
    (emitted w) (currentState w) (detectedClasses w) (requiredClasses w)
    (bodyVisualization w) (svgLoaded w) (currentDetected w) (currentRequired w)
    v.

(** ** Computations: state passing with [TypeError]

    A computation either completes or throws; what it wrote before it
    threw stays written. *)

Inductive Res (A : Type) : Type :=
| Ok (a : A) (w : World)
| Throw (w : World).
Arguments Ok {A} a w.
Arguments Throw {A} w.

Definition JS (A : Type) : Type := World -> Res A.

Definition world_of {A} (r : Res A) : World :=
  match r with Ok _ w => w | Throw w => w end.

Definition completes {A} (r : Res A) : bool :=
  match r with Ok _ _ => true | Throw _ => false end.

Definition ret {A} (a : A) : JS A := fun w => Ok a w.

Definition bind {A B} (m : JS A) (k : A -> JS B) : JS B :=
  fun w => match m w with
           | Ok a w' => k a w'
           | Throw w' => Throw w'
           end.

Definition throw {A} : JS A := fun w => Throw w.

Declare Scope js_scope.
Delimit Scope js_scope with js.
Notation "x <- m ;; k" := (bind m (fun x => k))
  (at level 100, m at next level, right associativity) : js_scope.
Notation "m ;; k" := (bind m (fun _ => k))
  (at level 100, right associativity) : js_scope.
Open Scope js_scope.

Definition modify (f : World -> World) : JS unit := fun w => Ok tt (f w).

Definition read {A} (f : World -> A) : JS A := fun w => Ok (f w) w.

Fixpoint forEach {A} (l : list A) (body : A -> JS unit) : JS unit :=
  match l with
  | [] => ret tt
  | x :: r => body x ;; forEach r body
  end.

(** [l.forEach((x, index) => ...)], the index counted from [i]. *)
Fixpoint forEachFrom {A} (i : nat) (l : list A) (body : A -> nat -> JS unit) : JS unit :=
  match l with
  | [] => ret tt
  | x :: r => body x i ;; forEachFrom (S i) r body
  end.

(** A reference obtained from the document is an id or [null]. *)
Definition getElementById (id : string) : JS (option string) :=
  read (fun w => match document w !! id with Some _ => Some id | None => None end).

(** Property access on a value that may be [null]. *)
Definition deref (o : option string) : JS string :=
  match o with Some r => ret r | None => throw end.

(** [if (el) { ... }], and [if (!el) return; ...]. *)
Definition whenPresent (o : option string) (body : string -> JS unit) : JS unit :=
  match o with
  | Some r => body r
  | None => ret tt
  end.

Definition alterElement (f : Element -> Element) (o : option string) : JS unit :=
  r <- deref o ;; modify (fun w => set_document (alter f r (document w)) w).

Definition token_add (c : string) (l : list string) : list string :=
  if includes l c then l else l ++ [c].

Definition token_remove (c : string) (l : list string) : list string :=
  List.filter (fun x => negb (String.eqb x c)) l.

Definition with_classList (f : list string -> list string) (e : Element) : Element :=
  mkElement (f (classList e)) (textContent e) (style e) (shapes e) (kids e).

Definition with_textContent (s : string) (e : Element) : Element :=
  mkElement (classList e) s (style e) (shapes e) (kids e).

Definition with_style (p v : string) (e : Element) : Element :=
  mkElement (classList e) (textContent e) (<[p := v]> (style e)) (shapes e) (kids e).

Definition with_shapes (f : list Shape -> list Shape) (e : Element) : Element :=
  mkElement (classList e) (textContent e) (style e) (f (shapes e)) (kids e).

Definition with_kids (f : list Particle -> list Particle) (e : Element) : Element :=
  mkElement (classList e) (textContent e) (style e) (shapes e) (f (kids e)).

Definition classList_add (o : option string) (c : string) : JS unit :=
  alterElement (with_classList (token_add c)) o.

Definition classList_remove (o : option string) (cs : list string) : JS unit :=
  alterElement (with_classList (fun l => fold_left (fun l c => token_remove c l) cs l)) o.

Definition set_textContent (o : option string) (s : string) : JS unit :=
  alterElement (with_textContent s) o.

Definition set_style (o : option string) (p v : string) : JS unit :=
  alterElement (with_style p v) o.

Definition setTimeout (a : Action) (delay : N) : JS unit :=
  modify (fun w => set_timers (timers w ++ [((now w + delay)%N, a)]) w).

(** A number in [0, 1) with a 53-bit numerator. *)
Definition unit_fraction (k : N) : Q :=
  Z.of_N (k mod 9007199254740992) # 9007199254740992.

(** [Math.random()], in exact arithmetic. *)
Definition Math_random : JS Q :=
  fun w => Ok (unit_fraction (entropy w (drawn w))) (set_drawn (S (drawn w)) w).

Definition createElement : JS nat :=
  fun w => Ok (nextNode w) (set_nextNode (S (nextNode w)) w).

Definition appendChild (o : option string) (p : Particle) : JS unit :=
  alterElement (with_kids (fun l => l ++ [p])) o.

(** [particle.remove()]: the node leaves its parent, wherever that is. *)
Definition remove_node (n : nat) : JS unit :=
  modify (fun w => set_document
    (with_kids (List.filter (fun p => negb (Nat.eqb (node p) n))) <$> document w) w).

Definition socket_emit (name : string) : JS unit :=
  modify (fun w => set_emitted (emitted w ++ [name]) w).

(** ** Body visualisation ([updateBodyVisualization] and friends) *)

Definition fillable (s : Shape) : bool :=
  includes ["ellipse"; "circle"; "path"; "rect"] (tag s).

Definition strokable (s : Shape) : bool :=
  includes ["line"; "path"] (tag s).

(** [element.setAttribute('fill', color)] on the fillable shapes. *)
Definition paint_fill (color : string) (s : Shape) : Shape :=
  if fillable s then mkShape (tag s) (Some color) (stroke s) else s.

(** The stroke is set on lines and paths that have a stroke and no fill. *)
Definition paint_stroke (color : string) (s : Shape) : Shape :=
  if strokable s && bool_decide (is_Some (stroke s)) && negb (bool_decide (is_Some (fill s)))
  then mkShape (tag s) (fill s) (Some color) else s.

Definition setPartColor (partId color : string) : JS unit :=
  part <- getElementById partId ;;
  whenPresent part (fun _ =>
    alterElement (with_shapes (map (paint_fill color))) part ;;
    alterElement (with_shapes (map (paint_stroke color))) part).

Definition initBodyVisualization : JS unit :=
  modify (set_svgLoaded true) ;;
  forEach (Object_keys BODY_PART_MAPPING) (fun partId =>
    part <- getElementById partId ;;
    whenPresent part (fun _ =>
      classList_add part "body-part-transition" ;;
      setPartColor partId COLORS.DEFAULT)).

(** The body of the [forEach] of [updateBodyVisualization]. *)
Definition updatePart (detectedClasses requiredClasses : list string) (partId : string) : JS unit :=
  setPartColor partId (partColor detectedClasses requiredClasses partId) ;;
  part <- getElementById partId ;;
  whenPresent part (fun _ =>
    classList_remove part ["glow-green"; "glow-red"] ;;
    if shouldGlow detectedClasses requiredClasses partId then
      if isDetected detectedClasses partId
      then classList_add part "glow-green"
      else classList_add part "glow-red"
    else ret tt).

Definition updateBodyVisualization (detectedClasses requiredClasses : list string) : JS unit :=
  loaded <- read svgLoaded ;;
  if negb loaded then ret tt
  else
    modify (set_current detectedClasses requiredClasses) ;;
    forEach (Object_keys BODY_PART_MAPPING) (updatePart detectedClasses requiredClasses).

Definition highlightMissingPPE : JS unit :=
  d <- read currentDetected ;;
  r <- read currentRequired ;;
  forEach (Object_keys BODY_PART_MAPPING) (fun partId =>
    if isRequired r partId && negb (isDetected d partId) then
      part <- getElementById partId ;;
      whenPresent part (fun p =>
        classList_add part "attention-animation" ;;
        setTimeout (CbRemoveClass p "attention-animation") 1000)
    else ret tt).

Definition getStatusSummary (w : World) : Summary :=
  statusSummary (currentDetected w) (currentRequired w).

Definition resetVisualization : JS unit :=
  forEach (Object_keys BODY_PART_MAPPING) (fun partId =>
    setPartColor partId COLORS.DEFAULT ;;
    part <- getElementById partId ;;
    whenPresent part (fun _ =>
      classList_remove part ["glow-green"; "glow-red"; "attention-animation"])).

(** ** The animation controller *)

Module AnimationController.

Definition bodyParts : list string :=
  ["head"; "face"; "eyes"; "chest"; "hands-left"; "hands-right"; "feet"].

Definition animateBodyPartsSuccess : JS unit :=
  forEachFrom 0 bodyParts (fun partId index =>
    setTimeout (CbBodyPartSuccess partId) (N.of_nat index * 100)).

(** The callback of [animateBodyPartsSuccess]. *)
Definition bodyPartSuccess (partId : string) : JS unit :=
  part <- getElementById partId ;;
  whenPresent part (fun p =>
    set_style part "transition" "all 0.5s ease" ;;
    classList_add part "scale-in" ;;
    setTimeout (CbRemoveClass p "scale-in") 500).

Definition transitionStatusSection (type : string) : JS unit :=
  section <- getElementById "access-status" ;;
  whenPresent section (fun s =>
    classList_add section "fade-out" ;;
    setTimeout (CbFadeIn s) 300).

(** The outer callback of [transitionStatusSection]. *)
Definition fadeIn (section : string) : JS unit :=
  classList_remove (Some section) ["fade-out"] ;;
  classList_add (Some section) "fade-in" ;;
  setTimeout (CbRemoveClass section "fade-in") 500.

Definition showWelcomeMessage (name : string) : JS unit :=
  userElement <- getElementById "status-user" ;;
  whenPresent userElement (fun u =>
    set_textContent userElement ("Welcome, " +:+ name +:+ "!") ;;
    set_style userElement "display" "block" ;;
    classList_add userElement "slide-in-up" ;;
    setTimeout (CbRemoveClass u "slide-in-up") 600).

Definition showDenialReason (reason : string) : JS unit :=
  messageElement <- getElementById "status-message" ;;
  whenPresent messageElement (fun m =>
    classList_add messageElement "attention-animation" ;;
    setTimeout (CbRemoveClass m "attention-animation") 1000).

Definition particleCount : nat := 30.

Definition colors : list string := ["#10B981"; "#34D399"; "#6EE7B7"; "#FFFFFF"].

Definition createSuccessParticles : JS unit :=
  container <- getElementById "access-status" ;;
  whenPresent container (fun c =>
    forEach (seq 0 particleCount) (fun i =>
      setTimeout (CbSpawnParticle c) (N.of_nat i * 50))).

(** The particle as the callback styles it, from the three numbers it
    draws (width, colour index, left) in this order. *)
Definition successParticle (n : nat) (r1 r2 r3 : Q) : Particle :=
  let width := (r1 * 10 + 5)%Q in
  {| node := n;
     pwidth := Some width;
     pheight := Some width;
     pbackground := colors !! Z.to_nat (Qfloor (r2 * inject_Z (Z.of_nat (length colors))));
     pleft := (r3 * 100)%Q;
     pdelay := None |}.

(** The callback of [createSuccessParticles]. *)
Definition spawnParticle (container : string) : JS unit :=
  n <- createElement ;;
  r1 <- Math_random ;;
  r2 <- Math_random ;;
  r3 <- Math_random ;;
  appendChild (Some container) (successParticle n r1 r2 r3) ;;
  setTimeout (CbRemoveParticle n) 1500.

Definition animateDoorOpening (duration : N) : JS unit :=
  progress <- getElementById "door-progress" ;;
  progressBar <- getElementById "door-progress-bar" ;;
  whenPresent progress (fun _ =>
    whenPresent progressBar (fun b =>
      set_style progress "display" "block" ;;
      set_style progressBar "width" "0%" ;;
      set_style progressBar "transition" "none" ;;
      setTimeout (CbDoorFill b duration) 50)).

(** The callback of [animateDoorOpening]. *)
Definition doorFill (progressBar : string) (duration : N) : JS unit :=
  set_style (Some progressBar) "transition" ("width " +:+ pretty duration +:+ "ms linear") ;;
  set_style (Some progressBar) "width" "100%".

Definition shakeElement (elementId : string) : JS unit :=
  element <- getElementById elementId ;;
  whenPresent element (fun e =>
    classList_add element "shake-animation" ;;
    setTimeout (CbRemoveClass e "shake-animation") 500).

Definition playAccessGranted (personName : string) : JS unit :=
  modify (set_isAnimating true) ;;
  animateBodyPartsSuccess ;;
  setTimeout (CbTransitionStatusSection "granted") 200 ;;
  setTimeout (CbShowWelcomeMessage personName) 400 ;;
  setTimeout CbCreateSuccessParticles 600 ;;
  setTimeout (CbAnimateDoorOpening 3000) 800 ;;
  setTimeout CbEndSequence 4000.

Definition playAccessDenied (reason : string) : JS unit :=
  modify (set_isAnimating true) ;;
  shakeElement "access-status" ;;
  setTimeout CbHighlightMissingPPE 200 ;;
  setTimeout (CbShowDenialReason reason) 400 ;;
  setTimeout CbEndSequence 2000.

Definition animationClasses : list string :=
  [ "pulse-animation"; "shake-animation"; "bounce-animation";
    "slide-in-up"; "slide-out-down"; "fade-in"; "fade-out";
    "scale-in"; "flash-green"; "flash-red"; "glow-green"; "glow-red";
    "attention-animation"; "rotate-animation"; "blink-animation" ].

(** [clearAllAnimations] strips the classes from the elements of the
    document and lowers the flag; pending timers are not touched. *)
Definition clearAllAnimations : JS unit :=
  modify (fun w => set_document
    (with_classList (fun l => fold_left (fun l c => token_remove c l) animationClasses l)
       <$> document w) w) ;;
  modify (set_isAnimating false).

Definition bounceElement (elementId : string) : JS unit :=
  element <- getElementById elementId ;;
  whenPresent element (fun e =>
    classList_add element "bounce-animation" ;;
    setTimeout (CbRemoveClass e "bounce-animation") 600).

Definition flashClass (color : string) : string :=
  if String.eqb color "green" then "flash-green" else "flash-red".

Definition flashElement (elementId color : string) : JS unit :=
  element <- getElementById elementId ;;
  whenPresent element (fun e =>
    classList_add element (flashClass color) ;;
    setTimeout (CbRemoveClass e (flashClass color)) 1500).

(** [enable] defaults to [true] in the source; the caller's value is
    read as a truth value. *)
Definition pulseElement (elementId : string) (enable : bool) : JS unit :=
  element <- getElementById elementId ;;
  whenPresent element (fun _ =>
    if enable then classList_add element "pulse-animation"
    else classList_remove element ["pulse-animation"]).

Definition rotateElement (elementId : string) (enable : bool) : JS unit :=
  element <- getElementById elementId ;;
  whenPresent element (fun _ =>
    if enable then classList_add element "rotate-animation"
    else classList_remove element ["rotate-animation"]).

End AnimationController.

(** ** The channel handlers ([websocket_handler.js]) *)

Record AccessStatus := mkAccessStatus {
  state : string;
  person_name : option string;
  message : option string;
  duration : option N            (* seconds *)
}.

Record Config := mkConfig { required_classes : option (list string) }.

(** [s || dflt] on an optional string: [undefined] and the empty string
    are falsy. *)
Definition or_string (s : option string) (dflt : string) : string :=
  match s with
  | Some EmptyString | None => dflt
  | Some v => v
  end.

(** [n || dflt] on an optional number: [undefined] and [0] are falsy. *)
Definition or_number (n : option N) (dflt : N) : N :=
  match n with
  | Some 0%N | None => dflt
  | Some v => v
  end.

(** The truth value of an optional string in a condition. *)
Definition truthy (s : option string) : bool :=
  match s with
  | Some EmptyString | None => false
  | Some _ => true
  end.

(** An optional string inside a template literal. *)
Definition interpolate (s : option string) : string := default "undefined" s.

Definition playAnimation (type : string) : JS unit := ret tt.

Definition animateDoorProgress (duration : N) : JS unit :=
  progressBar <- getElementById "door-progress-bar" ;;
  set_style progressBar "width" "0%" ;;
  set_style progressBar "transition" ("width " +:+ pretty duration +:+ "s linear") ;;
  b <- deref progressBar ;;
  setTimeout (CbFullWidth b) 50.

Definition createParticles (container : option string) (count : nat) : JS unit :=
  forEach (seq 0 count) (fun _ =>
    n <- createElement ;;
    r1 <- Math_random ;;
    r2 <- Math_random ;;
    appendChild container
      {| node := n; pwidth := None; pheight := None; pbackground := None;
         pleft := (r1 * 100)%Q; pdelay := Some (r2 * (1 # 2))%Q |} ;;
    setTimeout (CbRemoveParticle n) 1500).

Definition playSuccessAnimation : JS unit :=
  statusSection <- getElementById "access-status" ;;
  classList_add statusSection "ripple-effect" ;;
  createParticles statusSection 20 ;;
  s <- deref statusSection ;;
  setTimeout (CbRemoveClass s "ripple-effect") 1000.

Definition playDeniedAnimation : JS unit :=
  statusSection <- getElementById "access-status" ;;
  classList_add statusSection "shake-animation" ;;
  s <- deref statusSection ;;
  setTimeout (CbRemoveClass s "shake-animation") 500.

Definition on_connect : JS unit :=
  e <- getElementById "system-status" ;;
  set_textContent e "● System Active" ;;
  e' <- getElementById "system-status" ;;
  set_style e' "color" "#10B981" ;;
  socket_emit "start_detection".

Definition on_disconnect : JS unit :=
  e <- getElementById "system-status" ;;
  set_textContent e "● Disconnected" ;;
  e' <- getElementById "system-status" ;;
  set_style e' "color" "#EF4444".

Definition on_access_status_change (data : AccessStatus) : JS unit :=
  modify (set_currentState (state data)) ;;
  statusSection <- getElementById "access-status" ;;
  statusIcon <- getElementById "status-icon" ;;
  statusText <- getElementById "status-text" ;;
  statusMessage <- getElementById "status-message" ;;
  statusUser <- getElementById "status-user" ;;
  doorProgress <- getElementById "door-progress" ;;
  classList_remove statusSection ["granted"; "denied"; "checking"] ;;
  if String.eqb (state data) "IDLE" then
    classList_add statusSection "checking" ;;
    set_textContent statusIcon "🔍" ;;
    set_textContent statusText "READY" ;;
    set_textContent statusMessage "Please stand in front of camera" ;;
    set_style statusUser "display" "none" ;;
    set_style doorProgress "display" "none"
  else if String.eqb (state data) "FACE_DETECTING" then
    classList_add statusSection "checking" ;;
    set_textContent statusIcon "👤" ;;
    set_textContent statusText "DETECTING FACE..." ;;
    set_textContent statusMessage "Please look at the camera" ;;
    set_style statusUser "display" "none" ;;
    set_style doorProgress "display" "none" ;;
    classList_add statusIcon "pulse-animation"
  else if String.eqb (state data) "FACE_RECOGNIZED" then
    classList_add statusSection "checking" ;;
    set_textContent statusIcon "✓" ;;
    set_textContent statusText "IDENTITY VERIFIED" ;;
    set_textContent statusMessage "Checking PPE..." ;;
    set_textContent statusUser ("Welcome, " +:+ interpolate (person_name data) +:+ "!") ;;
    set_style statusUser "display" "block" ;;
    classList_add statusUser "fade-in" ;;
    set_style doorProgress "display" "none" ;;
    playAnimation "success-beep"
  else if String.eqb (state data) "PPE_CHECKING" then
    classList_add statusSection "checking" ;;
    set_textContent statusIcon "🔎" ;;
    set_textContent statusText "CHECKING PPE..." ;;
    set_textContent statusMessage (or_string (message data) "Please show required PPE") ;;
    set_style doorProgress "display" "none"
  else if String.eqb (state data) "ACCESS_GRANTED" then
    classList_add statusSection "granted" ;;
    set_textContent statusIcon "✅" ;;
    set_textContent statusText "ACCESS GRANTED" ;;
    set_textContent statusMessage "Door opening..." ;;
    set_textContent statusUser ("Welcome, " +:+ interpolate (person_name data) +:+ "!") ;;
    set_style statusUser "display" "block" ;;
    set_style doorProgress "display" "block" ;;
    animateDoorProgress (or_number (duration data) 3) ;;
    playAnimation "access-granted" ;;
    playSuccessAnimation
  else if String.eqb (state data) "ACCESS_DENIED" then
    classList_add statusSection "denied" ;;
    set_textContent statusIcon "❌" ;;
    set_textContent statusText "ACCESS DENIED" ;;
    set_textContent statusMessage (or_string (message data) "Access requirements not met") ;;
    (if truthy (person_name data) then
       set_textContent statusUser (interpolate (person_name data)) ;;
       set_style statusUser "display" "block"
     else
       set_style statusUser "display" "none") ;;
    set_style doorProgress "display" "none" ;;
    playAnimation "access-denied" ;;
    playDeniedAnimation
  else ret tt.

Definition on_config_update (data : Config) : JS unit :=
  modify (set_requiredClasses (default [] (required_classes data))) ;;
  loaded <- read bodyVisualization ;;
  if loaded then
    d <- read detectedClasses ;;
    r <- read requiredClasses ;;
    updateBodyVisualization d r
  else ret tt.

(** Page life-cycle listeners. *)
Definition on_beforeunload : JS unit := socket_emit "stop_detection".

Definition on_unload : JS unit := socket_emit "stop_detection".

Definition on_visibilitychange : JS unit :=
  h <- read hidden ;;
  if h then socket_emit "stop_detection" else socket_emit "start_detection".

Definition on_pagehide : JS unit := socket_emit "stop_detection".

(** ** Timer callbacks and the event loop *)

Definition exec (a : Action) : JS unit :=
  match a with
  | CbBodyPartSuccess partId => AnimationController.bodyPartSuccess partId
  | CbRemoveClass el cls => classList_remove (Some el) [cls]
  | CbTransitionStatusSection type => AnimationController.transitionStatusSection type
  | CbFadeIn section => AnimationController.fadeIn section
  | CbShowWelcomeMessage personName => AnimationController.showWelcomeMessage personName
  | CbCreateSuccessParticles => AnimationController.createSuccessParticles
  | CbSpawnParticle container => AnimationController.spawnParticle container
  | CbRemoveParticle particle => remove_node particle
  | CbAnimateDoorOpening duration => AnimationController.animateDoorOpening duration
  | CbDoorFill progressBar duration => AnimationController.doorFill progressBar duration
  | CbEndSequence => modify (set_isAnimating false)
  | CbHighlightMissingPPE =>
      loaded <- read bodyVisualization ;;
      if loaded then highlightMissingPPE else ret tt
  | CbShowDenialReason reason => AnimationController.showDenialReason reason
  | CbFullWidth progressBar => set_style (Some progressBar) "width" "100%"
  end.

(** The timer to run next: the earliest due, the oldest among equals;
    the others stay in creation order. *)
Fixpoint pick (ts : list Timer) : option (Timer * list Timer) :=
  match ts with
  | [] => None
  | t :: r =>
      match pick r with
      | None => Some (t, [])
      | Some (m, r') => if (fst t <=? fst m)%N then Some (t, r) else Some (m, t :: r')
      end
  end.

(** What the loop did: at which time it ran which callback. *)
Definition Event := (N * Action)%type.

(** One turn of the loop: the clock moves to the time the timer is due
    and its callback runs; a callback that throws does not stop the loop. *)
Definition fire (w : World) : option (Event * World) :=
  match pick (timers w) with
  | None => None
  | Some ((due, a), rest) =>
      let t := N.max (now w) due in
      Some ((t, a), world_of (exec a (set_timers rest (set_now t w))))
  end.

Fixpoint runLoop (fuel : nat) (w : World) : list Event * World :=
  match fuel with
  | O => ([], w)
  | S n =>
      match fire w with
      | None => ([], w)
      | Some (e, w') => let (tr, w'') := runLoop n w' in (e :: tr, w'')
      end
  end.

(** The loop up to a deadline: only the timers due by then run, and the
    clock ends at the deadline. *)
Fixpoint runUntil (fuel : nat) (deadline : N) (w : World) : list Event * World :=
  match fuel with
  | O => ([], w)
  | S n =>
      match pick (timers w) with
      | Some ((due, _), _) =>
          if (due <=? deadline)%N then
            match fire w with
            | None => ([], w)
            | Some (e, w') => let (tr, w'') := runUntil n deadline w' in (e :: tr, w'')
            end
          else ([], set_now (N.max (now w) deadline) w)
      | None => ([], set_now (N.max (now w) deadline) w)
      end
  end.

(** An upper bound on the turns a callback causes: its own and those of
    the timers it sets, transitively. *)
Definition cost (a : Action) : nat :=
  match a with
  | CbBodyPartSuccess _ => 2
  | CbRemoveClass _ _ => 1
  | CbTransitionStatusSection _ => 3
  | CbFadeIn _ => 2
  | CbShowWelcomeMessage _ => 2
  | CbCreateSuccessParticles => 61
  | CbSpawnParticle _ => 2
  | CbRemoveParticle _ => 1
  | CbAnimateDoorOpening _ => 2
  | CbDoorFill _ _ => 1
  | CbEndSequence => 1
  | CbHighlightMissingPPE => 10
  | CbShowDenialReason _ => 2
  | CbFullWidth _ => 1
  end.

Definition budget (ts : list Timer) : nat :=
  fold_right (fun t n => cost (snd t) + n) 0 ts.

(** The loop run until no timer is pending. *)
Definition drain (w : World) : list Event * World := runLoop (budget (timers w)) w.

Definition trace (w : World) : list Event := fst (drain w).

(** Every pending timer is due now or later. *)
Definition timely (w : World) : Prop :=
  Forall (fun t : Timer => (now w <= fst t)%N) (timers w).

(** ** A concrete page for the examples *)

Definition blank : Element := mkElement [] "" ∅ [] [].

(** A body-part group of the figure as the markup has it, and as
    [initBodyVisualization] leaves it. *)
Definition raw_part : Element :=
  mkElement [] "" ∅
    [ mkShape "ellipse" (Some "#FFFFFF") None;
      mkShape "path" None (Some "#374151");
      mkShape "line" None (Some "#374151") ] [].

Definition figure_part : Element :=
  mkElement ["body-part-transition"] "" ∅
    [ mkShape "ellipse" (Some "#D1D5DB") None;
      mkShape "path" (Some "#D1D5DB") (Some "#374151");
      mkShape "line" None (Some "#D1D5DB") ] [].

Definition panel_ids : list string :=
  [ "system-status"; "access-status"; "status-icon"; "status-text";
    "status-message"; "status-user"; "door-progress"; "door-progress-bar" ].

Definition page (ids parts : list string) (part : Element) : gmap string Element :=
  list_to_map (((fun id => (id, blank)) <$> ids) ++ ((fun id => (id, part)) <$> parts)).

(** The globals as the scripts initialise them, on a given document. *)
Definition loaded (doc : gmap string Element) (withBodyVisualization : bool) : World :=
  {| now := 0; timers := []; document := doc; hidden := false; nextNode := 0;
     entropy := fun n => (N.of_nat n * 6364136223846793005 + 1442695040888963407)%N;
     drawn := 0; emitted := ["request_config"];
     currentState := "IDLE"; detectedClasses := []; requiredClasses := [];
     bodyVisualization := withBodyVisualization; svgLoaded := false;
     currentDetected := []; currentRequired := []; isAnimating := false |}.

(** The full page, as [initBodyVisualization] leaves it. *)
Definition kiosk : World :=
  set_svgLoaded true (loaded (page panel_ids (Object_keys BODY_PART_MAPPING) figure_part) true).

(** A page on which no element is attached yet. *)
Definition bare : World := loaded ∅ true.

(** ** Notions used by the statements *)

(** What one turn of the [forEach] of [updateBodyVisualization] leaves of
    the element of a region that is attached. *)
Definition repaint (detected required : list string) (partId : string) (e : Element) : Element :=
  let color := partColor detected required partId in
  let painted :=
    with_shapes (map (paint_stroke color)) (with_shapes (map (paint_fill color)) e) in
  let unlit :=
    with_classList (fun l => fold_left (fun l c => token_remove c l) ["glow-green"; "glow-red"] l)
      painted in
  if shouldGlow detected required partId then
    if isDetected detected partId
    then with_classList (token_add "glow-green") unlit
    else with_classList (token_add "glow-red") unlit
  else unlit.

(** The document after [updateBodyVisualization] has gone over the regions. *)
Definition repaintAll (detected required : list string) (doc : gmap string Element)
  : gmap string Element :=
  foldl (fun d partId => alter (repaint detected required partId) partId d) doc
        (Object_keys BODY_PART_MAPPING).

(** Two worlds with the same elements attached and the same snapshot
    in the body visualisation. *)
Definition akin (w w' : World) : Prop :=
  dom (document w') = dom (document w) /\
  currentDetected w' = currentDetected w /\
  currentRequired w' = currentRequired w.

(** [grows n w w']: from [w] to [w'] the clock stands still, no element
    is attached or detached, the snapshot stays, no pending timer is
    dropped, and the timers added are due no earlier than now and cost
    at most [n] turns. *)
Definition grows (n : nat) (w w' : World) : Prop :=
  now w' = now w /\
  akin w w' /\
  exists new : list Timer,
    timers w' = timers w ++ new /\
    Forall (fun t : Timer => (now w <= fst t)%N) new /\
    budget new <= n.

Definition Grows {A} (n : nat) (m : JS A) : Prop :=
  forall w, grows n w (world_of (m w)).

(** A region none of whose class names is required, whatever the case of
    the letters. *)
Definition unrequired (required : list string) (partId : string) : Prop :=
  forall syn req,
    In syn (default [] (get_prop BODY_PART_MAPPING partId)) ->
    In req required ->
    toLowerCase syn <> toLowerCase req.

(** The regions the mapping marks as required and missing. *)
Definition missingRegions (detected required : list string) : list string :=
  List.filter (fun partId =>
      String.eqb (partColor detected required partId) COLORS.REQUIRED_MISSING)
    (Object_keys BODY_PART_MAPPING).

(** Whether the element [id] carries the class [cls]. *)
Definition has_class (w : World) (id cls : string) : bool :=
  match document w !! id with
  | Some e => includes (classList e) cls
  | None => false
  end.

Definition style_of (w : World) (id prop : string) : option string :=
  e ← document w !! id; style e !! prop.

Definition text_of (w : World) (id : string) : option string :=
  textContent <$> document w !! id.

(** A particle styled as the success burst wants it: a square of 5 to
    15 px, in a colour of the palette, somewhere along the width. *)
Definition well_styled (p : Particle) : Prop :=
  (exists s, pwidth p = Some s /\ pheight p = Some s /\ (5 <= s)%Q /\ (s <= 15)%Q) /\
  (exists c, pbackground p = Some c /\ In c AnimationController.colors) /\
  (0 <= pleft p)%Q /\ (pleft p < 100)%Q.

Definition attached (w : World) (id : string) : bool :=
  match document w !! id with Some _ => true | None => false end.

(** The callback looks for a rendering target and does not find it (for
    the flash of the missing regions: none of the regions to flash is
    attached). *)
Definition unattached (a : Action) (w : World) : bool :=
  match a with
  | CbBodyPartSuccess partId => negb (attached w partId)
  | CbTransitionStatusSection _ => negb (attached w "access-status")
  | CbShowWelcomeMessage _ => negb (attached w "status-user")
  | CbCreateSuccessParticles => negb (attached w "access-status")
  | CbAnimateDoorOpening _ =>
      negb (attached w "door-progress") || negb (attached w "door-progress-bar")
  | CbHighlightMissingPPE =>
      forallb (fun partId =>
                 negb (isRequired (currentRequired w) partId &&
                       negb (isDetected (currentDetected w) partId)) ||
                 negb (attached w partId))
              (Object_keys BODY_PART_MAPPING)
  | CbShowDenialReason _ => negb (attached w "status-message")
  | _ => false
  end.

(** The worlds the loop goes through, one per turn. *)
Fixpoint states (fuel : nat) (w : World) : list World :=
  match fuel with
  | O => []
  | S n =>
      match fire w with
      | None => []
      | Some (_, w') => w' :: states n w'
      end
  end.

(** A computation that never throws. *)
Definition Safe {A} (m : JS A) : Prop := forall w, completes (m w) = true.

(** The person-name slot after an ACCESS_DENIED event. *)
Definition deniedUser (pn : option string) (doc : gmap string Element) : gmap string Element :=
  if truthy pn
  then alter (with_style "display" "block") "status-user"
         (alter (with_textContent (interpolate pn)) "status-user" doc)
  else alter (with_style "display" "none") "status-user" doc.

(** Whether the loop had this turn. *)
Definition occurs (e : Event) (tr : list Event) : bool :=
  existsb (fun x => bool_decide (x = e)) tr.

(** ** Notions for the further properties *)

(** A computation that takes every world to one related to it by [R]. *)
Definition Steps (R : World -> World -> Prop) {A} (m : JS A) : Prop :=
  forall w, R w (world_of (m w)).

(** The classes that mark a passing effect. *)
Definition transient : list string :=
  [ "scale-in"; "fade-out"; "fade-in"; "slide-in-up"; "attention-animation";
    "shake-animation"; "bounce-animation"; "flash-green"; "flash-red"; "ripple-effect" ].

(** A pending timer will take the class off the element. *)
Definition covers_class (ts : list Timer) (id cls : string) : Prop :=
  (exists d, In (d, CbRemoveClass id cls) ts) \/
  (cls = "fade-out" /\ exists d, In (d, CbFadeIn id) ts).

(** A pending timer will remove the particle. *)
Definition covers_node (ts : list Timer) (n : nat) : Prop :=
  exists d, In (d, CbRemoveParticle n) ts.

Definition has_kid (w : World) (id : string) (p : Particle) : Prop :=
  exists e, document w !! id = Some e /\ In p (kids e).

(** From [w] to [w'] timers are only added, and whatever passing class
    or particle is new has a timer that removes it. *)
Definition settles (w w' : World) : Prop :=
  (exists new, timers w' = timers w ++ new) /\
  (forall id cls, In cls transient -> has_class w' id cls = true ->
     has_class w id cls = true \/ covers_class (timers w') id cls) /\
  (forall id p, has_kid w' id p -> has_kid w id p \/ covers_node (timers w') (node p)).

(** Every passing class and every particle on the page has its timer. *)
(** Every passing class on the page and every particle is excused by
    [C] or [K], or has its timer pending. *)
Definition kept (C : string -> string -> Prop) (K : string -> Particle -> Prop) (w : World)
  : Prop :=
  (forall id cls, In cls transient -> has_class w id cls = true ->
                  C id cls \/ covers_class (timers w) id cls) /\
  (forall id p, has_kid w id p -> K id p \/ covers_node (timers w) (node p)).

(** A tidy page: every passing class and every particle has its timer. *)
Definition tidy (w : World) : Prop := kept (fun _ _ => False) (fun _ _ => False) w.

(** What the page may carry over from [w0]. *)
Definition leftover (w0 w : World) : Prop :=
  kept (fun id cls => has_class w0 id cls = true) (has_kid w0) w.

Definition clean_page (w : World) : bool :=
  bool_decide (map_Forall (fun _ e =>
      forallb (fun c => negb (includes (classList e) c)) transient = true /\ kids e = [])
    (document w)).

(** The flag [isAnimating] is not raised. *)
Definition unraised (w w' : World) : Prop :=
  isAnimating w' = true -> isAnimating w = true.

(** If the flag is up, a timer that lowers it is pending. *)
Definition lowerable (w : World) : Prop :=
  isAnimating w = true -> exists d, In (d, CbEndSequence) (timers w).

(** Nothing is sent to the backend. *)
Definition quiet (w w' : World) : Prop := emitted w' = emitted w.

(** The state the handler has adopted stays. *)
Definition same_state (w w' : World) : Prop := currentState w' = currentState w.

Definition state_classes : list string := ["granted"; "denied"; "checking"].

(** No class other than the three state classes is taken off any element. *)
Definition keeps_classes (w w' : World) : Prop :=
  forall id cls, ~ In cls state_classes -> has_class w id cls = true -> has_class w' id cls = true.

(** The state classes of every element stay as they are. *)
Definition keeps_state_classes (w w' : World) : Prop :=
  forall id cls, In cls state_classes -> has_class w' id cls = has_class w id cls.

(** The class the handler gives the status panel for a state. *)
Definition state_class (state : string) : option string :=
  if String.eqb state "IDLE" then Some "checking"
  else if String.eqb state "FACE_DETECTING" then Some "checking"
  else if String.eqb state "FACE_RECOGNIZED" then Some "checking"
  else if String.eqb state "PPE_CHECKING" then Some "checking"
  else if String.eqb state "ACCESS_GRANTED" then Some "granted"
  else if String.eqb state "ACCESS_DENIED" then Some "denied"
  else None.

(** The status events of a list, handled one after the other (an event
    whose handler throws leaves the page as it was at the throw). *)
Definition handle_all (evs : list AccessStatus) (w : World) : World :=
  fold_left (fun w data => world_of (on_access_status_change data w)) evs w.

(** What [setPartColor] makes of one shape: the fill pass, then the
    stroke pass. *)
Definition paint (color : string) (s : Shape) : Shape :=
  paint_stroke color (paint_fill color s).

(** What one turn of the [forEach] of [resetVisualization] leaves of the
    element of a region that is attached. *)
Definition reset_part (e : Element) : Element :=
  with_classList
    (fun l => fold_left (fun l c => token_remove c l)
                ["glow-green"; "glow-red"; "attention-animation"] l)
    (with_shapes (map (paint_stroke COLORS.DEFAULT))
       (with_shapes (map (paint_fill COLORS.DEFAULT)) e)).

(** The styles of every element stay as they are. *)
Definition same_styles (w w' : World) : Prop :=
  forall id p, style_of w' id p = style_of w id p.

(** What one turn of the [forEach] of [initBodyVisualization] leaves of
    the element of a region that is attached. *)
Definition init_part (e : Element) : Element :=
  with_shapes (map (paint COLORS.DEFAULT)) (with_classList (token_add "body-part-transition") e).

(** ** The PIN keypad *)

Module Keypad.

Definition MAX_PIN_LENGTH : nat := 6.

(** The page of the keypad: the PIN typed so far, the elements of the
    page, and how often [setTimeout(submitPIN, 300)] has been called. *)
Record Pad := mkPad {
  pinValue : string;
  page : gmap string Element;
  autoSubmits : nat
}.

(** A call returns, or a [TypeError] escapes; either way the page is
    left as the call made it. *)
Inductive Outcome :=
| Returned (p : Pad)
| Thrown (p : Pad).

Definition pad_of (o : Outcome) : Pad :=
  match o with Returned p => p | Thrown p => p end.

Definition returned (o : Outcome) : bool :=
  match o with Returned _ => true | Thrown _ => false end.

(** The id [`dot-${i}`]. *)
Definition dot_id (i : nat) : string := "dot-" +:+ pretty i.

(** What [updateDisplay] does to the classes of dot [i]. *)
Definition light (pin : string) (i : nat) (l : list string) : list string :=
  if (i <=? String.length pin)%nat then token_add "filled" l else token_remove "filled" l.

(** The loop of [updateDisplay] from [i] on, [n] turns: a dot that is
    not on the page makes [dot.classList] throw. *)
Fixpoint updateDots (n i : nat) (p : Pad) : Outcome :=
  match n with
  | O => Returned p
  | S n' =>
      match page p !! dot_id i with
      | None => Thrown p
      | Some _ =>
          updateDots n' (S i)
            (mkPad (pinValue p)
                   (alter (with_classList (light (pinValue p) i)) (dot_id i) (page p))
                   (autoSubmits p))
      end
  end.

Definition updateDisplay (p : Pad) : Outcome := updateDots MAX_PIN_LENGTH 1 p.

Definition addDigit (digit : string) (p : Pad) : Outcome :=
  if (String.length (pinValue p) <? MAX_PIN_LENGTH)%nat then
    match updateDisplay (mkPad (pinValue p +:+ digit) (page p) (autoSubmits p)) with
    | Returned p' =>
        if (String.length (pinValue p') =? MAX_PIN_LENGTH)%nat
        then Returned (mkPad (pinValue p') (page p') (S (autoSubmits p')))
        else Returned p'
    | Thrown p' => Thrown p'
    end
  else Returned p.

(** [pinValue.slice(0, -1)]. *)
Definition drop_last (s : string) : string := substring 0 (String.length s - 1) s.

Definition deleteDigit (p : Pad) : Outcome :=
  if (0 <? String.length (pinValue p))%nat then
    updateDisplay (mkPad (drop_last (pinValue p)) (page p) (autoSubmits p))
  else Returned p.

(** Whether dot [i] is shown filled. *)
Definition filled (p : Pad) (i : nat) : bool :=
  match page p !! dot_id i with
  | Some e => includes (classList e) "filled"
  | None => false
  end.

(** The six dots are on the page. *)
Definition dotted (p : Pad) : Prop :=
  forall i, 1 <= i <= MAX_PIN_LENGTH -> is_Some (page p !! dot_id i).

(** The dots show the length of the PIN. *)
Definition shows_length (p : Pad) : Prop :=
  forall i, 1 <= i <= MAX_PIN_LENGTH -> filled p i = (i <=? String.length (pinValue p))%nat.

(** Digits typed one after the other, as long as the calls return. *)
Fixpoint typeAll (digits : list string) (p : Pad) : Outcome :=
  match digits with
  | [] => Returned p
  | d :: r =>
      match addDigit d p with
      | Returned p' => typeAll r p'
      | Thrown p' => Thrown p'
      end
  end.

(** A page with the six dots and nothing typed. *)
Definition fresh : Pad :=
  mkPad "" (list_to_map ((fun i => (dot_id i, blank)) <$> seq 1 6)) 0.

End Keypad.

(** ** The particles of the status panel *)

(** The particle that [createParticles] makes in turn [i] (from 0) when
    it starts in [w]. *)
Definition plainParticle (w : World) (i : nat) : Particle :=
  {| node := i + nextNode w; pwidth := None; pheight := None; pbackground := None;
     pleft := (unit_fraction (entropy w (2 * i + drawn w)) * 100)%Q;
     pdelay := Some (unit_fraction (entropy w (S (2 * i + drawn w))) * (1 # 2))%Q |}.

(** ** The denial reason *)

(** The timer callbacks that write no text. *)
Definition wordless (a : Action) : bool :=
  match a with
  | CbRemoveClass _ _ | CbHighlightMissingPPE | CbShowDenialReason _ | CbEndSequence => true
  | _ => false
  end.

(** No text changes, and the timers that are added write none. *)
Definition says_nothing (w w' : World) : Prop :=
  (forall id, text_of w' id = text_of w id) /\
  exists new, timers w' = timers w ++ new /\ Forall (fun t : Timer => wordless (snd t) = true) new.

(** ** The state classes and the controller *)

(** The timer callbacks that leave the three state classes alone: all
    but the removal of one of these classes. *)
Definition spares_state (a : Action) : bool :=
  match a with
  | CbRemoveClass _ cls => negb (includes state_classes cls)
  | _ => true
  end.

(** The state classes stay, and the timers that are added spare them. *)
Definition state_kept (w w' : World) : Prop :=
  keeps_state_classes w w' /\
  exists new, timers w' = timers w ++ new /\
              Forall (fun t : Timer => spares_state (snd t) = true) new.

(** ** The regions that flash *)

(** The regions that [highlightMissingPPE] flashes: those coloured as
    missing under the lists of the last update, as far as they are
    attached, in the order of the mapping. *)
Definition flashed (w : World) : list string :=
  List.filter (fun partId => attached w partId)
    (missingRegions (currentDetected w) (currentRequired w)).

(** ** The welcome *)

(** The timer callbacks that write no text: all but the welcome. *)
Definition textless (a : Action) : bool :=
  match a with
  | CbShowWelcomeMessage _ => false
  | _ => true
  end.

(** No text changes, and the timers that are added write none. *)
Definition writes_nothing (w w' : World) : Prop :=
  (forall id, text_of w' id = text_of w id) /\
  exists new, timers w' = timers w ++ new /\ Forall (fun t : Timer => textless (snd t) = true) new.

(** A pending callback that writes text welcomes [name]. *)
Definition welcomes (name : string) (a : Action) : bool :=
  match a with
  | CbShowWelcomeMessage n => String.eqb n name
  | _ => true
  end.

(** * Properties *)

(** ** Letter case *)

Lemma lower_flip c : lower_char (flip_char c) = lower_char c.
Proof.
  destruct c as [b0 b1 b2 b3 b4 b5 b6 b7].
  destruct b0, b1, b2, b3, b4, b5, b6, b7; reflexivity.
Qed.

Lemma toLowerCase_recase m s : toLowerCase (recase m s) = toLowerCase s.
Proof.
  revert m; induction s as [|c s IH]; intros [|b m]; simpl; try reflexivity.
  rewrite IH. destruct b; [rewrite lower_flip|]; reflexivity.
Qed.

Lemma lower_recaseAll ms l : map toLowerCase (recaseAll ms l) = map toLowerCase l.
Proof.
  revert ms; induction l as [|s l IH]; intros [|m ms]; simpl; try reflexivity.
  rewrite toLowerCase_recase, IH. reflexivity.
Qed.

Lemma isRequired_recase ms required partId :
  isRequired (recaseAll ms required) partId = isRequired required partId.
Proof. unfold isRequired. rewrite lower_recaseAll. reflexivity. Qed.

Lemma isDetected_recase ms detected partId :
  isDetected (recaseAll ms detected) partId = isDetected detected partId.
Proof. unfold isDetected. rewrite lower_recaseAll. reflexivity. Qed.

Lemma partColor_recase md mr detected required partId :
  partColor (recaseAll md detected) (recaseAll mr required) partId
  = partColor detected required partId.
Proof.
  unfold partColor. rewrite isRequired_recase, isDetected_recase. reflexivity.
Qed.

Lemma ppeItemDetected_recase md m detected className :
  ppeItemDetected (recaseAll md detected) (recase m className)
  = ppeItemDetected detected className.
Proof.
  unfold ppeItemDetected. rewrite toLowerCase_recase.
  revert md; induction detected as [|d l IH]; intros [|m' md]; simpl; try reflexivity.
  rewrite toLowerCase_recase, IH. reflexivity.
Qed.

(** ** The coverage mapping *)

Lemma includes_In l x : includes l x = true <-> In x l.
Proof.
  unfold includes. rewrite existsb_exists. split.
  - intros (y & Hy & E). apply String.eqb_eq in E. subst. exact Hy.
  - intros H. exists x. split; [exact H | apply String.eqb_refl].
Qed.

Lemma isRequired_false required partId :
  unrequired required partId -> isRequired required partId = false.
Proof.
  intros H. unfold isRequired, some_included, partClassesLower.
  apply not_true_is_false. rewrite existsb_exists.
  intros (cls & Hcls & Hin). apply includes_In in Hin.
  apply in_map_iff in Hcls. destruct Hcls as (syn & <- & Hsyn).
  apply in_map_iff in Hin. destruct Hin as (req & E & Hreq).
  exact (H syn req Hsyn Hreq (eq_sym E)).
Qed.

Lemma partColor_unrequired detected required partId :
  unrequired required partId -> partColor detected required partId = COLORS.NOT_REQUIRED.
Proof. intros H. unfold partColor. rewrite (isRequired_false _ _ H). reflexivity. Qed.

Lemma filter_split_length {A} (f : A -> bool) (l : list A) :
  length (List.filter f l) + length (List.filter (fun x => negb (f x)) l) = length l.
Proof.
  induction l as [|x l IH]; simpl; [reflexivity|].
  destruct (f x); simpl; lia.
Qed.

(** ** What a computation may do to the clock, the document and the timers *)

Lemma budget_app a b : budget (a ++ b) = budget a + budget b.
Proof. induction a as [|t a IH]; simpl; [reflexivity | rewrite IH; lia]. Qed.

Lemma akin_refl w : akin w w.
Proof. repeat split. Qed.

Lemma akin_trans w w1 w2 : akin w w1 -> akin w1 w2 -> akin w w2.
Proof. intros (A1 & B1 & C1) (A2 & B2 & C2). repeat split; congruence. Qed.

Ltac akin_same := intros; repeat split.

Lemma grows_refl w : grows 0 w w.
Proof.
  split; [reflexivity|]. split; [apply akin_refl|].
  exists []. rewrite app_nil_r. repeat split; [constructor | simpl; lia].
Qed.

Lemma grows_trans n1 n2 w w1 w2 :
  grows n1 w w1 -> grows n2 w1 w2 -> grows (n1 + n2) w w2.
Proof.
  intros (Hn1 & Hd1 & new1 & Ht1 & Hf1 & Hb1) (Hn2 & Hd2 & new2 & Ht2 & Hf2 & Hb2).
  split; [congruence|]. split; [eapply akin_trans; eassumption|].
  exists (new1 ++ new2). split; [rewrite Ht2, Ht1, app_assoc; reflexivity|].
  split.
  - apply Forall_app. split; [exact Hf1|]. rewrite Hn1 in Hf2. exact Hf2.
  - rewrite budget_app. lia.
Qed.

Lemma grows_mono n n' w w' : grows n w w' -> n <= n' -> grows n' w w'.
Proof.
  intros (Hn & Hd & new & Ht & Hf & Hb) Hle.
  split; [exact Hn|]. split; [exact Hd|]. exists new. repeat split; [exact Ht | exact Hf | lia].
Qed.

Section GrowsRules.

Context {A B : Type}.

Lemma Grows_mono n n' (m : JS A) : Grows n m -> n <= n' -> Grows n' m.
Proof. intros H Hle w. eapply grows_mono; [apply H | exact Hle]. Qed.

Lemma Grows_ret (a : A) : Grows 0 (ret a).
Proof. intros w. apply grows_refl. Qed.

Lemma Grows_throw : Grows 0 (@throw A).
Proof. intros w. apply grows_refl. Qed.

Lemma Grows_read (f : World -> A) : Grows 0 (read f).
Proof. intros w. apply grows_refl. Qed.

Lemma Grows_bind n1 n2 (m : JS A) (k : A -> JS B) :
  Grows n1 m -> (forall a, Grows n2 (k a)) -> Grows (n1 + n2) (bind m k).
Proof.
  intros Hm Hk w. unfold bind. specialize (Hm w).
  destruct (m w) as [a w1|w1]; simpl in Hm.
  - eapply grows_trans; [exact Hm | apply Hk].
  - eapply grows_mono; [exact Hm | lia].
Qed.

Lemma Grows_if n1 n2 (b : bool) (m1 m2 : JS A) :
  Grows n1 m1 -> Grows n2 m2 -> Grows (Nat.max n1 n2) (if b then m1 else m2).
Proof.
  intros H1 H2. destruct b; [eapply Grows_mono; [exact H1 | lia] | eapply Grows_mono; [exact H2 | lia]].
Qed.

End GrowsRules.

Lemma Grows_whenPresent n o (body : string -> JS unit) :
  (forall r, Grows n (body r)) -> Grows n (whenPresent o body).
Proof.
  intros H. destruct o as [r|]; simpl; [apply H|].
  eapply Grows_mono; [apply Grows_ret | lia].
Qed.

Lemma Grows_forEach {A} n (l : list A) (body : A -> JS unit) :
  (forall x, Grows n (body x)) -> Grows (length l * n) (forEach l body).
Proof.
  intros H. induction l as [|x l IH]; simpl.
  - apply Grows_ret.
  - apply Grows_bind; [apply H | intros _; exact IH].
Qed.

Lemma Grows_forEachFrom {A} n i (l : list A) (body : A -> nat -> JS unit) :
  (forall x j, Grows n (body x j)) -> Grows (length l * n) (forEachFrom i l body).
Proof.
  intros H. revert i. induction l as [|x l IH]; intros i; simpl.
  - apply Grows_ret.
  - apply Grows_bind; [apply H | intros _; apply IH].
Qed.

Lemma Grows_deref o : Grows 0 (deref o).
Proof. destruct o; [apply Grows_ret | apply Grows_throw]. Qed.

Lemma Grows_getElementById id : Grows 0 (getElementById id).
Proof. apply Grows_read. Qed.

(** A write that leaves the clock and the timers alone and keeps the
    ids of the document and the snapshot. *)
Lemma Grows_modify (f : World -> World) :
  (forall w, now (f w) = now w) ->
  (forall w, timers (f w) = timers w) ->
  (forall w, akin w (f w)) ->
  Grows 0 (modify f).
Proof.
  intros Hn Ht Hd w. simpl. split; [apply Hn|]. split; [apply Hd|].
  exists []. rewrite app_nil_r. repeat split; [apply Ht | constructor | simpl; lia].
Qed.

Lemma Grows_alterElement f o : Grows 0 (alterElement f o).
Proof.
  unfold alterElement. change 0 with (0 + 0). apply Grows_bind; [apply Grows_deref|].
  intros r. apply Grows_modify; intros w; try reflexivity.
  split; [simpl; apply dom_alter_L | split; reflexivity].
Qed.

Lemma Grows_setTimeout a d : Grows (cost a) (setTimeout a d).
Proof.
  intros w. simpl. split; [reflexivity|]. split; [akin_same|].
  eexists. split; [reflexivity|]. split.
  - constructor; [simpl; lia | constructor].
  - simpl. lia.
Qed.

Lemma Grows_setTimeout_at n a d : cost a = n -> Grows n (setTimeout a d).
Proof. intros <-. apply Grows_setTimeout. Qed.

Lemma Grows_Math_random : Grows 0 Math_random.
Proof.
  intros w. apply (Grows_modify (fun w => set_drawn (S (drawn w)) w)); try reflexivity; akin_same.
Qed.

Lemma Grows_createElement : Grows 0 createElement.
Proof.
  intros w. apply (Grows_modify (fun w => set_nextNode (S (nextNode w)) w));
    try reflexivity; akin_same.
Qed.

Lemma Grows_remove_node n : Grows 0 (remove_node n).
Proof.
  apply Grows_modify; intros w; try reflexivity.
  split; [simpl; apply dom_fmap_L | split; reflexivity].
Qed.

Lemma Grows_socket_emit name : Grows 0 (socket_emit name).
Proof. apply Grows_modify; try reflexivity; akin_same. Qed.

Lemma Grows_set_isAnimating b : Grows 0 (modify (set_isAnimating b)).
Proof. apply Grows_modify; try reflexivity; akin_same. Qed.

Lemma Grows_set_svgLoaded b : Grows 0 (modify (set_svgLoaded b)).
Proof. apply Grows_modify; try reflexivity; akin_same. Qed.

Lemma Grows_set_currentState s : Grows 0 (modify (set_currentState s)).
Proof. apply Grows_modify; try reflexivity; akin_same. Qed.

Lemma Grows_set_requiredClasses l : Grows 0 (modify (set_requiredClasses l)).
Proof. apply Grows_modify; try reflexivity; akin_same. Qed.

Create HintDb grows discriminated.

#[local] Hint Resolve Grows_ret Grows_throw Grows_read Grows_deref Grows_getElementById
  Grows_alterElement Grows_Math_random Grows_createElement
  Grows_remove_node Grows_socket_emit Grows_set_isAnimating
  Grows_set_svgLoaded Grows_set_currentState Grows_set_requiredClasses : grows.

(** Syntax-directed search for a bound. *)
Ltac grows_step :=
  lazymatch goal with
  | |- forall _, _ => intro
  | |- Grows _ (bind _ _) => eapply Grows_bind
  | |- Grows _ (if _ then _ else _) => eapply Grows_if
  | |- Grows _ (whenPresent _ _) => eapply Grows_whenPresent
  | |- Grows _ (forEach _ _) => eapply Grows_forEach
  | |- Grows _ (forEachFrom _ _ _) => eapply Grows_forEachFrom
  | |- Grows _ (setTimeout _ _) => eapply Grows_setTimeout_at; simpl; reflexivity
  | |- Grows _ _ => solve [eauto 2 with grows]
  end.

Ltac grows_auto := repeat grows_step.

Lemma Grows_classList_add o c : Grows 0 (classList_add o c).
Proof. apply Grows_alterElement. Qed.

Lemma Grows_classList_remove o cs : Grows 0 (classList_remove o cs).
Proof. apply Grows_alterElement. Qed.

Lemma Grows_set_textContent o s : Grows 0 (set_textContent o s).
Proof. apply Grows_alterElement. Qed.

Lemma Grows_set_style o p v : Grows 0 (set_style o p v).
Proof. apply Grows_alterElement. Qed.

Lemma Grows_appendChild o p : Grows 0 (appendChild o p).
Proof. apply Grows_alterElement. Qed.

#[local] Hint Resolve Grows_classList_add Grows_classList_remove Grows_set_textContent
  Grows_set_style Grows_appendChild : grows.

Lemma Grows_setPartColor partId color : Grows 0 (setPartColor partId color).
Proof. unfold setPartColor. eapply Grows_mono; [grows_auto | simpl; lia]. Qed.

#[local] Hint Resolve Grows_setPartColor : grows.

Lemma Grows_highlightMissingPPE : Grows 9 highlightMissingPPE.
Proof. unfold highlightMissingPPE. eapply Grows_mono; [grows_auto | simpl; lia]. Qed.

Lemma Grows_initBodyVisualization : Grows 0 initBodyVisualization.
Proof. unfold initBodyVisualization. eapply Grows_mono; [grows_auto | simpl; lia]. Qed.

Lemma Grows_exec a : Grows (cost a - 1) (exec a).
Proof.
  destruct a; simpl exec;
    unfold AnimationController.bodyPartSuccess, AnimationController.transitionStatusSection,
      AnimationController.fadeIn, AnimationController.showWelcomeMessage,
      AnimationController.createSuccessParticles, AnimationController.spawnParticle,
      AnimationController.animateDoorOpening, AnimationController.doorFill,
      AnimationController.showDenialReason;
    try (eapply Grows_mono; [grows_auto | simpl; lia]).
  eapply Grows_mono; [grows_auto; apply Grows_highlightMissingPPE | simpl; lia].
Qed.

Lemma Grows_playAccessGranted name : Grows 88 (AnimationController.playAccessGranted name).
Proof.
  unfold AnimationController.playAccessGranted, AnimationController.animateBodyPartsSuccess.
  eapply Grows_mono; [grows_auto | simpl; lia].
Qed.

Lemma Grows_playAccessDenied reason : Grows 14 (AnimationController.playAccessDenied reason).
Proof.
  unfold AnimationController.playAccessDenied, AnimationController.shakeElement.
  eapply Grows_mono; [grows_auto | simpl; lia].
Qed.

(** ** The event loop *)

Lemma cost_pos a : 1 <= cost a.
Proof. destruct a; simpl; lia. Qed.

Lemma budget_nil_inv ts : budget ts = 0 -> ts = [].
Proof.
  destruct ts as [|t ts]; [reflexivity|]. simpl. pose proof (cost_pos (snd t)). lia.
Qed.

Lemma pick_None ts : pick ts = None -> ts = [].
Proof.
  destruct ts as [|t r]; [reflexivity|]. simpl.
  destruct (pick r) as [[m r']|]; [|discriminate].
  destruct (fst t <=? fst m)%N; discriminate.
Qed.

Lemma pick_Some ts m rest :
  pick ts = Some (m, rest) ->
  Permutation ts (m :: rest) /\ Forall (fun t : Timer => (fst m <= fst t)%N) ts.
Proof.
  revert m rest. induction ts as [|t r IH]; intros m rest; simpl; [discriminate|].
  destruct (pick r) as [[m' r']|] eqn:E.
  - destruct (IH _ _ eq_refl) as [Hp Hf].
    destruct (fst t <=? fst m')%N eqn:Hle; intros [= <- <-].
    + apply N.leb_le in Hle. split; [reflexivity|].
      constructor; [lia|]. eapply Forall_impl; [exact Hf|]. simpl. intros; lia.
    + apply N.leb_gt in Hle. split.
      * rewrite Hp. apply perm_swap.
      * constructor; [lia | exact Hf].
  - intros [= <- <-]. apply pick_None in E. subst r. split; [reflexivity|].
    constructor; [lia | constructor].
Qed.

Lemma budget_perm a b : Permutation a b -> budget a = budget b.
Proof. induction 1; simpl; lia. Qed.

Lemma timely_grows n w w' : timely w -> grows n w w' -> timely w'.
Proof.
  unfold timely. intros H (Hn & _ & new & Ht & Hf & _).
  rewrite Ht, Hn. apply Forall_app. split; assumption.
Qed.

Lemma fire_None w : fire w = None -> timers w = [].
Proof.
  unfold fire. destruct (pick (timers w)) as [[[due a] rest]|] eqn:E; [discriminate|].
  intros _. apply pick_None. exact E.
Qed.

Lemma fire_Some w e w' :
  timely w -> fire w = Some (e, w') ->
  exists rest w1,
    Permutation (timers w) (e :: rest) /\
    w1 = set_timers rest (set_now (fst e) w) /\
    w' = world_of (exec (snd e) w1) /\
    (now w <= fst e)%N /\
    timely w1 /\
    grows (cost (snd e) - 1) w1 w'.
Proof.
  intros Hw. unfold fire.
  destruct (pick (timers w)) as [[[due a] rest]|] eqn:E; [|discriminate].
  destruct (pick_Some _ _ _ E) as [Hp Hf]. simpl in Hf.
  assert (Hdue : (now w <= due)%N).
  { unfold timely in Hw. rewrite Hp in Hw. inversion Hw; assumption. }
  replace (N.max (now w) due) with due by lia.
  intros [= <- <-]. exists rest, (set_timers rest (set_now due w)).
  split; [exact Hp|]. split; [reflexivity|]. split; [reflexivity|]. split; [exact Hdue|].
  split.
  - unfold timely. simpl. rewrite Hp in Hf. inversion Hf; assumption.
  - apply Grows_exec.
Qed.

Lemma fire_timely w e w' : timely w -> fire w = Some (e, w') -> timely w'.
Proof.
  intros Hw Hf. destruct (fire_Some _ _ _ Hw Hf) as (rest & w1 & _ & _ & _ & _ & H1 & Hg).
  eapply timely_grows; eassumption.
Qed.

Lemma fire_budget w e w' :
  timely w -> fire w = Some (e, w') -> budget (timers w') < budget (timers w).
Proof.
  intros Hw Hf. destruct (fire_Some _ _ _ Hw Hf) as (rest & w1 & Hp & -> & _ & _ & _ & Hg).
  destruct Hg as (_ & _ & new & Ht & _ & Hb). rewrite Ht, budget_app.
  rewrite (budget_perm _ _ Hp). simpl. pose proof (cost_pos (snd e)). lia.
Qed.

Lemma fire_akin w e w' : timely w -> fire w = Some (e, w') -> akin w w'.
Proof.
  intros Hw Hf. destruct (fire_Some _ _ _ Hw Hf) as (rest & w1 & Hp & -> & _ & _ & _ & Hg).
  destruct Hg as (_ & Hd & _). exact Hd.
Qed.

(** Fuel beyond the budget changes nothing. *)
Lemma runLoop_fuel n m w :
  timely w -> budget (timers w) <= n -> budget (timers w) <= m ->
  runLoop n w = runLoop m w.
Proof.
  revert m w. induction n as [|n IH]; intros m w Hw Hn Hm.
  - assert (E : timers w = []) by (apply budget_nil_inv; lia).
    destruct m as [|m]; [reflexivity|]. simpl.
    unfold fire. rewrite E. reflexivity.
  - destruct m as [|m].
    + assert (E : timers w = []) by (apply budget_nil_inv; lia).
      simpl. unfold fire. rewrite E. reflexivity.
    + simpl. destruct (fire w) as [[e w']|] eqn:Hf; [|reflexivity].
      pose proof (fire_budget _ _ _ Hw Hf). pose proof (fire_timely _ _ _ Hw Hf).
      rewrite (IH m w') by (assumption || lia). reflexivity.
Qed.

Lemma drain_step w e w' :
  timely w -> fire w = Some (e, w') ->
  trace w = e :: trace w' /\ snd (drain w) = snd (drain w').
Proof.
  intros Hw Hf. unfold trace, drain.
  pose proof (fire_budget _ _ _ Hw Hf) as Hb. pose proof (fire_timely _ _ _ Hw Hf) as Hw'.
  destruct (budget (timers w)) as [|n] eqn:En; [lia|].
  simpl. rewrite Hf.
  rewrite (runLoop_fuel n (budget (timers w')) w') by (assumption || lia).
  destruct (runLoop (budget (timers w')) w'). split; reflexivity.
Qed.

Lemma drain_idle w : timers w = [] -> trace w = [] /\ snd (drain w) = w.
Proof. intros E. unfold trace, drain. rewrite E. split; reflexivity. Qed.

(** The loop runs dry: after [drain] no timer is pending. *)
Lemma drain_done w : timely w -> timers (snd (drain w)) = [].
Proof.
  remember (budget (timers w)) as k eqn:Ek. revert w Ek.
  induction k as [k IH] using lt_wf_ind. intros w Ek Hw.
  destruct (fire w) as [[e w']|] eqn:Hf.
  - destruct (drain_step _ _ _ Hw Hf) as [_ ->].
    apply (IH (budget (timers w'))); [|reflexivity|eapply fire_timely; eassumption].
    subst k. eapply fire_budget; eassumption.
  - apply fire_None in Hf. destruct (drain_idle _ Hf) as [_ ->]. exact Hf.
Qed.

(** A pending timer fires, at the time it is due and not before the
    timers due earlier; the world it fires in has the ids of the
    document of today, and the trace goes on from what its callback leaves. *)
Lemma pending_fires_at w t :
  timely w -> In t (timers w) ->
  exists pre w1,
    trace w = pre ++ t :: trace (world_of (exec (snd t) w1)) /\
    now w1 = fst t /\
    akin w w1 /\
    timely (world_of (exec (snd t) w1)).
Proof.
  remember (budget (timers w)) as k eqn:Ek. revert w Ek.
  induction k as [k IH] using lt_wf_ind. intros w Ek Hw Hin.
  destruct (fire w) as [[e w']|] eqn:Hf.
  - destruct (drain_step _ _ _ Hw Hf) as [Htr _].
    destruct (fire_Some _ _ _ Hw Hf) as (rest & w1 & Hp & Hw1 & Hw' & Hle & Ht1 & Hg).
    assert (Hin' : In t (e :: rest)).
    { apply list_elem_of_In. rewrite <- Hp. apply list_elem_of_In. exact Hin. }
    destruct Hin' as [<- | Hrest].
    + exists [], w1. rewrite Htr, Hw'. split; [reflexivity|].
      split; [subst w1; reflexivity|]. split; [subst w1; repeat split|].
      rewrite <- Hw'. exact (fire_timely _ _ _ Hw Hf).
    + assert (Hin2 : In t (timers w')).
      { destruct Hg as (_ & _ & new & Ht & _). rewrite Ht. apply in_or_app. left.
        subst w1. exact Hrest. }
      destruct (IH (budget (timers w'))) with (w := w') as (pre & w2 & H1 & H2 & H3 & H4);
        [subst k; exact (fire_budget _ _ _ Hw Hf) | reflexivity
        | exact (fire_timely _ _ _ Hw Hf) | exact Hin2 |].
      exists (e :: pre), w2. rewrite Htr, H1. split; [reflexivity|].
      split; [exact H2|]. split; [|exact H4].
      exact (akin_trans _ _ _ (fire_akin _ _ _ Hw Hf) H3).
  - apply fire_None in Hf. rewrite Hf in Hin. destruct Hin.
Qed.

Lemma pending_fires w t : timely w -> In t (timers w) -> In t (trace w).
Proof.
  intros Hw Hin. destruct (pending_fires_at _ _ Hw Hin) as (pre & w1 & -> & _).
  apply in_or_app. right. left. reflexivity.
Qed.

(** Conversely, every turn of the loop runs a callback in a world whose
    clock shows the time of the turn, and the trace goes on from what the
    callback leaves. *)
Lemma fired_at w e :
  timely w -> In e (trace w) ->
  exists pre w1,
    trace w = pre ++ e :: trace (world_of (exec (snd e) w1)) /\
    now w1 = fst e /\
    akin w w1 /\
    timely (world_of (exec (snd e) w1)).
Proof.
  remember (budget (timers w)) as k eqn:Ek. revert w Ek.
  induction k as [k IH] using lt_wf_ind. intros w Ek Hw Hin.
  destruct (fire w) as [[e0 w']|] eqn:Hf.
  - destruct (drain_step _ _ _ Hw Hf) as [Htr _].
    destruct (fire_Some _ _ _ Hw Hf) as (rest & w1 & Hp & Hw1 & Hw' & Hle & Ht1 & Hg).
    rewrite Htr in Hin. destruct Hin as [<- | Hin].
    + exists [], w1. rewrite Htr, Hw'. split; [reflexivity|].
      split; [subst w1; reflexivity|]. split; [subst w1; repeat split|].
      rewrite <- Hw'. exact (fire_timely _ _ _ Hw Hf).
    + destruct (IH (budget (timers w'))) with (w := w') as (pre & w2 & H1 & H2 & H3 & H4);
        [subst k; exact (fire_budget _ _ _ Hw Hf) | reflexivity
        | exact (fire_timely _ _ _ Hw Hf) | exact Hin |].
      exists (e0 :: pre), w2. rewrite Htr, H1. split; [reflexivity|].
      split; [exact H2|]. split; [|exact H4].
      exact (akin_trans _ _ _ (fire_akin _ _ _ Hw Hf) H3).
  - apply fire_None in Hf. destruct (drain_idle _ Hf) as [E _]. rewrite E in Hin. destruct Hin.
Qed.

(** ** What the callbacks do *)

Ltac js_unfold :=
  unfold AnimationController.bodyPartSuccess, AnimationController.transitionStatusSection,
    AnimationController.fadeIn, AnimationController.showWelcomeMessage,
    AnimationController.createSuccessParticles, AnimationController.spawnParticle,
    AnimationController.animateDoorOpening, AnimationController.doorFill,
    AnimationController.showDenialReason, AnimationController.shakeElement,
    classList_add, classList_remove, set_textContent, set_style, appendChild,
    alterElement, remove_node, socket_emit, setTimeout, createElement, Math_random,
    getElementById, whenPresent, deref, read, modify, bind, ret, throw.

Lemma set_timers_id w : set_timers (timers w) w = w.
Proof. destruct w; reflexivity. Qed.

Lemma forEach_setTimeout {A} (f : A -> Action) (d : A -> N) (l : list A) w :
  forEach l (fun x => setTimeout (f x) (d x)) w
  = Ok tt (set_timers (timers w ++ map (fun x => ((now w + d x)%N, f x)) l) w).
Proof.
  revert w. induction l as [|x l IH]; intros w; simpl.
  - rewrite app_nil_r, set_timers_id. reflexivity.
  - unfold bind at 1. unfold setTimeout at 1, modify at 1. rewrite IH.
    destruct w; simpl. rewrite <- app_assoc. reflexivity.
Qed.

Lemma playAccessGranted_timers name w :
  timers (world_of (AnimationController.playAccessGranted name w))
  = timers w ++
    imap (fun i p => ((now w + N.of_nat i * 100)%N, CbBodyPartSuccess p))
         AnimationController.bodyParts ++
    [ ((now w + 200)%N, CbTransitionStatusSection "granted");
      ((now w + 400)%N, CbShowWelcomeMessage name);
      ((now w + 600)%N, CbCreateSuccessParticles);
      ((now w + 800)%N, CbAnimateDoorOpening 3000);
      ((now w + 4000)%N, CbEndSequence) ].
Proof. destruct w; cbn. repeat rewrite <- app_assoc. reflexivity. Qed.

Lemma playAccessDenied_timers_tail reason w :
  exists shake,
    timers (world_of (AnimationController.playAccessDenied reason w))
    = timers w ++ shake ++
      [ ((now w + 200)%N, CbHighlightMissingPPE);
        ((now w + 400)%N, CbShowDenialReason reason);
        ((now w + 2000)%N, CbEndSequence) ].
Proof.
  unfold AnimationController.playAccessDenied. js_unfold. cbn.
  destruct (document w !! "access-status"); cbn.
  - exists [((now w + 500)%N, CbRemoveClass "access-status" "shake-animation")].
    repeat rewrite <- app_assoc. reflexivity.
  - exists []. repeat rewrite <- app_assoc. reflexivity.
Qed.

Lemma exec_createSuccessParticles w e :
  document w !! "access-status" = Some e ->
  exec CbCreateSuccessParticles w
  = Ok tt (set_timers
      (timers w ++ map (fun i => ((now w + N.of_nat i * 50)%N, CbSpawnParticle "access-status"))
                       (seq 0 AnimationController.particleCount)) w).
Proof.
  intros H. simpl exec. unfold AnimationController.createSuccessParticles.
  unfold bind at 1, getElementById, read. rewrite H. unfold whenPresent.
  apply (forEach_setTimeout (fun _ => CbSpawnParticle "access-status") (fun i => (N.of_nat i * 50)%N)).
Qed.

Lemma unit_fraction_range k : (0 <= unit_fraction k)%Q /\ (unit_fraction k < 1)%Q.
Proof.
  unfold unit_fraction.
  assert (H : (k mod 9007199254740992 < 9007199254740992)%N) by (apply N.mod_lt; discriminate).
  generalize dependent (k mod 9007199254740992)%N. intros r H.
  split; [unfold Qle | unfold Qlt]; cbn [Qnum Qden]; lia.
Qed.

Lemma palette_index r :
  (0 <= r)%Q -> (r < 1)%Q ->
  exists c,
    AnimationController.colors
      !! Z.to_nat (Qfloor (r * inject_Z (Z.of_nat (length AnimationController.colors)))) = Some c /\
    In c AnimationController.colors.
Proof.
  intros H0 H1. simpl length. change (inject_Z (Z.of_nat 4)) with (4 # 1).
  set (f := Qfloor (r * (4 # 1))).
  assert (Hlo : (0 <= f)%Z).
  { change 0%Z with (Qfloor (inject_Z 0)). apply Qfloor_resp_le.
    change (inject_Z 0) with (0 # 1). lra. }
  assert (Hhi : (f < 4)%Z).
  { rewrite Zlt_Qlt. eapply Qle_lt_trans; [apply Qfloor_le|].
    change (inject_Z 4) with (4 # 1). lra. }
  assert (Hn : Z.to_nat f < 4) by lia.
  destruct (Z.to_nat f) as [|[|[|[|n]]]]; [| | | |lia];
    eexists; (split; [reflexivity | simpl; tauto]).
Qed.

Lemma successParticle_well_styled n k1 k2 k3 :
  well_styled (AnimationController.successParticle n
                 (unit_fraction k1) (unit_fraction k2) (unit_fraction k3)).
Proof.
  destruct (unit_fraction_range k1) as [A1 B1].
  destruct (unit_fraction_range k2) as [A2 B2].
  destruct (unit_fraction_range k3) as [A3 B3].
  unfold well_styled, AnimationController.successParticle; cbn [pwidth pheight pbackground pleft].
  split; [|split; [|split]].
  - eexists. split; [reflexivity|]. split; [reflexivity|]. split; lra.
  - apply palette_index; assumption.
  - lra.
  - lra.
Qed.

Lemma exec_spawnParticle c w :
  let p := AnimationController.successParticle (nextNode w)
             (unit_fraction (entropy w (drawn w)))
             (unit_fraction (entropy w (S (drawn w))))
             (unit_fraction (entropy w (S (S (drawn w))))) in
  let w' := world_of (exec (CbSpawnParticle c) w) in
  completes (exec (CbSpawnParticle c) w) = true /\
  document w' = alter (with_kids (fun l => l ++ [p])) c (document w) /\
  timers w' = timers w ++ [((now w + 1500)%N, CbRemoveParticle (nextNode w))] /\
  now w' = now w /\ nextNode w' = S (nextNode w) /\ drawn w' = S (S (S (drawn w))) /\
  isAnimating w' = isAnimating w /\ well_styled p.
Proof.
  intros p w'. repeat (split; [reflexivity|]). apply successParticle_well_styled.
Qed.

Lemma exec_removeParticle n w :
  let w' := world_of (exec (CbRemoveParticle n) w) in
  completes (exec (CbRemoveParticle n) w) = true /\
  document w' = with_kids (List.filter (fun p => negb (Nat.eqb (node p) n))) <$> document w /\
  timers w' = timers w /\ now w' = now w.
Proof. cbn. repeat split. Qed.

Example kiosk_initialised :
  world_of (initBodyVisualization
              (loaded (page panel_ids (Object_keys BODY_PART_MAPPING) raw_part) true))
  = kiosk.
Proof. vm_compute. reflexivity. Qed.

Lemma akin_sym w w1 : akin w w1 -> akin w1 w.
Proof. intros (A & B & C). repeat split; congruence. Qed.

Lemma present_akin w w1 id :
  akin w w1 -> is_Some (document w !! id) -> is_Some (document w1 !! id).
Proof. intros [Hd _] H. apply elem_of_dom. rewrite Hd. apply elem_of_dom. exact H. Qed.

Lemma attached_akin w w1 id : akin w w1 -> attached w1 id = attached w id.
Proof.
  intros Hd. unfold attached.
  destruct (document w !! id) as [e|] eqn:E.
  - destruct (present_akin w w1 id Hd) as [e1 ->]; [eauto | reflexivity].
  - destruct (document w1 !! id) as [e1|] eqn:E1; [|reflexivity].
    destruct (present_akin w1 w id (akin_sym _ _ Hd)) as [e0 E0]; [eauto | congruence].
Qed.

Lemma unattached_akin a w w1 : akin w w1 -> unattached a w1 = unattached a w.
Proof.
  intros Hd. destruct a; unfold unattached;
    rewrite ?(attached_akin w w1) by exact Hd; try reflexivity.
  pose proof Hd as (_ & -> & ->).
  induction (Object_keys BODY_PART_MAPPING) as [|p l IH]; simpl; [reflexivity|].
  rewrite IH, (attached_akin w w1) by exact Hd. reflexivity.
Qed.

(** A callback that runs sets timers, and those run too. *)
Lemma fires_then w t t' :
  timely w -> In t (trace w) ->
  (forall w1, now w1 = fst t -> akin w w1 ->
              In t' (timers (world_of (exec (snd t) w1)))) ->
  In t' (trace w).
Proof.
  intros Hw Hin Hnext.
  destruct (fired_at _ _ Hw Hin) as (pre & w1 & -> & Hn & Hd & Hw2).
  apply in_or_app. right. right. apply pending_fires; [exact Hw2|].
  apply Hnext; assumption.
Qed.

Lemma includes_token_add c l : includes (token_add c l) c = true.
Proof.
  unfold token_add. destruct (includes l c) eqn:E; [exact E|].
  apply includes_In. apply in_or_app. right. left. reflexivity.
Qed.

Lemma includes_token_remove c l : includes (token_remove c l) c = false.
Proof.
  apply not_true_is_false. rewrite includes_In. unfold token_remove.
  rewrite filter_In. intros [_ H]. rewrite String.eqb_refl in H. discriminate.
Qed.

#[local] Arguments includes : simpl never.
#[local] Arguments token_add : simpl never.
#[local] Arguments token_remove : simpl never.
#[local] Arguments pretty : simpl never.
#[local] Arguments partColor : simpl never.
#[local] Arguments shouldGlow : simpl never.
#[local] Arguments isDetected : simpl never.
#[local] Arguments isRequired : simpl never.

Lemma exec_bodyPartSuccess p w e :
  document w !! p = Some e ->
  let w' := world_of (exec (CbBodyPartSuccess p) w) in
  completes (exec (CbBodyPartSuccess p) w) = true /\
  has_class w' p "scale-in" = true /\
  style_of w' p "transition" = Some "all 0.5s ease" /\
  timers w' = timers w ++ [((now w + 500)%N, CbRemoveClass p "scale-in")].
Proof.
  intros H. simpl exec. js_unfold. rewrite H. cbn.
  unfold has_class, style_of. cbn. rewrite !lookup_alter_eq, H. cbn.
  rewrite includes_token_add, lookup_insert_eq. repeat split.
Qed.

Lemma exec_removeClass el cls w :
  let w' := world_of (exec (CbRemoveClass el cls) w) in
  completes (exec (CbRemoveClass el cls) w) = true /\
  has_class w' el cls = false /\ timers w' = timers w.
Proof.
  cbn. unfold has_class. cbn. rewrite lookup_alter_eq.
  destruct (document w !! el) as [e|]; cbn; [rewrite includes_token_remove|]; repeat split.
Qed.

Lemma exec_animateDoorOpening d w e1 e2 :
  document w !! "door-progress" = Some e1 ->
  document w !! "door-progress-bar" = Some e2 ->
  let w' := world_of (exec (CbAnimateDoorOpening d) w) in
  completes (exec (CbAnimateDoorOpening d) w) = true /\
  style_of w' "door-progress" "display" = Some "block" /\
  style_of w' "door-progress-bar" "width" = Some "0%" /\
  style_of w' "door-progress-bar" "transition" = Some "none" /\
  timers w' = timers w ++ [((now w + 50)%N, CbDoorFill "door-progress-bar" d)].
Proof.
  intros H1 H2. simpl exec. js_unfold. rewrite H1, H2. cbn.
  unfold style_of. cbn.
  rewrite !lookup_alter_eq, !lookup_alter_ne, !lookup_alter_eq, H1 by discriminate.
  rewrite !lookup_alter_ne, H2 by discriminate. cbn.
  rewrite lookup_insert_eq, lookup_insert_ne, !lookup_insert_eq by discriminate.
  repeat split.
Qed.

Lemma exec_doorFill bar d w e :
  document w !! bar = Some e ->
  let w' := world_of (exec (CbDoorFill bar d) w) in
  completes (exec (CbDoorFill bar d) w) = true /\
  style_of w' bar "transition" = Some ("width " +:+ pretty d +:+ "ms linear") /\
  style_of w' bar "width" = Some "100%" /\
  timers w' = timers w.
Proof.
  intros H. simpl exec. js_unfold. cbn. unfold style_of. cbn.
  rewrite !lookup_alter_eq, H. cbn.
  rewrite lookup_insert_eq, lookup_insert_ne, lookup_insert_eq by discriminate.
  repeat split.
Qed.

(** ** The access-granted sequence *)

Lemma playAccessGranted_timely name w :
  timely w -> timely (world_of (AnimationController.playAccessGranted name w)).
Proof. intros Hw. eapply timely_grows; [exact Hw | apply Grows_playAccessGranted]. Qed.

Lemma playAccessGranted_akin name w :
  akin w (world_of (AnimationController.playAccessGranted name w)).
Proof. destruct (Grows_playAccessGranted name w) as (_ & Hd & _). exact Hd. Qed.

Lemma playAccessGranted_step name w t :
  In t [ ((now w + 200)%N, CbTransitionStatusSection "granted");
         ((now w + 400)%N, CbShowWelcomeMessage name);
         ((now w + 600)%N, CbCreateSuccessParticles);
         ((now w + 800)%N, CbAnimateDoorOpening 3000);
         ((now w + 4000)%N, CbEndSequence) ] ->
  In t (timers (world_of (AnimationController.playAccessGranted name w))).
Proof.
  intros H. rewrite playAccessGranted_timers.
  apply in_or_app. right. apply in_or_app. right. exact H.
Qed.

Lemma playAccessGranted_bodyPart name w i p :
  AnimationController.bodyParts !! i = Some p ->
  In ((now w + N.of_nat i * 100)%N, CbBodyPartSuccess p)
     (timers (world_of (AnimationController.playAccessGranted name w))).
Proof.
  intros H. rewrite playAccessGranted_timers.
  apply in_or_app. right. apply in_or_app. left.
  apply list_elem_of_In. apply list_elem_of_lookup. exists i.
  rewrite list_lookup_imap, H. reflexivity.
Qed.

(** C4 (amended). In the access-granted sequence the success marker
    [scale-in] goes to the seven regions of the sequence's own list
    (head, face, eyes, chest, hands-left, hands-right, feet), region
    number [i] at [100 * i] ms after the start: the sequence sets exactly
    these region timers beside its five steps, each fires at its time,
    marks the region if it is attached, and the marker is taken off
    500 ms later. *)
Theorem C4_success_markers (w : World) (name : string) :
  timely w ->
  let A := world_of (AnimationController.playAccessGranted name w) in
  (forall i p, AnimationController.bodyParts !! i = Some p ->
     In ((now w + N.of_nat i * 100)%N, CbBodyPartSuccess p) (trace A)) /\
  timers A
  = timers w ++
    imap (fun i p => ((now w + N.of_nat i * 100)%N, CbBodyPartSuccess p))
         ["head"; "face"; "eyes"; "chest"; "hands-left"; "hands-right"; "feet"] ++
    [ ((now w + 200)%N, CbTransitionStatusSection "granted");
      ((now w + 400)%N, CbShowWelcomeMessage name);
      ((now w + 600)%N, CbCreateSuccessParticles);
      ((now w + 800)%N, CbAnimateDoorOpening 3000);
      ((now w + 4000)%N, CbEndSequence) ] /\
  (forall p w1 e, document w1 !! p = Some e ->
     let w2 := world_of (exec (CbBodyPartSuccess p) w1) in
     has_class w2 p "scale-in" = true /\
     timers w2 = timers w1 ++ [((now w1 + 500)%N, CbRemoveClass p "scale-in")]) /\
  (forall t p, In (t, CbBodyPartSuccess p) (trace A) -> is_Some (document w !! p) ->
     In ((t + 500)%N, CbRemoveClass p "scale-in") (trace A)) /\
  (forall p w1, has_class (world_of (exec (CbRemoveClass p "scale-in") w1)) p "scale-in" = false).
Proof.
  intros Hw A.
  assert (HA : timely A) by (apply playAccessGranted_timely; exact Hw).
  split; [|split; [|split; [|split]]].
  - intros i p Hp. apply pending_fires; [exact HA|].
    apply playAccessGranted_bodyPart. exact Hp.
  - apply playAccessGranted_timers.
  - intros p w1 e He. destruct (exec_bodyPartSuccess p w1 e He) as (_ & H1 & _ & H2).
    split; assumption.
  - intros t p Hin Hp. eapply fires_then; [exact HA | exact Hin |].
    intros w1 Hn Hd. cbn [fst snd] in Hn, Hd |- *.
    destruct (present_akin w w1 p) as [e He]; [|exact Hp|].
    { exact (akin_trans _ _ _ (playAccessGranted_akin name w) Hd). }
    destruct (exec_bodyPartSuccess p w1 e He) as (_ & _ & _ & ->).
    apply in_or_app. right. left. rewrite Hn. reflexivity.
  - intros p w1. destruct (exec_removeClass p "scale-in" w1) as (_ & H & _). exact H.
Qed.

Lemma C4_success_markers_witness :
  timely kiosk /\
  In (300%N, CbBodyPartSuccess "chest")
     (trace (world_of (AnimationController.playAccessGranted "Alex" kiosk))).
Proof.
  assert (Hk : timely kiosk) by constructor.
  split; [exact Hk|].
  exact (proj1 (C4_success_markers kiosk "Alex" Hk) 3 "chest" eq_refl).
Defined.

(** C4 as stated fails: [mouth] and [ears] are regions of the fixed
    set, attached on the page, and never get the success marker while
    the sequence runs (and [head] does). *)
Lemma C4_counterexample :
  let A := world_of (AnimationController.playAccessGranted "Alex" kiosk) in
  In "mouth" (Object_keys BODY_PART_MAPPING) /\
  In "ears" (Object_keys BODY_PART_MAPPING) /\
  attached kiosk "mouth" = true /\
  attached kiosk "ears" = true /\
  forallb (fun w' => negb (has_class w' "mouth" "scale-in") &&
                     negb (has_class w' "ears" "scale-in")) (A :: states 200 A) = true /\
  existsb (fun w' => has_class w' "head" "scale-in") (states 200 A) = true /\
  timers (List.last (states 200 A) A) = [] /\
  Forall (fun e : Event => snd e <> CbBodyPartSuccess "mouth" /\
                           snd e <> CbBodyPartSuccess "ears") (trace A).
Proof.
  cbv zeta. split; [simpl; tauto|]. split; [simpl; tauto|].
  split; [vm_compute; reflexivity|]. split; [vm_compute; reflexivity|].
  split; [vm_compute; reflexivity|]. split; [vm_compute; reflexivity|].
  split; [vm_compute; reflexivity|].
  apply (bool_decide_unpack _). vm_compute. exact I.
Qed.



Lemma occurs_In e tr : occurs e tr = true -> In e tr.
Proof.
  unfold occurs. rewrite existsb_exists. intros (x & Hx & E).
  apply bool_decide_eq_true in E. subst. exact Hx.
Qed.


(** ** No sequence cancels another *)

Lemma Grows_on_access_status_change data : Grows 22 (on_access_status_change data).
Proof.
  unfold on_access_status_change, animateDoorProgress, playSuccessAnimation,
    playDeniedAnimation, createParticles, playAnimation.
  eapply Grows_mono; [grows_auto | simpl; lia].
Qed.

Lemma Grows_clearAllAnimations : Grows 0 AnimationController.clearAllAnimations.
Proof.
  unfold AnimationController.clearAllAnimations.
  change 0 with (0 + 0). apply Grows_bind; [|intros _; apply Grows_set_isAnimating].
  apply Grows_modify; intros w; try reflexivity.
  split; [simpl; apply dom_fmap_L | split; reflexivity].
Qed.

Lemma grows_keeps n w w' t : grows n w w' -> In t (timers w) -> In t (timers w').
Proof. intros (_ & _ & new & -> & _) H. apply in_or_app. left. exact H. Qed.




(** ** Missing targets *)

Section SafeRules.

Context {A B : Type}.

Lemma Safe_ret (a : A) : Safe (ret a).
Proof. intros w. reflexivity. Qed.

Lemma Safe_read (f : World -> A) : Safe (read f).
Proof. intros w. reflexivity. Qed.

Lemma Safe_bind (m : JS A) (k : A -> JS B) :
  Safe m -> (forall a, Safe (k a)) -> Safe (bind m k).
Proof.
  intros Hm Hk w. unfold bind. specialize (Hm w).
  destruct (m w) as [a w1|w1]; [apply Hk | discriminate].
Qed.

Lemma Safe_if (b : bool) (m1 m2 : JS A) : Safe m1 -> Safe m2 -> Safe (if b then m1 else m2).
Proof. destruct b; auto. Qed.

End SafeRules.

Lemma Safe_modify f : Safe (modify f).
Proof. intros w. reflexivity. Qed.

Lemma Safe_forEach {A} (l : list A) (body : A -> JS unit) :
  (forall x, Safe (body x)) -> Safe (forEach l body).
Proof.
  intros H. induction l as [|x l IH]; simpl; [apply Safe_ret|].
  apply Safe_bind; [apply H | intros _; exact IH].
Qed.

Lemma Safe_getElementById id : Safe (getElementById id).
Proof. apply Safe_read. Qed.

Lemma Safe_alterElement f r : Safe (alterElement f (Some r)).
Proof. intros w. reflexivity. Qed.

Lemma Safe_setTimeout a d : Safe (setTimeout a d).
Proof. intros w. reflexivity. Qed.

Lemma Safe_Math_random : Safe Math_random.
Proof. intros w. reflexivity. Qed.

Lemma Safe_createElement : Safe createElement.
Proof. intros w. reflexivity. Qed.

Lemma Safe_remove_node n : Safe (remove_node n).
Proof. intros w. reflexivity. Qed.

Lemma Safe_whenPresent_Some r (body : string -> JS unit) :
  Safe (body r) -> Safe (whenPresent (Some r) body).
Proof. intros H. exact H. Qed.

Lemma Safe_whenPresent_None (body : string -> JS unit) : Safe (whenPresent None body).
Proof. apply Safe_ret. Qed.

(** Syntax-directed: a guard is opened by cases on the reference it tests. *)
Ltac safe_step :=
  lazymatch goal with
  | |- forall _, _ => intro
  | |- Safe (bind _ _) => apply Safe_bind
  | |- Safe (if _ then _ else _) => apply Safe_if
  | |- Safe (whenPresent ?o _) =>
      destruct o; [apply Safe_whenPresent_Some | apply Safe_whenPresent_None]
  | |- Safe (forEach _ _) => apply Safe_forEach
  | |- Safe (ret _) => apply Safe_ret
  | |- Safe (read _) => apply Safe_read
  | |- Safe (modify _) => apply Safe_modify
  | |- Safe (getElementById _) => apply Safe_getElementById
  | |- Safe (setTimeout _ _) => apply Safe_setTimeout
  | |- Safe Math_random => apply Safe_Math_random
  | |- Safe createElement => apply Safe_createElement
  | |- Safe (remove_node _) => apply Safe_remove_node
  | |- Safe (alterElement _ (Some _)) => apply Safe_alterElement
  end.

Ltac safe_auto :=
  unfold classList_add, classList_remove, set_textContent, set_style, appendChild;
  repeat safe_step.

Lemma Safe_exec a : Safe (exec a).
Proof.
  destruct a; simpl exec;
    unfold AnimationController.bodyPartSuccess, AnimationController.transitionStatusSection,
      AnimationController.fadeIn, AnimationController.showWelcomeMessage,
      AnimationController.createSuccessParticles, AnimationController.spawnParticle,
      AnimationController.animateDoorOpening, AnimationController.doorFill,
      AnimationController.showDenialReason, highlightMissingPPE;
    safe_auto.
Qed.

Lemma Safe_playAccessGranted name : Safe (AnimationController.playAccessGranted name).
Proof.
  unfold AnimationController.playAccessGranted, AnimationController.animateBodyPartsSuccess.
  simpl forEachFrom. safe_auto.
Qed.

Lemma Safe_playAccessDenied reason : Safe (AnimationController.playAccessDenied reason).
Proof.
  unfold AnimationController.playAccessDenied, AnimationController.shakeElement. safe_auto.
Qed.

Lemma attached_false w id : attached w id = false -> document w !! id = None.
Proof. unfold attached. destruct (document w !! id); [discriminate | reflexivity]. Qed.

Lemma forEach_idle {A} (l : list A) (body : A -> JS unit) w :
  (forall x, In x l -> body x w = Ok tt w) -> forEach l body w = Ok tt w.
Proof.
  induction l as [|x l IH]; intros H; simpl; [reflexivity|].
  unfold bind. rewrite (H x) by (left; reflexivity).
  apply IH. intros y Hy. apply H. right. exact Hy.
Qed.

(** A callback whose target is not attached leaves the world as it is. *)
Lemma exec_unattached a w : unattached a w = true -> exec a w = Ok tt w.
Proof.
  destruct a; unfold unattached; try discriminate; intros H; simpl exec.
  - apply negb_true_iff, attached_false in H.
    unfold AnimationController.bodyPartSuccess, bind, getElementById, read. rewrite H. reflexivity.
  - apply negb_true_iff, attached_false in H.
    unfold AnimationController.transitionStatusSection, bind, getElementById, read.
    rewrite H. reflexivity.
  - apply negb_true_iff, attached_false in H.
    unfold AnimationController.showWelcomeMessage, bind, getElementById, read.
    rewrite H. reflexivity.
  - apply negb_true_iff, attached_false in H.
    unfold AnimationController.createSuccessParticles, bind, getElementById, read.
    rewrite H. reflexivity.
  - unfold AnimationController.animateDoorOpening, bind, getElementById, read.
    apply orb_true_iff in H. destruct H as [H|H]; apply negb_true_iff, attached_false in H; rewrite H.
    + reflexivity.
    + destruct (document w !! "door-progress"); reflexivity.
  - unfold bind, read. destruct (bodyVisualization w); [|reflexivity].
    unfold highlightMissingPPE, bind, read.
    apply forEach_idle. intros p Hp.
    rewrite forallb_forall in H. specialize (H p Hp).
    destruct (isRequired (currentRequired w) p && negb (isDetected (currentDetected w) p));
      [|reflexivity].
    cbn [negb orb] in H. apply negb_true_iff, attached_false in H.
    unfold bind, getElementById, read. rewrite H. reflexivity.
  - apply negb_true_iff, attached_false in H.
    unfold AnimationController.showDenialReason, bind, getElementById, read.
    rewrite H. reflexivity.
Qed.

(** C9. A scheduled action of the granted and denied sequences whose
    rendering target is not attached when it fires does nothing: no
    callback ever throws; a callback that misses its target returns the
    world it found; a pending timer whose target is missing fires in
    such a world, the loop goes on from it, and every pending timer
    fires; and the sequences set all their steps whether or not the
    status panel is attached. *)
Theorem C9_missing_target (w : World) (t : Timer) (name reason : string) :
  timely w -> In t (timers w) -> unattached (snd t) w = true ->
  (forall a w', completes (exec a w') = true) /\
  (forall a w', unattached a w' = true -> exec a w' = Ok tt w') /\
  (forall w', completes (AnimationController.playAccessGranted name w') = true /\
              completes (AnimationController.playAccessDenied reason w') = true) /\
  (exists pre w1,
     trace w = pre ++ t :: trace w1 /\ now w1 = fst t /\ exec (snd t) w1 = Ok tt w1) /\
  (forall t', In t' (timers w) -> In t' (trace w)) /\
  (exists shake,
     timers (world_of (AnimationController.playAccessDenied reason w))
     = timers w ++ shake ++
       [ ((now w + 200)%N, CbHighlightMissingPPE);
         ((now w + 400)%N, CbShowDenialReason reason);
         ((now w + 2000)%N, CbEndSequence) ]).
Proof.
  intros Hw Hin Hun.
  split; [intros a w'; apply Safe_exec|].
  split; [intros a w'; apply exec_unattached|].
  split; [intros w'; split; [apply Safe_playAccessGranted | apply Safe_playAccessDenied]|].
  split.
  - destruct (pending_fires_at _ _ Hw Hin) as (pre & w1 & Htr & Hn & Hd & _).
    assert (E : exec (snd t) w1 = Ok tt w1).
    { apply exec_unattached. rewrite (unattached_akin _ w w1 Hd). exact Hun. }
    exists pre, w1. rewrite E in Htr. split; [exact Htr|]. split; [exact Hn | exact E].
  - split; [intros t' Ht'; apply pending_fires; assumption|].
    apply playAccessDenied_timers_tail.
Qed.

Lemma C9_missing_target_witness :
  let w := world_of (AnimationController.playAccessDenied "Helmet missing" bare) in
  timely w /\
  In (400%N, CbShowDenialReason "Helmet missing") (timers w) /\
  unattached (CbShowDenialReason "Helmet missing") w = true /\
  In (2000%N, CbEndSequence) (trace w).
Proof.
  cbv zeta.
  assert (Hw : timely (world_of (AnimationController.playAccessDenied "Helmet missing" bare))).
  { apply (timely_grows 14 bare); [constructor | apply Grows_playAccessDenied]. }
  assert (Hin : In (400%N, CbShowDenialReason "Helmet missing")
                   (timers (world_of (AnimationController.playAccessDenied "Helmet missing" bare)))).
  { right. left. reflexivity. }
  assert (Hun : unattached (CbShowDenialReason "Helmet missing")
                  (world_of (AnimationController.playAccessDenied "Helmet missing" bare)) = true).
  { reflexivity. }
  split; [exact Hw|]. split; [exact Hin|]. split; [exact Hun|].
  apply (proj1 (proj2 (proj2 (proj2 (proj2
    (C9_missing_target _ (400%N, CbShowDenialReason "Helmet missing") "Alex" "Helmet missing"
       Hw Hin Hun)))))).
  right. right. left. reflexivity.
Defined.

(** ** The coverage mapping on the page *)

Lemma set_document_id w : set_document (document w) w = w.
Proof. destruct w; reflexivity. Qed.

Lemma updatePart_repaint d r p w :
  updatePart d r p w = Ok tt (set_document (alter (repaint d r p) p (document w)) w).
Proof.
  unfold updatePart, setPartColor. js_unfold.
  destruct (document w !! p) as [e|] eqn:E.
  - cbn. rewrite !lookup_alter_eq, E. cbn.
    unfold repaint.
    destruct (shouldGlow d r p); [destruct (isDetected d p)|]; cbn;
      rewrite !alter_alter_eq; reflexivity.
  - cbn. rewrite E. rewrite alter_id' by exact E. rewrite set_document_id. reflexivity.
Qed.

Lemma forEach_updatePart d r l w :
  forEach l (updatePart d r) w
  = Ok tt (set_document (foldl (fun doc p => alter (repaint d r p) p doc) (document w) l) w).
Proof.
  revert w. induction l as [|p l IH]; intros w; simpl.
  - rewrite set_document_id. reflexivity.
  - unfold bind. rewrite updatePart_repaint, IH. reflexivity.
Qed.

Lemma updateBodyVisualization_run d r w :
  svgLoaded w = true ->
  updateBodyVisualization d r w
  = Ok tt (set_document (repaintAll d r (document w)) (set_current d r w)).
Proof.
  intros H. unfold updateBodyVisualization, bind, read. rewrite H.
  change (forEach (Object_keys BODY_PART_MAPPING) (updatePart d r) (set_current d r w)
          = Ok tt (set_document (repaintAll d r (document w)) (set_current d r w))).
  rewrite forEach_updatePart. reflexivity.
Qed.

Lemma foldl_alter_other {A} (g : string -> A -> A) l (doc : gmap string A) p :
  ~ In p l -> foldl (fun d x => alter (g x) x d) doc l !! p = doc !! p.
Proof.
  revert doc. induction l as [|x l IH]; intros doc Hp; simpl; [reflexivity|].
  rewrite IH by (intros H; apply Hp; right; exact H).
  apply lookup_alter_ne. intros ->. apply Hp. left. reflexivity.
Qed.

Lemma foldl_alter_at {A} (g : string -> A -> A) l (doc : gmap string A) p :
  List.NoDup l -> In p l -> foldl (fun d x => alter (g x) x d) doc l !! p = g p <$> doc !! p.
Proof.
  revert doc. induction l as [|x l IH]; intros doc Hnd Hp; [destruct Hp|].
  inversion Hnd as [|? ? Hx Hl]; subst. simpl. destruct Hp as [-> | Hp].
  - rewrite foldl_alter_other by exact Hx. apply lookup_alter_eq.
  - rewrite IH by assumption. rewrite lookup_alter_ne; [reflexivity|].
    intros ->. exact (Hx Hp).
Qed.

Lemma keys_NoDup : List.NoDup (Object_keys BODY_PART_MAPPING).
Proof.
  unfold Object_keys; simpl.
  repeat (constructor; [simpl; intros H; repeat (destruct H as [H|H]; [discriminate|]); exact H|]).
  constructor.
Qed.

Lemma repaintAll_at d r doc p :
  In p (Object_keys BODY_PART_MAPPING) ->
  repaintAll d r doc !! p = repaint d r p <$> doc !! p.
Proof. intros H. apply foldl_alter_at; [apply keys_NoDup | exact H]. Qed.

Lemma repaintAll_other d r doc p :
  ~ In p (Object_keys BODY_PART_MAPPING) -> repaintAll d r doc !! p = doc !! p.
Proof. intros H. apply foldl_alter_other. exact H. Qed.

Lemma repaint_recase md mr d r p :
  repaint (recaseAll md d) (recaseAll mr r) p = repaint d r p.
Proof.
  unfold repaint, shouldGlow.
  rewrite partColor_recase, isRequired_recase, isDetected_recase. reflexivity.
Qed.

Lemma repaintAll_recase md mr d r doc :
  repaintAll (recaseAll md d) (recaseAll mr r) doc = repaintAll d r doc.
Proof.
  unfold repaintAll. generalize (Object_keys BODY_PART_MAPPING). intros l. revert doc.
  induction l as [|p l IH]; intros doc; simpl; [reflexivity|].
  rewrite repaint_recase. apply IH.
Qed.

Lemma fold_token_remove_excludes cs l c :
  In c cs -> includes (fold_left (fun l c => token_remove c l) cs l) c = false.
Proof.
  revert l. induction cs as [|x cs IH]; intros l H; [destruct H|].
  simpl. destruct (in_dec string_dec c cs) as [Hin|Hout].
  - apply IH. exact Hin.
  - destruct H as [-> | H]; [|contradiction].
    clear IH. generalize (token_remove c l) (includes_token_remove c l). intros l' Hl'.
    revert l' Hl'. induction cs as [|y cs IH]; intros l' Hl'; simpl; [exact Hl'|].
    apply IH; [intros H; apply Hout; right; exact H|].
    apply not_true_is_false. rewrite includes_In. unfold token_remove. rewrite filter_In.
    intros [H _]. apply includes_In in H. congruence.
Qed.

(** What a region that is not required looks like after the update:
    every shape in grey, and no glow. *)
Lemma repaint_not_required d r p e :
  isRequired r p = false ->
  shapes (repaint d r p e)
  = map (fun s => paint_stroke COLORS.NOT_REQUIRED (paint_fill COLORS.NOT_REQUIRED s)) (shapes e) /\
  includes (classList (repaint d r p e)) "glow-green" = false /\
  includes (classList (repaint d r p e)) "glow-red" = false.
Proof.
  intros H. unfold repaint, shouldGlow, partColor. rewrite H. cbn [negb].
  cbn [shapes classList with_classList with_shapes].
  split; [rewrite map_map; reflexivity|].
  split; apply fold_token_remove_excludes; simpl; tauto.
Qed.

Lemma on_config_update_run data w :
  bodyVisualization w = true -> svgLoaded w = true ->
  let r := default [] (required_classes data) in
  on_config_update data w
  = Ok tt (set_document (repaintAll (detectedClasses w) r (document w))
             (set_current (detectedClasses w) r (set_requiredClasses r w))).
Proof.
  intros Hb Hs r. unfold on_config_update, bind, read, modify. fold r.
  change (bodyVisualization (set_requiredClasses r w)) with (bodyVisualization w).
  rewrite Hb.
  change (updateBodyVisualization (detectedClasses w) r (set_requiredClasses r w)
          = Ok tt (set_document (repaintAll (detectedClasses w) r (document w))
                     (set_current (detectedClasses w) r (set_requiredClasses r w)))).
  rewrite updateBodyVisualization_run by exact Hs. reflexivity.
Qed.

Lemma unrequired_nil partId : unrequired [] partId.
Proof. intros syn req _ []. Qed.

(** C6. A region none of whose class names is among the required
    classes (letter case aside) is mapped to NOT_REQUIRED whatever is
    detected, and the update paints it so: grey shapes, no glow.  With
    an empty required list this is every region, and a config event with
    no required classes repaints every attached region as NOT_REQUIRED at
    once, whatever the detection snapshot held by the handler. *)
Theorem C6_not_required (detected required : list string) (partId : string) :
  unrequired required partId ->
  partColor detected required partId = COLORS.NOT_REQUIRED /\
  shouldGlow detected required partId = false /\
  (forall w e,
     svgLoaded w = true ->
     In partId (Object_keys BODY_PART_MAPPING) ->
     document w !! partId = Some e ->
     exists e',
       document (world_of (updateBodyVisualization detected required w)) !! partId = Some e' /\
       shapes e' = map (fun s => paint_stroke COLORS.NOT_REQUIRED
                                   (paint_fill COLORS.NOT_REQUIRED s)) (shapes e) /\
       includes (classList e') "glow-green" = false /\
       includes (classList e') "glow-red" = false) /\
  (forall p, partColor detected [] p = COLORS.NOT_REQUIRED) /\
  (forall w data,
   bodyVisualization w = true ->
   svgLoaded w = true ->
   default [] (required_classes data) = [] ->
   let w' := world_of (on_config_update data w) in
   completes (on_config_update data w) = true /\
   requiredClasses w' = [] /\ currentRequired w' = [] /\ now w' = now w /\
   forall p e0, In p (Object_keys BODY_PART_MAPPING) -> document w !! p = Some e0 ->
     exists e',
       document w' !! p = Some e' /\
       shapes e' = map (fun s => paint_stroke COLORS.NOT_REQUIRED
                                   (paint_fill COLORS.NOT_REQUIRED s)) (shapes e0) /\
       includes (classList e') "glow-green" = false /\
       includes (classList e') "glow-red" = false).
Proof.
  intros Hun.
  split; [apply partColor_unrequired; exact Hun|].
  split; [unfold shouldGlow; rewrite (isRequired_false _ _ Hun); reflexivity|].
  split.
  { intros w e Hs Hin He.
    rewrite updateBodyVisualization_run by exact Hs. cbn [world_of].
    change (document (set_document ?d _)) with d.
    rewrite repaintAll_at by exact Hin. rewrite He. cbn [fmap option_fmap option_map].
    eexists. split; [reflexivity|].
    apply repaint_not_required. apply isRequired_false. exact Hun. }
  split; [intros p; apply partColor_unrequired, unrequired_nil|].
  intros w data Hb Hs Hd.
  cbv zeta. rewrite on_config_update_run by assumption. rewrite Hd. cbn [world_of completes].
  split; [reflexivity|]. split; [reflexivity|]. split; [reflexivity|]. split; [reflexivity|].
  intros p e0 Hp He0.
  change (document (set_document ?d _)) with d.
  rewrite repaintAll_at by exact Hp. rewrite He0. cbn [fmap option_fmap option_map].
  eexists. split; [reflexivity|].
  apply repaint_not_required. apply isRequired_false, unrequired_nil.
Qed.

Lemma C6_not_required_witness :
  unrequired ["Helmet"; "Gloves"] "feet" /\
  partColor ["shoes"] ["Helmet"; "Gloves"] "feet" = COLORS.NOT_REQUIRED.
Proof.
  assert (Hun : unrequired ["Helmet"; "Gloves"] "feet").
  { intros syn req Hsyn Hreq.
    destruct Hsyn as [<-|[<-|[]]]; destruct Hreq as [<-|[<-|[]]]; discriminate. }
  split; [exact Hun|].
  exact (proj1 (C6_not_required ["shoes"] ["Helmet"; "Gloves"] "feet" Hun)).
Defined.


(** ** The summary *)

Lemma missingList_In detected required cls :
  In cls (missingList (statusSummary detected required)) <->
  (exists req, In req required /\ cls = toLowerCase req) /\
  (forall det, In det detected -> toLowerCase det <> cls).
Proof.
  unfold statusSummary; cbn [missingList]. rewrite filter_In, in_map_iff, negb_true_iff.
  split.
  - intros [(req & E & Hreq) Hn]. split; [exists req; split; [exact Hreq | symmetry; exact E]|].
    intros det Hdet E'. apply not_true_iff_false in Hn. apply Hn.
    apply includes_In. apply in_map_iff. exists det. split; assumption.
  - intros [(req & Hreq & E) Hn]. split; [exists req; split; [symmetry; exact E | exact Hreq]|].
    apply not_true_iff_false. intros H. apply includes_In in H.
    apply in_map_iff in H. destruct H as (det & E' & Hdet). exact (Hn det Hdet E').
Qed.

Lemma includes_lower_ppe detected req :
  includes (map toLowerCase detected) (toLowerCase req) = ppeItemDetected detected req.
Proof.
  unfold includes, ppeItemDetected.
  induction detected as [|d l IH]; simpl; [reflexivity|].
  rewrite IH, (String.eqb_sym (toLowerCase req)). reflexivity.
Qed.

Lemma missingList_ppe detected required :
  missingList (statusSummary detected required)
  = map toLowerCase (List.filter (fun req => negb (ppeItemDetected detected req)) required).
Proof.
  unfold statusSummary; cbn [missingList].
  induction required as [|req l IH]; simpl; [reflexivity|].
  rewrite includes_lower_ppe. destruct (ppeItemDetected detected req); simpl; rewrite IH; reflexivity.
Qed.

Lemma missingRegion_class detected required partId :
  In partId (missingRegions detected required) ->
  exists cls, In cls (partClassesLower partId) /\
              In cls (missingList (statusSummary detected required)).
Proof.
  unfold missingRegions. rewrite filter_In. intros [_ H].
  apply String.eqb_eq in H. unfold partColor in H.
  destruct (isRequired required partId) eqn:Hr; [|discriminate].
  destruct (isDetected detected partId) eqn:Hd; [discriminate|]. clear H.
  unfold isRequired, some_included in Hr. apply existsb_exists in Hr.
  destruct Hr as (cls & Hcls & Hin). exists cls. split; [exact Hcls|].
  unfold statusSummary; cbn [missingList]. apply filter_In.
  split; [apply includes_In; exact Hin|].
  apply negb_true_iff, not_true_iff_false. intros Hdet.
  apply not_true_iff_false in Hd. apply Hd.
  unfold isDetected, some_included. apply existsb_exists. exists cls. split; assumption.
Qed.

(** C2 (amended). The [missingList] of the summary is a list of class
    names, not of regions: the required class names, in lower case and in
    the order of the requirement, that no detected class matches (letter
    case aside) - the classes the equipment list shows as missing.
    Every region the mapping marks REQUIRED_AND_MISSING has one of its
    class names in that list. *)
Theorem C2_missing_list (w : World) :
  let s := getStatusSummary w in
  missingList s
  = map toLowerCase
      (List.filter (fun req => negb (ppeItemDetected (currentDetected w) req)) (currentRequired w)) /\
  (forall cls,
     In cls (missingList s) <->
     (exists req, In req (currentRequired w) /\ cls = toLowerCase req) /\
     (forall det, In det (currentDetected w) -> toLowerCase det <> cls)) /\
  (forall partId,
     In partId (missingRegions (currentDetected w) (currentRequired w)) ->
     exists cls, In cls (partClassesLower partId) /\ In cls (missingList s)).
Proof.
  intros s. split; [apply missingList_ppe|].
  split; [intros cls; apply missingList_In|].
  intros partId. apply missingRegion_class.
Qed.

(** C2 as stated fails: with "Helmet" required and nothing detected the
    summary lists the class [helmet] while the region marked
    REQUIRED_AND_MISSING is [head]; and with "Head" required and
    "Helmet" detected the summary lists [head] although no region is
    marked REQUIRED_AND_MISSING. *)
Lemma C2_counterexample :
  let w1 := world_of (updateBodyVisualization [] ["Helmet"] kiosk) in
  let w2 := world_of (updateBodyVisualization ["Helmet"] ["Head"] kiosk) in
  missingList (getStatusSummary w1) = ["helmet"] /\
  missingRegions (currentDetected w1) (currentRequired w1) = ["head"] /\
  ~ (forall x, In x (missingList (getStatusSummary w1)) <->
               In x (missingRegions (currentDetected w1) (currentRequired w1))) /\
  missingList (getStatusSummary w2) = ["head"] /\
  missingRegions (currentDetected w2) (currentRequired w2) = [].
Proof.
  cbv zeta.
  assert (E1 : missingList (getStatusSummary
                 (world_of (updateBodyVisualization [] ["Helmet"] kiosk))) = ["helmet"])
    by (vm_compute; reflexivity).
  assert (E2 : missingRegions
                 (currentDetected (world_of (updateBodyVisualization [] ["Helmet"] kiosk)))
                 (currentRequired (world_of (updateBodyVisualization [] ["Helmet"] kiosk)))
               = ["head"]) by (vm_compute; reflexivity).
  split; [exact E1|]. split; [exact E2|]. split.
  - rewrite E1, E2. intros H. destruct (proj1 (H "helmet")) as [H1|[]]; [left; reflexivity|].
    discriminate.
  - split; vm_compute; reflexivity.
Qed.

(** C10. The counts of the summary split the required classes: detected
    plus missing is the total (the number of required classes), and
    [allDetected] holds exactly when the missing count is zero, that is,
    when [missingList] is empty. *)
Theorem C10_summary_partition (w : World) :
  let s := getStatusSummary w in
  detected s + missing s = total s /\
  total s = length (currentRequired w) /\
  missing s = length (missingList s) /\
  (allDetected s = true <-> missing s = 0) /\
  (missing s = 0 <-> missingList s = []).
Proof.
  intros s. subst s. unfold getStatusSummary, statusSummary.
  cbn [detected missing total missingList allDetected].
  split; [apply filter_split_length|].
  split; [apply length_map|].
  split; [reflexivity|].
  split; [apply Nat.eqb_eq|].
  split; [apply length_zero_iff_nil | intros ->; reflexivity].
Qed.

(** ** The channel and the page life-cycle *)

Lemma on_connect_run w e :
  document w !! "system-status" = Some e ->
  completes (on_connect w) = true /\
  emitted (world_of (on_connect w)) = emitted w ++ ["start_detection"] /\
  text_of (world_of (on_connect w)) "system-status" = Some "● System Active".
Proof.
  intros H. unfold on_connect. js_unfold. rewrite H. cbn.
  rewrite lookup_alter_eq, H. cbn. unfold text_of. cbn.
  rewrite !lookup_alter_eq, H. repeat split.
Qed.

Lemma on_disconnect_emitted w : emitted (world_of (on_disconnect w)) = emitted w.
Proof.
  unfold on_disconnect. js_unfold.
  destruct (document w !! "system-status") as [e|] eqn:H; cbn; [|reflexivity].
  rewrite lookup_alter_eq, H. reflexivity.
Qed.

(** C3 (amended). The client emits [start_detection] when the channel
    connects (after it has updated the [system-status] indicator, which
    has to be attached) and when the page becomes visible, and
    [stop_detection] when the page is hidden, on [pagehide], on
    [beforeunload] and on [unload]; on disconnect it emits nothing. *)
Theorem C3_lifecycle (w : World) :
  is_Some (document w !! "system-status") ->
  (completes (on_connect w) = true /\
   emitted (world_of (on_connect w)) = emitted w ++ ["start_detection"]) /\
  (hidden w = false ->
   emitted (world_of (on_visibilitychange w)) = emitted w ++ ["start_detection"]) /\
  (hidden w = true ->
   emitted (world_of (on_visibilitychange w)) = emitted w ++ ["stop_detection"]) /\
  emitted (world_of (on_pagehide w)) = emitted w ++ ["stop_detection"] /\
  emitted (world_of (on_beforeunload w)) = emitted w ++ ["stop_detection"] /\
  emitted (world_of (on_unload w)) = emitted w ++ ["stop_detection"] /\
  emitted (world_of (on_disconnect w)) = emitted w.
Proof.
  intros [e He].
  destruct (on_connect_run w e He) as (H1 & H2 & _).
  split; [split; assumption|].
  split; [intros Hh; unfold on_visibilitychange, bind, read; rewrite Hh; reflexivity|].
  split; [intros Hh; unfold on_visibilitychange, bind, read; rewrite Hh; reflexivity|].
  split; [reflexivity|]. split; [reflexivity|]. split; [reflexivity|].
  apply on_disconnect_emitted.
Qed.

Lemma C3_lifecycle_witness :
  is_Some (document kiosk !! "system-status") /\
  emitted (world_of (on_connect kiosk)) = ["request_config"; "start_detection"].
Proof.
  assert (H : is_Some (document kiosk !! "system-status")) by (vm_compute; eauto).
  split; [exact H|].
  exact (proj2 (proj1 (C3_lifecycle kiosk H))).
Defined.

(** C3 as stated fails: on disconnect the handler only updates the
    indicator, no [stop_detection] goes out; and on a page without the
    indicator the connect handler throws before it emits. *)
Lemma C3_counterexample :
  completes (on_disconnect kiosk) = true /\
  text_of (world_of (on_disconnect kiosk)) "system-status" = Some "● Disconnected" /\
  emitted (world_of (on_disconnect kiosk)) = ["request_config"] /\
  ~ In "stop_detection" (emitted (world_of (on_disconnect kiosk))) /\
  completes (on_connect bare) = false /\
  ~ In "start_detection" (emitted (world_of (on_connect bare))).
Proof.
  split; [vm_compute; reflexivity|]. split; [vm_compute; reflexivity|].
  assert (E : emitted (world_of (on_disconnect kiosk)) = ["request_config"])
    by (vm_compute; reflexivity).
  split; [exact E|]. split.
  - rewrite E. intros [H|[]]. discriminate.
  - split; [vm_compute; reflexivity|].
    assert (E' : emitted (world_of (on_connect bare)) = ["request_config"])
      by (vm_compute; reflexivity).
    rewrite E'. intros [H|[]]. discriminate.
Qed.

Ltac lookup_through :=
  repeat (rewrite lookup_alter_eq || rewrite lookup_alter_ne by discriminate).

Lemma alter_step f r (k : unit -> JS unit) w :
  bind (alterElement f (Some r)) k w = k tt (set_document (alter f r (document w)) w).
Proof. reflexivity. Qed.

Lemma modify_step f (k : unit -> JS unit) w : bind (modify f) k w = k tt (f w).
Proof. reflexivity. Qed.

Lemma get_step id (k : option string -> JS unit) w e :
  document w !! id = Some e -> bind (getElementById id) k w = k (Some id) w.
Proof. intros H. unfold bind, getElementById, read. rewrite H. reflexivity. Qed.

Lemma ret_step {A} (a : A) (k : A -> JS unit) w : bind (ret a) k w = k a w.
Proof. reflexivity. Qed.

Lemma deref_step r (k : string -> JS unit) w : bind (deref (Some r)) k w = k r w.
Proof. reflexivity. Qed.

Lemma bind_assoc {A B} (m : JS A) (k : A -> JS B) (k' : B -> JS unit) w :
  bind (bind m k) k' w = bind m (fun a => bind (k a) k') w.
Proof. unfold bind. destruct (m w); reflexivity. Qed.

Lemma document_set_document d w : document (set_document d w) = d.
Proof. reflexivity. Qed.

Lemma set_document_twice d d' w : set_document d (set_document d' w) = set_document d w.
Proof. reflexivity. Qed.

Lemma document_set_timers t w : document (set_timers t w) = document w.
Proof. reflexivity. Qed.

Lemma document_set_currentState s w : document (set_currentState s w) = document w.
Proof. reflexivity. Qed.

Lemma on_access_denied_run w data e1 e2 e3 e4 e5 e6 :
  state data = "ACCESS_DENIED" ->
  document w !! "access-status" = Some e1 ->
  document w !! "status-icon" = Some e2 ->
  document w !! "status-text" = Some e3 ->
  document w !! "status-message" = Some e4 ->
  document w !! "status-user" = Some e5 ->
  document w !! "door-progress" = Some e6 ->
  on_access_status_change data w
  = Ok tt
      (set_timers (timers w ++ [((now w + 500)%N, CbRemoveClass "access-status" "shake-animation")])
         (set_document
            (alter (with_classList (token_add "shake-animation")) "access-status"
               (alter (with_style "display" "none") "door-progress"
                  (deniedUser (person_name data)
                     (alter (with_textContent
                               (or_string (message data) "Access requirements not met"))
                            "status-message"
                        (alter (with_textContent "ACCESS DENIED") "status-text"
                           (alter (with_textContent "❌") "status-icon"
                              (alter (with_classList (token_add "denied")) "access-status"
                                 (alter (with_classList (fun l =>
                                           fold_left (fun l c => token_remove c l)
                                             ["granted"; "denied"; "checking"] l))
                                        "access-status" (document w)))))))))
            (set_currentState "ACCESS_DENIED" w))).
Proof.
  intros Hst H1 H2 H3 H4 H5 H6.
  unfold on_access_status_change. rewrite Hst.
  cbn [String.eqb Ascii.eqb Bool.eqb].
  rewrite modify_step.
  rewrite (get_step "access-status" _ _ e1) by exact H1.
  rewrite (get_step "status-icon" _ _ e2) by exact H2.
  rewrite (get_step "status-text" _ _ e3) by exact H3.
  rewrite (get_step "status-message" _ _ e4) by exact H4.
  rewrite (get_step "status-user" _ _ e5) by exact H5.
  rewrite (get_step "door-progress" _ _ e6) by exact H6.
  unfold classList_remove, classList_add, set_textContent, set_style.
  rewrite !alter_step, !set_document_twice, !document_set_document, document_set_currentState.
  unfold deniedUser, playAnimation, playDeniedAnimation.
  destruct (truthy (person_name data)).
  - rewrite bind_assoc, !alter_step, !set_document_twice, !document_set_document.
    rewrite ret_step.
    erewrite get_step
      by (rewrite document_set_document; lookup_through; rewrite H1; reflexivity).
    unfold classList_add. rewrite alter_step, set_document_twice, document_set_document.
    rewrite deref_step. reflexivity.
  - rewrite !alter_step, !set_document_twice, !document_set_document.
    rewrite ret_step.
    erewrite get_step
      by (rewrite document_set_document; lookup_through; rewrite H1; reflexivity).
    unfold classList_add. rewrite alter_step, set_document_twice, document_set_document.
    rewrite deref_step. reflexivity.
Qed.

(** C8 (amended). On an ACCESS_DENIED event, with the six elements of
    the status panel attached, the handler completes without an error:
    the message slot shows the event's message, or "Access requirements
    not met" when the message is absent (or empty); the person-name slot
    shows the person name when it is present and not empty, and is
    hidden when it is absent or empty; the progress indicator is hidden. *)
Theorem C8_access_denied (w : World) (data : AccessStatus) :
  state data = "ACCESS_DENIED" ->
  is_Some (document w !! "access-status") ->
  is_Some (document w !! "status-icon") ->
  is_Some (document w !! "status-text") ->
  is_Some (document w !! "status-message") ->
  is_Some (document w !! "status-user") ->
  is_Some (document w !! "door-progress") ->
  let w' := world_of (on_access_status_change data w) in
  completes (on_access_status_change data w) = true /\
  currentState w' = "ACCESS_DENIED" /\
  text_of w' "status-text" = Some "ACCESS DENIED" /\
  text_of w' "status-message"
  = Some (or_string (message data) "Access requirements not met") /\
  (message data = None -> text_of w' "status-message" = Some "Access requirements not met") /\
  (forall n, person_name data = Some n -> n <> "" ->
     text_of w' "status-user" = Some n /\
     style_of w' "status-user" "display" = Some "block") /\
  (person_name data = None \/ person_name data = Some "" ->
     style_of w' "status-user" "display" = Some "none") /\
  style_of w' "door-progress" "display" = Some "none" /\
  has_class w' "access-status" "denied" = true.
Proof.
  intros Hst [e1 H1] [e2 H2] [e3 H3] [e4 H4] [e5 H5] [e6 H6].
  cbv zeta. rewrite (on_access_denied_run w data e1 e2 e3 e4 e5 e6) by assumption.
  cbn [world_of completes]. unfold text_of, style_of, has_class.
  rewrite !document_set_timers, !document_set_document.
  split; [reflexivity|]. split; [reflexivity|].
  assert (Huser : forall (d : gmap string Element) id,
            id <> "status-user" -> deniedUser (person_name data) d !! id = d !! id).
  { intros d id Hne. unfold deniedUser. destruct (truthy (person_name data));
      rewrite !lookup_alter_ne by congruence; reflexivity. }
  split.
  { lookup_through. rewrite Huser by discriminate. lookup_through. rewrite H3. reflexivity. }
  assert (Hmsg : textContent <$>
            alter (with_classList (token_add "shake-animation")) "access-status"
              (alter (with_style "display" "none") "door-progress"
                 (deniedUser (person_name data)
                    (alter (with_textContent
                              (or_string (message data) "Access requirements not met"))
                           "status-message"
                       (alter (with_textContent "ACCESS DENIED") "status-text"
                          (alter (with_textContent "❌") "status-icon"
                             (alter (with_classList (token_add "denied")) "access-status"
                                (alter (with_classList (fun l =>
                                          fold_left (fun l c => token_remove c l)
                                            ["granted"; "denied"; "checking"] l))
                                       "access-status" (document w))))))))
            !! "status-message"
          = Some (or_string (message data) "Access requirements not met")).
  { lookup_through. rewrite Huser by discriminate. lookup_through. rewrite H4. reflexivity. }
  split; [exact Hmsg|].
  split; [intros Hnone; rewrite Hmsg, Hnone; reflexivity|].
  split.
  { intros n Hn Hne. unfold deniedUser. rewrite Hn.
    assert (Ht : truthy (Some n) = true) by (destruct n; [congruence | reflexivity]).
    rewrite Ht. lookup_through. rewrite H5. cbn.
    split; [reflexivity | apply lookup_insert_eq]. }
  split.
  { intros Hn. unfold deniedUser.
    assert (Ht : truthy (person_name data) = false) by (destruct Hn as [-> | ->]; reflexivity).
    rewrite Ht. lookup_through. rewrite H5. cbn. apply lookup_insert_eq. }
  split.
  { lookup_through. rewrite Huser by discriminate. lookup_through. rewrite H6. cbn.
    apply lookup_insert_eq. }
  lookup_through. rewrite Huser by discriminate. lookup_through. rewrite H1. cbn.
  unfold token_add at 1.
  destruct (includes _ "shake-animation") eqn:E.
  - apply includes_token_add.
  - apply includes_In. apply in_or_app. left. apply includes_In. apply includes_token_add.
Qed.

Lemma C8_access_denied_witness :
  let data := mkAccessStatus "ACCESS_DENIED" (Some "Alex") None None in
  state data = "ACCESS_DENIED" /\
  is_Some (document kiosk !! "access-status") /\
  is_Some (document kiosk !! "status-icon") /\
  is_Some (document kiosk !! "status-text") /\
  is_Some (document kiosk !! "status-message") /\
  is_Some (document kiosk !! "status-user") /\
  is_Some (document kiosk !! "door-progress") /\
  text_of (world_of (on_access_status_change data kiosk)) "status-message"
  = Some "Access requirements not met".
Proof.
  cbv zeta.
  assert (H1 : is_Some (document kiosk !! "access-status")) by (vm_compute; eauto).
  assert (H2 : is_Some (document kiosk !! "status-icon")) by (vm_compute; eauto).
  assert (H3 : is_Some (document kiosk !! "status-text")) by (vm_compute; eauto).
  assert (H4 : is_Some (document kiosk !! "status-message")) by (vm_compute; eauto).
  assert (H5 : is_Some (document kiosk !! "status-user")) by (vm_compute; eauto).
  assert (H6 : is_Some (document kiosk !! "door-progress")) by (vm_compute; eauto).
  split; [reflexivity|].
  split; [exact H1|]. split; [exact H2|]. split; [exact H3|]. split; [exact H4|].
  split; [exact H5|]. split; [exact H6|].
  exact (proj1 (proj2 (proj2 (proj2 (proj2
    (C8_access_denied kiosk (mkAccessStatus "ACCESS_DENIED" (Some "Alex") None None)
       eq_refl H1 H2 H3 H4 H5 H6))))) eq_refl).
Defined.

(** C8 as stated fails on the person name: an event that carries an
    empty person name has the field present, and the handler hides the
    slot instead of showing it. *)
Lemma C8_counterexample :
  let data := mkAccessStatus "ACCESS_DENIED" (Some "") (Some "No helmet") None in
  let w' := world_of (on_access_status_change data kiosk) in
  person_name data = Some "" /\
  completes (on_access_status_change data kiosk) = true /\
  style_of w' "status-user" "display" = Some "none" /\
  style_of w' "status-user" "display" <> Some "block" /\
  text_of w' "status-message" = Some "No helmet".
Proof.
  cbv zeta. split; [reflexivity|]. split; [vm_compute; reflexivity|].
  assert (E : style_of (world_of (on_access_status_change
                 (mkAccessStatus "ACCESS_DENIED" (Some "") (Some "No helmet") None) kiosk))
                "status-user" "display" = Some "none") by (vm_compute; reflexivity).
  split; [exact E|]. split; [rewrite E; discriminate|].
  vm_compute. reflexivity.
Qed.


Lemma C2_missing_list_witness :
  let w := world_of (updateBodyVisualization [] ["Helmet"] kiosk) in
  In "head" (missingRegions (currentDetected w) (currentRequired w)) /\
  exists cls, In cls (partClassesLower "head") /\ In cls (missingList (getStatusSummary w)).
Proof.
  cbv zeta.
  assert (H : In "head" (missingRegions
                (currentDetected (world_of (updateBodyVisualization [] ["Helmet"] kiosk)))
                (currentRequired (world_of (updateBodyVisualization [] ["Helmet"] kiosk))))).
  { vm_compute. left. reflexivity. }
  split; [exact H|].
  exact (proj2 (proj2 (C2_missing_list
                         (world_of (updateBodyVisualization [] ["Helmet"] kiosk)))) "head" H).
Defined.

(** * Further properties *)

(** ** Rules for relations kept along a computation *)

Section StepsRules.

Variable R : World -> World -> Prop.
Hypothesis R_refl : forall w, R w w.
Hypothesis R_trans : forall a b c, R a b -> R b c -> R a c.

Lemma Steps_ret {A} (a : A) : Steps R (ret a).
Proof. intros w. apply R_refl. Qed.

Lemma Steps_throw {A} : Steps R (@throw A).
Proof. intros w. apply R_refl. Qed.

Lemma Steps_read {A} (f : World -> A) : Steps R (read f).
Proof. intros w. apply R_refl. Qed.

Lemma Steps_getElementById id : Steps R (getElementById id).
Proof. apply Steps_read. Qed.

Lemma Steps_deref o : Steps R (deref o).
Proof. destruct o; [apply Steps_ret | apply Steps_throw]. Qed.

Lemma Steps_bind {A B} (m : JS A) (k : A -> JS B) :
  Steps R m -> (forall a, Steps R (k a)) -> Steps R (bind m k).
Proof.
  intros Hm Hk w. unfold bind. specialize (Hm w).
  destruct (m w) as [a w1|w1]; simpl in Hm; [|exact Hm].
  eapply R_trans; [exact Hm | apply Hk].
Qed.

Lemma Steps_if {A} (b : bool) (m1 m2 : JS A) :
  Steps R m1 -> Steps R m2 -> Steps R (if b then m1 else m2).
Proof. destruct b; auto. Qed.

Lemma Steps_whenPresent_Some r (body : string -> JS unit) :
  Steps R (body r) -> Steps R (whenPresent (Some r) body).
Proof. intros H. exact H. Qed.

Lemma Steps_whenPresent_None (body : string -> JS unit) : Steps R (whenPresent None body).
Proof. apply Steps_ret. Qed.

Lemma Steps_forEach {A} (l : list A) (body : A -> JS unit) :
  (forall x, Steps R (body x)) -> Steps R (forEach l body).
Proof.
  intros H. induction l as [|x l IH]; simpl; [apply Steps_ret|].
  apply Steps_bind; [apply H | intros _; exact IH].
Qed.

Lemma Steps_forEachFrom {A} i (l : list A) (body : A -> nat -> JS unit) :
  (forall x j, Steps R (body x j)) -> Steps R (forEachFrom i l body).
Proof.
  intros H. revert i. induction l as [|x l IH]; intros i; simpl; [apply Steps_ret|].
  apply Steps_bind; [apply H | intros _; apply IH].
Qed.

End StepsRules.

(** ** Passing effects clean up after themselves *)

Lemma covers_class_app ts new id cls :
  covers_class ts id cls -> covers_class (ts ++ new) id cls.
Proof.
  intros [[d H]|[E [d H]]]; [left | right; split; [exact E|]];
    exists d; apply in_or_app; left; exact H.
Qed.

Lemma covers_node_app ts new n : covers_node ts n -> covers_node (ts ++ new) n.
Proof. intros [d H]. exists d. apply in_or_app. left. exact H. Qed.

Lemma settles_refl w : settles w w.
Proof.
  split; [exists []; rewrite app_nil_r; reflexivity|].
  split; intros; left; assumption.
Qed.

Lemma settles_trans a b c : settles a b -> settles b c -> settles a c.
Proof.
  intros ([n1 T1] & C1 & K1) ([n2 T2] & C2 & K2).
  split; [exists (n1 ++ n2); rewrite T2, T1, app_assoc; reflexivity|].
  split.
  - intros id cls Ht H. destruct (C2 id cls Ht H) as [Hb|Hc]; [|right; exact Hc].
    destruct (C1 id cls Ht Hb) as [Ha|Hc]; [left; exact Ha|].
    right. rewrite T2. apply covers_class_app. exact Hc.
  - intros id p H. destruct (K2 id p H) as [Hb|Hc]; [|right; exact Hc].
    destruct (K1 id p Hb) as [Ha|Hc]; [left; exact Ha|].
    right. rewrite T2. apply covers_node_app. exact Hc.
Qed.

(** The class list and the particles of an element after one change. *)
Lemma has_class_alter f r w id cls :
  has_class (set_document (alter f r (document w)) w) id cls
  = match document w !! id with
    | Some e => includes (classList (if decide (r = id) then f e else e)) cls
    | None => false
    end.
Proof.
  unfold has_class. change (document (set_document ?d _)) with d.
  rewrite lookup_alter. destruct (decide (r = id)) as [->|Hne].
  - destruct (document w !! id); reflexivity.
  - destruct (document w !! id); reflexivity.
Qed.

Lemma has_kid_alter f r w id p :
  has_kid (set_document (alter f r (document w)) w) id p <->
  exists e, document w !! id = Some e /\ In p (kids (if decide (r = id) then f e else e)).
Proof.
  unfold has_kid. change (document (set_document ?d _)) with d.
  rewrite lookup_alter. destruct (decide (r = id)) as [->|Hne].
  - destruct (document w !! id) as [e|]; simpl; split.
    + intros (e' & [= <-] & H). eauto.
    + intros (e' & [= <-] & H). eauto.
    + intros (e' & [=] & _).
    + intros (e' & [=] & _).
  - reflexivity.
Qed.

(** A change that leaves classes and particles alone. *)
Lemma settles_alter_plain f o :
  (forall e, classList (f e) = classList e) ->
  (forall e, kids (f e) = kids e) ->
  Steps settles (alterElement f o).
Proof.
  intros Hc Hk w. destruct o as [r|]; [|apply settles_refl].
  change (world_of (alterElement f (Some r) w))
    with (set_document (alter f r (document w)) w).
  split; [exists []; rewrite app_nil_r; reflexivity|]. split.
  - intros id cls _ H. left. rewrite has_class_alter in H. unfold has_class.
    destruct (document w !! id) as [e|]; [|discriminate].
    destruct (decide (r = id)); [rewrite Hc in H|]; exact H.
  - intros id p H. left. apply has_kid_alter in H. destruct H as (e & He & H).
    exists e. split; [exact He|]. destruct (decide (r = id)); [rewrite Hk in H|]; exact H.
Qed.

Lemma settles_set_textContent o s : Steps settles (set_textContent o s).
Proof. apply settles_alter_plain; reflexivity. Qed.

Lemma settles_set_style o p v : Steps settles (set_style o p v).
Proof. apply settles_alter_plain; reflexivity. Qed.

Lemma includes_token_remove_inv c x l : includes (token_remove c l) x = true -> includes l x = true.
Proof.
  rewrite !includes_In. unfold token_remove. rewrite filter_In. tauto.
Qed.

Lemma includes_fold_remove_inv cs x l :
  includes (fold_left (fun l c => token_remove c l) cs l) x = true -> includes l x = true.
Proof.
  revert l. induction cs as [|c cs IH]; intros l H; [exact H|].
  simpl in H. apply IH in H. eapply includes_token_remove_inv. exact H.
Qed.

Lemma settles_classList_remove o cs : Steps settles (classList_remove o cs).
Proof.
  intros w. destruct o as [r|]; [|apply settles_refl].
  change (world_of (classList_remove (Some r) cs w))
    with (set_document
            (alter (with_classList (fun l => fold_left (fun l c => token_remove c l) cs l)) r
               (document w)) w).
  split; [exists []; rewrite app_nil_r; reflexivity|]. split.
  - intros id cls _ H. left. rewrite has_class_alter in H. unfold has_class.
    destruct (document w !! id) as [e|]; [|discriminate].
    destruct (decide (r = id)); [|exact H].
    cbn [classList with_classList] in H. eapply includes_fold_remove_inv. exact H.
  - intros id p H. left. apply has_kid_alter in H. destruct H as (e & He & H).
    exists e. split; [exact He|]. destruct (decide (r = id)); exact H.
Qed.

Lemma includes_token_add_inv c x l :
  includes (token_add c l) x = true -> x = c \/ includes l x = true.
Proof.
  unfold token_add. destruct (includes l c) eqn:E; [right; assumption|].
  rewrite !includes_In. intros H. apply in_app_or in H.
  destruct H as [H|[<-|[]]]; [right; exact H | left; reflexivity].
Qed.

(** A class outside the passing ones may be added without a timer. *)
Lemma settles_classList_add_other o c :
  ~ In c transient -> Steps settles (classList_add o c).
Proof.
  intros Hc w. destruct o as [r|]; [|apply settles_refl].
  change (world_of (classList_add (Some r) c w))
    with (set_document (alter (with_classList (token_add c)) r (document w)) w).
  split; [exists []; rewrite app_nil_r; reflexivity|]. split.
  - intros id cls Ht H. left. rewrite has_class_alter in H. unfold has_class.
    destruct (document w !! id) as [e|]; [|discriminate].
    destruct (decide (r = id)); [|exact H].
    cbn [classList with_classList] in H.
    destruct (includes_token_add_inv _ _ _ H) as [->|H']; [contradiction | exact H'].
  - intros id p H. left. apply has_kid_alter in H. destruct H as (e & He & H).
    exists e. split; [exact He|]. destruct (decide (r = id)); exact H.
Qed.

(** A timer set: nothing on the page changes. *)
Lemma settles_setTimeout a d : Steps settles (setTimeout a d).
Proof.
  intros w. split; [eexists; reflexivity|]. split; intros; left; assumption.
Qed.

(** The class goes on and the timer that takes it off is set. *)
Lemma settles_add_then_remove r c d :
  Steps settles (classList_add (Some r) c ;; setTimeout (CbRemoveClass r c) d).
Proof.
  intros w.
  change (world_of ((classList_add (Some r) c ;; setTimeout (CbRemoveClass r c) d) w))
    with (set_timers (timers w ++ [((now w + d)%N, CbRemoveClass r c)])
            (set_document (alter (with_classList (token_add c)) r (document w)) w)).
  split; [eexists; reflexivity|]. split.
  - intros id cls _ H. change (has_class (set_timers ?t ?x) id cls) with (has_class x id cls) in H.
    rewrite has_class_alter in H. unfold has_class.
    destruct (document w !! id) as [e|]; [|discriminate].
    destruct (decide (r = id)) as [<-|]; [|left; exact H].
    cbn [classList with_classList] in H.
    destruct (includes_token_add_inv _ _ _ H) as [->|H']; [|left; exact H'].
    right. left. eexists. cbn [timers set_timers]. apply in_or_app. right. left. reflexivity.
  - intros id p H. left.
    change (has_kid (set_timers ?t ?x) id p) with (has_kid x id p) in H.
    apply has_kid_alter in H. destruct H as (e & He & H).
    exists e. split; [exact He|]. destruct (decide (r = id)); exact H.
Qed.

Lemma settles_fade_out r d :
  Steps settles (classList_add (Some r) "fade-out" ;; setTimeout (CbFadeIn r) d).
Proof.
  intros w.
  change (world_of ((classList_add (Some r) "fade-out" ;; setTimeout (CbFadeIn r) d) w))
    with (set_timers (timers w ++ [((now w + d)%N, CbFadeIn r)])
            (set_document (alter (with_classList (token_add "fade-out")) r (document w)) w)).
  split; [eexists; reflexivity|]. split.
  - intros id cls _ H. change (has_class (set_timers ?t ?x) id cls) with (has_class x id cls) in H.
    rewrite has_class_alter in H. unfold has_class.
    destruct (document w !! id) as [e|]; [|discriminate].
    destruct (decide (r = id)) as [<-|]; [|left; exact H].
    cbn [classList with_classList] in H.
    destruct (includes_token_add_inv _ _ _ H) as [->|H']; [|left; exact H'].
    right. right. split; [reflexivity|]. eexists. cbn [timers set_timers].
    apply in_or_app. right. left. reflexivity.
  - intros id p H. left.
    change (has_kid (set_timers ?t ?x) id p) with (has_kid x id p) in H.
    apply has_kid_alter in H. destruct H as (e & He & H).
    exists e. split; [exact He|]. destruct (decide (r = id)); exact H.
Qed.

(** The particle goes in and the timer that removes it is set. *)
Lemma settles_append_then_remove c P n d :
  node P = n ->
  Steps settles (appendChild (Some c) P ;; setTimeout (CbRemoveParticle n) d).
Proof.
  intros Hn w.
  change (world_of ((appendChild (Some c) P ;; setTimeout (CbRemoveParticle n) d) w))
    with (set_timers (timers w ++ [((now w + d)%N, CbRemoveParticle n)])
            (set_document (alter (with_kids (fun l => l ++ [P])) c (document w)) w)).
  split; [eexists; reflexivity|]. split.
  - intros id cls _ H. left.
    change (has_class (set_timers ?t ?x) id cls) with (has_class x id cls) in H.
    rewrite has_class_alter in H. unfold has_class.
    destruct (document w !! id) as [e|]; [|discriminate].
    destruct (decide (c = id)); exact H.
  - intros id p H.
    change (has_kid (set_timers ?t ?x) id p) with (has_kid x id p) in H.
    apply has_kid_alter in H. destruct H as (e & He & H).
    destruct (decide (c = id)) as [<-|]; [|left; exists e; split; assumption].
    cbn [kids with_kids] in H. apply in_app_or in H. destruct H as [H|[<-|[]]].
    + left. exists e. split; assumption.
    + right. exists (now w + d)%N. rewrite Hn. cbn [timers set_timers].
      apply in_or_app. right. left. reflexivity.
Qed.

Lemma settles_remove_node n : Steps settles (remove_node n).
Proof.
  intros w. split; [exists []; rewrite app_nil_r; reflexivity|]. split.
  - intros id cls _ H. left. unfold has_class in *. cbn in H.
    rewrite lookup_fmap in H. destruct (document w !! id); exact H.
  - intros id p (e' & He' & H). left. cbn in He'. rewrite lookup_fmap in He'.
    destruct (document w !! id) as [e|] eqn:E; [|discriminate].
    injection He' as <-. exists e. split; [exact E|].
    cbn [kids with_kids] in H. apply filter_In in H. tauto.
Qed.

(** A write outside the document and the timers. *)
Lemma settles_modify f :
  (forall w, document (f w) = document w) ->
  (forall w, timers (f w) = timers w) ->
  Steps settles (modify f).
Proof.
  intros Hd Ht w. cbn [world_of modify].
  split; [exists []; rewrite app_nil_r; apply Ht|]. split.
  - intros id cls _ H. left. unfold has_class in *. rewrite Hd in H. exact H.
  - intros id p (e & He & H). left. rewrite Hd in He. exists e. split; assumption.
Qed.

Lemma settles_Math_random : Steps settles Math_random.
Proof.
  intros w. apply (settles_modify (fun w => set_drawn (S (drawn w)) w)); reflexivity.
Qed.

Lemma settles_createElement : Steps settles createElement.
Proof.
  intros w. apply (settles_modify (fun w => set_nextNode (S (nextNode w)) w)); reflexivity.
Qed.

Ltac settles_step :=
  lazymatch goal with
  | |- forall _, _ => intro
  | |- Steps settles (classList_add (Some ?r) ?c ;; setTimeout (CbRemoveClass ?r ?c) _) =>
      apply settles_add_then_remove
  | |- Steps settles (classList_add (Some ?r) "fade-out" ;; setTimeout (CbFadeIn ?r) _) =>
      apply settles_fade_out
  | |- Steps settles (appendChild (Some _) _ ;; setTimeout (CbRemoveParticle _) _) =>
      apply settles_append_then_remove; reflexivity
  | |- Steps settles (bind _ _) => apply (Steps_bind settles settles_trans)
  | |- Steps settles (if _ then _ else _) => apply Steps_if
  | |- Steps settles (whenPresent ?o _) =>
      destruct o; [apply Steps_whenPresent_Some
                  | apply (Steps_whenPresent_None settles settles_refl)]
  | |- Steps settles (forEach _ _) => apply (Steps_forEach settles settles_refl settles_trans)
  | |- Steps settles (forEachFrom _ _ _) =>
      apply (Steps_forEachFrom settles settles_refl settles_trans)
  | |- Steps settles (ret _) => apply (Steps_ret settles settles_refl)
  | |- Steps settles (read _) => apply (Steps_read settles settles_refl)
  | |- Steps settles (getElementById _) => apply (Steps_getElementById settles settles_refl)
  | |- Steps settles (setTimeout _ _) => apply settles_setTimeout
  | |- Steps settles (set_style _ _ _) => apply settles_set_style
  | |- Steps settles (set_textContent _ _) => apply settles_set_textContent
  | |- Steps settles (classList_remove _ _) => apply settles_classList_remove
  | |- Steps settles Math_random => apply settles_Math_random
  | |- Steps settles createElement => apply settles_createElement
  | |- Steps settles (remove_node _) => apply settles_remove_node
  | |- Steps settles (modify (set_isAnimating _)) => apply settles_modify; reflexivity
  end.

Ltac settles_auto := repeat settles_step.

Lemma settles_highlightMissingPPE : Steps settles highlightMissingPPE.
Proof. unfold highlightMissingPPE. settles_auto. Qed.

Lemma settles_exec a : Steps settles (exec a).
Proof.
  destruct a; simpl exec;
    unfold AnimationController.bodyPartSuccess, AnimationController.transitionStatusSection,
      AnimationController.fadeIn, AnimationController.showWelcomeMessage,
      AnimationController.createSuccessParticles, AnimationController.spawnParticle,
      AnimationController.animateDoorOpening, AnimationController.doorFill,
      AnimationController.showDenialReason;
    settles_auto.
  apply settles_highlightMissingPPE.
Qed.

Lemma exec_removeClass_off el cls w :
  has_class (world_of (exec (CbRemoveClass el cls) w)) el cls = false.
Proof. destruct (exec_removeClass el cls w) as (_ & H & _). exact H. Qed.

Lemma exec_fadeIn_off s w : has_class (world_of (exec (CbFadeIn s) w)) s "fade-out" = false.
Proof.
  change (world_of (exec (CbFadeIn s) w))
    with (set_timers (timers w ++ [((now w + 500)%N, CbRemoveClass s "fade-in")])
            (set_document
               (alter (with_classList (token_add "fade-in")) s
                  (alter (with_classList (fun l => token_remove "fade-out" l)) s (document w)))
               w)).
  unfold has_class. change (document (set_timers _ (set_document ?d _))) with d.
  rewrite !lookup_alter_eq. destruct (document w !! s) as [e|]; [|reflexivity].
  cbn [fmap option_fmap option_map classList with_classList].
  apply not_true_is_false. intros H.
  destruct (includes_token_add_inv _ _ _ H) as [E|H']; [discriminate|].
  rewrite includes_token_remove in H'. discriminate.
Qed.

Lemma exec_removeParticle_off n w id p :
  has_kid (world_of (exec (CbRemoveParticle n) w)) id p -> node p <> n.
Proof.
  intros (e' & He' & H). cbn in He'. rewrite lookup_fmap in He'.
  destruct (document w !! id) as [e|]; [|discriminate]. injection He' as <-.
  cbn [kids with_kids] in H. apply filter_In in H. destruct H as [_ H].
  apply negb_true_iff, Nat.eqb_neq in H. exact H.
Qed.

Lemma kept_settles C K w w' : kept C K w -> settles w w' -> kept C K w'.
Proof.
  intros [Tc Tk] ([new Ht] & Cl & Kd). split.
  - intros id cls Hc H. destruct (Cl id cls Hc H) as [Hw|Hcov]; [|right; exact Hcov].
    destruct (Tc id cls Hc Hw) as [HC|Hcov]; [left; exact HC|].
    right. rewrite Ht. apply covers_class_app. exact Hcov.
  - intros id p H. destruct (Kd id p H) as [Hw|Hcov]; [|right; exact Hcov].
    destruct (Tk id p Hw) as [HK|Hcov]; [left; exact HK|].
    right. rewrite Ht. apply covers_node_app. exact Hcov.
Qed.

Lemma leftover_settles w w' : settles w w' -> leftover w w'.
Proof.
  intros (_ & Cl & Kd). split.
  - intros id cls Hc H. exact (Cl id cls Hc H).
  - intros id p H. exact (Kd id p H).
Qed.

(** One turn of the loop keeps the invariant: the timer that runs takes
    off what it covered. *)
Lemma kept_fire C K w e w' : timely w -> kept C K w -> fire w = Some (e, w') -> kept C K w'.
Proof.
  intros Hw [Tc Tk] Hf.
  destruct (fire_Some _ _ _ Hw Hf) as (rest & w1 & Hp & Hw1 & Hw' & _ & _ & _).
  pose proof (settles_exec (snd e) w1) as ([new Ht] & Cl & Kd). rewrite <- Hw' in Ht, Cl, Kd.
  assert (Hrest : timers w1 = rest) by (subst w1; reflexivity).
  assert (Hin : forall u, In u (timers w) -> u = e \/ In u (timers w')).
  { intros u Hu. apply list_elem_of_In in Hu. rewrite Hp in Hu. apply list_elem_of_In in Hu.
    destruct Hu as [<-|Hu]; [left; reflexivity|].
    right. rewrite Ht, Hrest. apply in_or_app. left. exact Hu. }
  split.
  - intros id cls Hc H. destruct (Cl id cls Hc H) as [H1|Hcov]; [|right; exact Hcov].
    assert (H0 : has_class w id cls = true) by (subst w1; exact H1).
    destruct (Tc id cls Hc H0) as [HC|[[d Hd]|[E [d Hd]]]]; [left; exact HC| |].
    + destruct (Hin _ Hd) as [<-|Hd']; [|right; left; exists d; exact Hd'].
      rewrite Hw' in H. cbn [snd] in H. rewrite exec_removeClass_off in H. discriminate.
    + destruct (Hin _ Hd) as [<-|Hd']; [|right; right; split; [exact E | exists d; exact Hd']].
      rewrite Hw', E in H. cbn [snd] in H. rewrite exec_fadeIn_off in H. discriminate.
  - intros id p H. destruct (Kd id p H) as [H1|Hcov]; [|right; exact Hcov].
    assert (H0 : has_kid w id p) by (subst w1; exact H1).
    destruct (Tk id p H0) as [HK|[d Hd]]; [left; exact HK|].
    destruct (Hin _ Hd) as [<-|Hd']; [|right; exists d; exact Hd'].
    rewrite Hw' in H. cbn [snd] in H. apply exec_removeParticle_off in H. congruence.
Qed.

Lemma kept_drain C K w : timely w -> kept C K w -> kept C K (snd (drain w)).
Proof.
  remember (budget (timers w)) as k eqn:Ek. revert w Ek.
  induction k as [k IH] using lt_wf_ind. intros w Ek Hw Ht.
  destruct (fire w) as [[e w']|] eqn:Hf.
  - destruct (drain_step _ _ _ Hw Hf) as [_ ->].
    apply (IH (budget (timers w'))); [subst k; exact (fire_budget _ _ _ Hw Hf) | reflexivity
      | exact (fire_timely _ _ _ Hw Hf) | exact (kept_fire _ _ _ _ _ Hw Ht Hf)].
  - apply fire_None in Hf. destruct (drain_idle _ Hf) as [_ ->]. exact Ht.
Qed.

(** When the loop has run dry, what is left is what was excused. *)
Lemma drained_kept C K w :
  timely w -> kept C K w ->
  let w' := snd (drain w) in
  timers w' = [] /\
  (forall id cls, In cls transient -> has_class w' id cls = true -> C id cls) /\
  (forall id p, has_kid w' id p -> K id p).
Proof.
  intros Hw Ht w'. pose proof (drain_done w Hw) as Hd. fold w' in Hd.
  destruct (kept_drain C K w Hw Ht) as [Tc Tk]. fold w' in Tc, Tk. rewrite Hd in Tc, Tk.
  split; [exact Hd|]. split.
  - intros id cls Hc H. destruct (Tc id cls Hc H) as [HC|[[d []]|[_ [d []]]]]. exact HC.
  - intros id p H. destruct (Tk id p H) as [HK|[d []]]. exact HK.
Qed.

Lemma clean_page_tidy w : clean_page w = true -> tidy w.
Proof.
  unfold clean_page. intros H. apply bool_decide_eq_true in H. split.
  - intros id cls Hc Hh. exfalso. unfold has_class in Hh.
    destruct (document w !! id) as [e|] eqn:E; [|discriminate].
    destruct (H id e E) as [Hf _]. rewrite forallb_forall in Hf.
    specialize (Hf cls Hc). rewrite Hh in Hf. discriminate.
  - intros id p (e & E & Hp). exfalso. destruct (H id e E) as [_ Hk].
    rewrite Hk in Hp. destruct Hp.
Qed.

(** What a computation that settles leaves once the loop has run dry. *)
Lemma settled_after {A} (m : JS A) n w :
  Grows n m -> Steps settles m -> timely w ->
  let w' := snd (drain (world_of (m w))) in
  timers w' = [] /\
  (forall id cls, In cls transient -> has_class w' id cls = true -> has_class w id cls = true) /\
  (forall id p, has_kid w' id p -> has_kid w id p) /\
  (tidy w -> (forall id cls, In cls transient -> has_class w' id cls = false) /\
             (forall id p, ~ has_kid w' id p)).
Proof.
  intros Hg Hs Hw w'.
  assert (Ht : timely (world_of (m w))) by (eapply timely_grows; [exact Hw | apply Hg]).
  destruct (drained_kept _ _ _ Ht (leftover_settles _ _ (Hs w))) as (Hd & Hc & Hk).
  split; [exact Hd|]. split; [exact Hc|]. split; [exact Hk|].
  intros Hty.
  destruct (drained_kept _ _ _ Ht (kept_settles _ _ _ _ Hty (Hs w))) as (_ & Hc' & Hk').
  split.
  - intros id cls Hcls. apply not_true_is_false. intros H. exact (Hc' id cls Hcls H).
  - intros id p H. exact (Hk' id p H).
Qed.

Lemma settles_playAccessGranted name : Steps settles (AnimationController.playAccessGranted name).
Proof.
  unfold AnimationController.playAccessGranted, AnimationController.animateBodyPartsSuccess.
  settles_auto.
Qed.

Lemma settles_shakeElement id : Steps settles (AnimationController.shakeElement id).
Proof. unfold AnimationController.shakeElement. settles_auto. Qed.

Lemma settles_bounceElement id : Steps settles (AnimationController.bounceElement id).
Proof. unfold AnimationController.bounceElement. settles_auto. Qed.

Lemma settles_flashElement id color : Steps settles (AnimationController.flashElement id color).
Proof. unfold AnimationController.flashElement. settles_auto. Qed.

Lemma settles_playAccessDenied reason : Steps settles (AnimationController.playAccessDenied reason).
Proof.
  unfold AnimationController.playAccessDenied.
  apply (Steps_bind settles settles_trans); [settles_auto|]. intros _.
  apply (Steps_bind settles settles_trans); [apply settles_shakeElement|]. settles_auto.
Qed.

Lemma Grows_shakeElement id : Grows 1 (AnimationController.shakeElement id).
Proof. unfold AnimationController.shakeElement. eapply Grows_mono; [grows_auto | simpl; lia]. Qed.

Lemma Grows_bounceElement id : Grows 1 (AnimationController.bounceElement id).
Proof. unfold AnimationController.bounceElement. eapply Grows_mono; [grows_auto | simpl; lia]. Qed.

Lemma Grows_flashElement id color : Grows 1 (AnimationController.flashElement id color).
Proof. unfold AnimationController.flashElement. eapply Grows_mono; [grows_auto | simpl; lia]. Qed.

(** X1. Passing effects of the two sequences always end.  After
    [playAccessGranted] or [playAccessDenied], once the loop has run
    dry, no timer is pending, and an element carries a passing class
    (scale-in, fade-out, fade-in, slide-in-up, attention-animation,
    shake-animation, ...) or a particle only if it did before the
    sequence started; on a page where every passing class and particle
    had its timer, none is left at all. *)
Theorem X1_sequences_clean_up (w : World) (name reason : string) :
  timely w ->
  let G := snd (drain (world_of (AnimationController.playAccessGranted name w))) in
  let D := snd (drain (world_of (AnimationController.playAccessDenied reason w))) in
  (timers G = [] /\
   (forall id cls, In cls transient -> has_class G id cls = true -> has_class w id cls = true) /\
   (forall id p, has_kid G id p -> has_kid w id p) /\
   (tidy w -> (forall id cls, In cls transient -> has_class G id cls = false) /\
              (forall id p, ~ has_kid G id p))) /\
  (timers D = [] /\
   (forall id cls, In cls transient -> has_class D id cls = true -> has_class w id cls = true) /\
   (forall id p, has_kid D id p -> has_kid w id p) /\
   (tidy w -> (forall id cls, In cls transient -> has_class D id cls = false) /\
              (forall id p, ~ has_kid D id p))).
Proof.
  intros Hw. split.
  - exact (settled_after _ _ w (Grows_playAccessGranted name)
             (settles_playAccessGranted name) Hw).
  - exact (settled_after _ _ w (Grows_playAccessDenied reason)
             (settles_playAccessDenied reason) Hw).
Qed.

Lemma kiosk_tidy : timely kiosk /\ tidy kiosk.
Proof. split; [constructor | apply clean_page_tidy; vm_compute; reflexivity]. Qed.

Lemma X1_sequences_clean_up_witness :
  timely kiosk /\ tidy kiosk /\
  has_class (snd (drain (world_of (AnimationController.playAccessGranted "Alex" kiosk))))
    "head" "scale-in" = false.
Proof.
  destruct kiosk_tidy as [Hk Ht]. split; [exact Hk|]. split; [exact Ht|].
  apply (proj1 (proj2 (proj2 (proj2 (proj1 (X1_sequences_clean_up kiosk "Alex" "none" Hk)))) Ht)).
  left. reflexivity.
Defined.

(** X2. The single effects clean up as well: after [shakeElement],
    [bounceElement], [flashElement] or [highlightMissingPPE], once the
    loop has run dry, an element carries a passing class only if it did
    before the call, and none at all on a page where every passing
    class had its timer. *)
Theorem X2_effects_clean_up (w : World) (id color : string) :
  timely w ->
  let clean (w' : World) :=
    (forall x cls, In cls transient -> has_class w' x cls = true -> has_class w x cls = true) /\
    (tidy w -> forall x cls, In cls transient -> has_class w' x cls = false) in
  clean (snd (drain (world_of (AnimationController.shakeElement id w)))) /\
  clean (snd (drain (world_of (AnimationController.bounceElement id w)))) /\
  clean (snd (drain (world_of (AnimationController.flashElement id color w)))) /\
  clean (snd (drain (world_of (highlightMissingPPE w)))).
Proof.
  intros Hw. cbv zeta.
  assert (H : forall {A} (m : JS A) n, Grows n m -> Steps settles m ->
            (forall x cls, In cls transient ->
               has_class (snd (drain (world_of (m w)))) x cls = true ->
               has_class w x cls = true) /\
            (tidy w -> forall x cls, In cls transient ->
               has_class (snd (drain (world_of (m w)))) x cls = false)).
  { intros A m n Hg Hs. destruct (settled_after m n w Hg Hs Hw) as (_ & Hc & _ & Ht).
    split; [exact Hc|]. intros Hty. exact (proj1 (Ht Hty)). }
  split; [apply (H _ _ 1); [apply Grows_shakeElement | apply settles_shakeElement]|].
  split; [apply (H _ _ 1); [apply Grows_bounceElement | apply settles_bounceElement]|].
  split; [apply (H _ _ 1); [apply Grows_flashElement | apply settles_flashElement]|].
  apply (H _ _ 9); [apply Grows_highlightMissingPPE | apply settles_highlightMissingPPE].
Qed.

Lemma X2_effects_clean_up_witness :
  timely kiosk /\ tidy kiosk /\
  has_class (snd (drain (world_of (AnimationController.flashElement "head" "blue" kiosk))))
    "head" "flash-red" = false.
Proof.
  destruct kiosk_tidy as [Hk Ht]. split; [exact Hk|]. split; [exact Ht|].
  apply (proj2 (proj1 (proj2 (proj2 (X2_effects_clean_up kiosk "head" "blue" Hk)))) Ht).
  do 8 right. left. reflexivity.
Defined.

(** ** Relations that the primitives keep by computation *)

(** Search along the syntax; [leaf] closes the primitives. *)
Ltac steps_with refl trans leaf :=
  repeat lazymatch goal with
  | |- forall _, _ => intro
  | |- Steps _ (bind _ _) => apply (Steps_bind _ trans)
  | |- Steps _ (if _ then _ else _) => apply Steps_if
  | |- Steps _ (whenPresent ?o _) =>
      destruct o; [apply Steps_whenPresent_Some | apply (Steps_whenPresent_None _ refl)]
  | |- Steps _ (forEach _ _) => apply (Steps_forEach _ refl trans)
  | |- Steps _ (forEachFrom _ _ _) => apply (Steps_forEachFrom _ refl trans)
  | |- Steps _ (ret _) => apply (Steps_ret _ refl)
  | |- Steps _ (read _) => apply (Steps_read _ refl)
  | |- Steps _ (getElementById _) => apply (Steps_getElementById _ refl)
  | |- Steps _ (deref _) => apply (Steps_deref _ refl)
  | |- Steps _ _ => leaf
  end.

(** A primitive that leaves alone the field the relation reads. *)
Ltac untouched :=
  let w := fresh "w" in
  let H := fresh "H" in
  repeat match goal with
         | |- context [?o] => is_var o; match type of o with option string => destruct o end
         end;
  intros w; solve [reflexivity | intros H; exact H].

Ltac unfold_program :=
  unfold on_access_status_change, on_config_update, playSuccessAnimation, playDeniedAnimation,
    animateDoorProgress, createParticles, playAnimation,
    AnimationController.playAccessGranted, AnimationController.playAccessDenied,
    AnimationController.animateBodyPartsSuccess, AnimationController.bodyPartSuccess,
    AnimationController.transitionStatusSection, AnimationController.fadeIn,
    AnimationController.showWelcomeMessage, AnimationController.createSuccessParticles,
    AnimationController.spawnParticle, AnimationController.animateDoorOpening,
    AnimationController.doorFill, AnimationController.showDenialReason,
    AnimationController.shakeElement, AnimationController.clearAllAnimations,
    AnimationController.bounceElement, AnimationController.flashElement,
    AnimationController.pulseElement, AnimationController.rotateElement,
    highlightMissingPPE, updateBodyVisualization, updatePart, initBodyVisualization,
    resetVisualization, setPartColor.

Lemma unraised_refl w : unraised w w.
Proof. intros H. exact H. Qed.

Lemma unraised_trans a b c : unraised a b -> unraised b c -> unraised a c.
Proof. unfold unraised. auto. Qed.

Lemma unraised_exec a : Steps unraised (exec a).
Proof.
  destruct a; simpl exec; unfold_program;
    steps_with unraised_refl unraised_trans untouched.
  intros w H. discriminate.
Qed.

Lemma lowerable_fire w e w' : timely w -> lowerable w -> fire w = Some (e, w') -> lowerable w'.
Proof.
  intros Hw Hl Hf Hup.
  destruct (fire_Some _ _ _ Hw Hf) as (rest & w1 & Hp & Hw1 & Hw' & _ & _ & Hg).
  destruct Hg as (_ & _ & new & Ht & _).
  assert (Hrest : timers w1 = rest) by (subst w1; reflexivity).
  pose proof (unraised_exec (snd e) w1) as Hu. rewrite <- Hw' in Hu.
  assert (H0 : isAnimating w = true) by (specialize (Hu Hup); subst w1; exact Hu).
  destruct (Hl H0) as [d Hd].
  assert (Hin : forall u, In u (timers w) -> u = e \/ In u (timers w')).
  { intros u Hu9. apply list_elem_of_In in Hu9. rewrite Hp in Hu9. apply list_elem_of_In in Hu9.
    destruct Hu9 as [<-|Hu9]; [left; reflexivity|].
    right. rewrite Ht, Hrest. apply in_or_app. left. exact Hu9. }
  destruct (Hin _ Hd) as [<-|Hd'].
  - rewrite Hw' in Hup. cbn in Hup. discriminate.
  - exists d. exact Hd'.
Qed.

Lemma lowerable_drain w : timely w -> lowerable w -> isAnimating (snd (drain w)) = false.
Proof.
  remember (budget (timers w)) as k eqn:Ek. revert w Ek.
  induction k as [k IH] using lt_wf_ind. intros w Ek Hw Hl.
  destruct (fire w) as [[e w']|] eqn:Hf.
  - destruct (drain_step _ _ _ Hw Hf) as [_ ->].
    apply (IH (budget (timers w'))); [subst k; exact (fire_budget _ _ _ Hw Hf) | reflexivity
      | exact (fire_timely _ _ _ Hw Hf) | exact (lowerable_fire _ _ _ Hw Hl Hf)].
  - apply fire_None in Hf. destruct (drain_idle _ Hf) as [_ ->].
    apply not_true_is_false. intros H. destruct (Hl H) as [d Hd]. rewrite Hf in Hd. destruct Hd.
Qed.

(** X3. However the sequences overlap and whatever else is pending,
    once the loop has run dry after [playAccessGranted] or
    [playAccessDenied] the flag [isAnimating] is down: no timer callback
    ever raises it, and each sequence sets the timer that lowers it. *)
Theorem X3_flag_lowered (w : World) (name reason : string) :
  timely w ->
  isAnimating (snd (drain (world_of (AnimationController.playAccessGranted name w)))) = false /\
  isAnimating (snd (drain (world_of (AnimationController.playAccessDenied reason w)))) = false /\
  (forall a w1, isAnimating (world_of (exec a w1)) = true -> isAnimating w1 = true).
Proof.
  intros Hw. split; [|split].
  - apply lowerable_drain.
    + eapply timely_grows; [exact Hw | apply Grows_playAccessGranted].
    + intros _. exists (now w + 4000)%N. apply playAccessGranted_step. simpl. tauto.
  - apply lowerable_drain.
    + eapply timely_grows; [exact Hw | apply Grows_playAccessDenied].
    + intros _. destruct (playAccessDenied_timers_tail reason w) as [shake ->].
      exists (now w + 2000)%N. apply in_or_app. right. apply in_or_app. right. simpl. tauto.
  - intros a w1. apply unraised_exec.
Qed.

Lemma X3_flag_lowered_witness :
  timely kiosk /\
  isAnimating (snd (drain (world_of (AnimationController.playAccessGranted "Alex" kiosk)))) = false.
Proof.
  assert (Hk : timely kiosk) by constructor. split; [exact Hk|].
  exact (proj1 (X3_flag_lowered kiosk "Alex" "none" Hk)).
Defined.

(** ** What is sent to the backend *)

Lemma quiet_refl w : quiet w w.
Proof. reflexivity. Qed.

Lemma quiet_trans a b c : quiet a b -> quiet b c -> quiet a c.
Proof. unfold quiet. congruence. Qed.

Ltac quiet_auto := unfold_program; steps_with quiet_refl quiet_trans untouched.

Lemma quiet_exec a : Steps quiet (exec a).
Proof. destruct a; simpl exec; quiet_auto. Qed.

Lemma quiet_fire w e w' : fire w = Some (e, w') -> emitted w' = emitted w.
Proof.
  unfold fire. destruct (pick (timers w)) as [[[due a] rest]|]; [|discriminate].
  intros [= <- <-]. etransitivity; [apply (quiet_exec a) | reflexivity].
Qed.

Lemma quiet_drain w : timely w -> emitted (snd (drain w)) = emitted w.
Proof.
  remember (budget (timers w)) as k eqn:Ek. revert w Ek.
  induction k as [k IH] using lt_wf_ind. intros w Ek Hw.
  destruct (fire w) as [[e w']|] eqn:Hf.
  - destruct (drain_step _ _ _ Hw Hf) as [_ ->].
    rewrite (IH (budget (timers w'))); [exact (quiet_fire _ _ _ Hf)
      | subst k; exact (fire_budget _ _ _ Hw Hf) | reflexivity | exact (fire_timely _ _ _ Hw Hf)].
  - apply fire_None in Hf. destruct (drain_idle _ Hf) as [_ ->]. reflexivity.
Qed.

(** X4. The display code sends nothing to the backend: a status event,
    a configuration update, a display update, either animation sequence,
    and every timer callback they leave behind, run to the end, leave
    the list of emitted messages as it was. *)
Theorem X4_display_code_sends_nothing (w : World) :
  timely w ->
  (forall data, emitted (snd (drain (world_of (on_access_status_change data w)))) = emitted w) /\
  (forall data, emitted (world_of (on_config_update data w)) = emitted w) /\
  (forall d r, emitted (world_of (updateBodyVisualization d r w)) = emitted w) /\
  (forall name, emitted (snd (drain (world_of (AnimationController.playAccessGranted name w))))
                = emitted w) /\
  (forall reason, emitted (snd (drain (world_of (AnimationController.playAccessDenied reason w))))
                  = emitted w).
Proof.
  intros Hw.
  assert (Hq : forall (m : JS unit) n, Grows n m -> Steps quiet m ->
                 emitted (snd (drain (world_of (m w)))) = emitted w).
  { intros m n Hg Hs. rewrite quiet_drain; [apply Hs | eapply timely_grows; [exact Hw | apply Hg]]. }
  split; [|split; [|split; [|split]]].
  - intros data. apply (Hq _ _ (Grows_on_access_status_change data)). quiet_auto.
  - intros data. assert (Hs : Steps quiet (on_config_update data)) by quiet_auto. apply Hs.
  - intros d r. assert (Hs : Steps quiet (updateBodyVisualization d r)) by quiet_auto. apply Hs.
  - intros name. apply (Hq _ _ (Grows_playAccessGranted name)). quiet_auto.
  - intros reason. apply (Hq _ _ (Grows_playAccessDenied reason)). quiet_auto.
Qed.

Lemma X4_display_code_sends_nothing_witness :
  timely kiosk /\
  emitted (snd (drain (world_of (AnimationController.playAccessGranted "Alex" kiosk))))
  = emitted kiosk.
Proof.
  assert (Hk : timely kiosk) by constructor. split; [exact Hk|].
  exact (proj1 (proj2 (proj2 (proj2 (X4_display_code_sends_nothing kiosk Hk)))) "Alex").
Defined.

(** ** The classes of the status panel *)

Lemma includes_token_remove_other c x l :
  x <> c -> includes (token_remove c l) x = includes l x.
Proof.
  intros Hne. apply Bool.eq_iff_eq_true. rewrite !includes_In. unfold token_remove.
  rewrite filter_In. split; [tauto|]. intros H. split; [exact H|].
  apply negb_true_iff, String.eqb_neq. exact Hne.
Qed.

Lemma includes_fold_remove_other cs x l :
  ~ In x cs -> includes (fold_left (fun l c => token_remove c l) cs l) x = includes l x.
Proof.
  revert l. induction cs as [|c cs IH]; intros l Hx; [reflexivity|].
  simpl. rewrite IH by (intros H; apply Hx; right; exact H).
  apply includes_token_remove_other. intros ->. apply Hx. left. reflexivity.
Qed.

Lemma includes_token_add_other c x l :
  x <> c -> includes (token_add c l) x = includes l x.
Proof.
  intros Hne. unfold token_add. destruct (includes l c); [reflexivity|].
  apply Bool.eq_iff_eq_true. rewrite !includes_In, in_app_iff. simpl.
  split; [intros [H|[H|[]]]; [exact H | congruence] | tauto].
Qed.

Lemma includes_token_add_mono c x l :
  includes l x = true -> includes (token_add c l) x = true.
Proof.
  intros H. unfold token_add. destruct (includes l c); [exact H|].
  apply includes_In, in_or_app. left. apply includes_In. exact H.
Qed.

Lemma has_class_alterElement_same f o (Q : string -> Prop) :
  (forall e cls, Q cls -> includes (classList (f e)) cls = includes (classList e) cls) ->
  forall w id cls, Q cls -> has_class (world_of (alterElement f o w)) id cls = has_class w id cls.
Proof.
  intros Hf w id cls Hq. destruct o as [r|]; [|reflexivity].
  change (world_of (alterElement f (Some r) w)) with (set_document (alter f r (document w)) w).
  rewrite has_class_alter. unfold has_class. destruct (document w !! id); [|reflexivity].
  destruct (decide (r = id)); [apply Hf; exact Hq | reflexivity].
Qed.

Lemma has_class_alterElement_mono f o (Q : string -> Prop) :
  (forall e cls, Q cls -> includes (classList e) cls = true ->
                 includes (classList (f e)) cls = true) ->
  forall w id cls, Q cls -> has_class w id cls = true ->
                   has_class (world_of (alterElement f o w)) id cls = true.
Proof.
  intros Hf w id cls Hq. destruct o as [r|]; [|intros H; exact H].
  change (world_of (alterElement f (Some r) w)) with (set_document (alter f r (document w)) w).
  rewrite has_class_alter. unfold has_class. destruct (document w !! id); [|intros H; exact H].
  destruct (decide (r = id)); [apply Hf; exact Hq | intros H; exact H].
Qed.

Lemma keeps_classes_refl w : keeps_classes w w.
Proof. intros id cls _ H. exact H. Qed.

Lemma keeps_classes_trans a b c : keeps_classes a b -> keeps_classes b c -> keeps_classes a c.
Proof. intros H1 H2 id cls Hc H. apply H2; [exact Hc|]. apply H1; assumption. Qed.

Lemma keeps_classes_plain f o :
  (forall e, classList (f e) = classList e) -> Steps keeps_classes (alterElement f o).
Proof.
  intros Hf w id cls Hc. apply (has_class_alterElement_mono f o (fun _ => True)); [|exact I].
  intros e c _. rewrite Hf. intros H. exact H.
Qed.

Lemma keeps_classes_add o c : Steps keeps_classes (classList_add o c).
Proof.
  intros w id cls Hc. apply (has_class_alterElement_mono _ o (fun _ => True)); [|exact I].
  intros e x _. apply includes_token_add_mono.
Qed.

Lemma keeps_classes_remove o : Steps keeps_classes (classList_remove o state_classes).
Proof.
  intros w id cls Hc.
  apply (has_class_alterElement_mono _ o (fun x => ~ In x state_classes)); [|exact Hc].
  intros e x Hx. cbn [classList with_classList]. rewrite includes_fold_remove_other by exact Hx.
  intros H. exact H.
Qed.

Ltac keeps_classes_leaf :=
  idtac;
  lazymatch goal with
  | |- Steps _ (classList_add _ _) => apply keeps_classes_add
  | |- Steps _ (classList_remove _ _) => apply keeps_classes_remove
  | |- Steps _ (set_textContent _ _) => apply keeps_classes_plain; reflexivity
  | |- Steps _ (set_style _ _ _) => apply keeps_classes_plain; reflexivity
  | |- Steps _ (appendChild _ _) => apply keeps_classes_plain; reflexivity
  | |- _ => let H := fresh in intros ? ? ? _ H; exact H
  end.

Lemma keeps_classes_handler data : Steps keeps_classes (on_access_status_change data).
Proof.
  unfold_program.
  steps_with keeps_classes_refl keeps_classes_trans keeps_classes_leaf.
Qed.

Lemma keeps_classes_handle_all evs w : keeps_classes w (handle_all evs w).
Proof.
  revert w. induction evs as [|data evs IH]; intros w; [apply keeps_classes_refl|].
  simpl. eapply keeps_classes_trans; [apply keeps_classes_handler | apply IH].
Qed.

Lemma keeps_state_classes_refl w : keeps_state_classes w w.
Proof. intros id cls _. reflexivity. Qed.

Lemma keeps_state_classes_trans a b c :
  keeps_state_classes a b -> keeps_state_classes b c -> keeps_state_classes a c.
Proof. intros H1 H2 id cls Hc. rewrite H2, H1 by exact Hc. reflexivity. Qed.

Lemma keeps_state_classes_plain f o :
  (forall e, classList (f e) = classList e) -> Steps keeps_state_classes (alterElement f o).
Proof.
  intros Hf w id cls Hc. apply (has_class_alterElement_same f o (fun _ => True)); [|exact I].
  intros e c _. rewrite Hf. reflexivity.
Qed.

Lemma keeps_state_classes_add o c :
  ~ In c state_classes -> Steps keeps_state_classes (classList_add o c).
Proof.
  intros Hn w id cls Hc.
  apply (has_class_alterElement_same _ o (fun x => In x state_classes)); [|exact Hc].
  intros e x Hx. apply includes_token_add_other. intros ->. exact (Hn Hx).
Qed.

Ltac keeps_state_classes_leaf :=
  idtac;
  lazymatch goal with
  | |- Steps _ (classList_add _ _) =>
      let H := fresh in
      apply keeps_state_classes_add; intros [H|[H|[H|[]]]]; discriminate H
  | |- Steps _ (set_textContent _ _) => apply keeps_state_classes_plain; reflexivity
  | |- Steps _ (set_style _ _ _) => apply keeps_state_classes_plain; reflexivity
  | |- Steps _ (appendChild _ _) => apply keeps_state_classes_plain; reflexivity
  | |- _ => intros ? ? ? _; reflexivity
  end.

Ltac keeps_state_classes_auto :=
  unfold_program;
  steps_with keeps_state_classes_refl keeps_state_classes_trans keeps_state_classes_leaf.

(** The look-ups of the handler, whatever they find. *)
Ltac any_lookup :=
  match goal with
  | |- context [bind (getElementById ?id) ?k ?w] =>
      change (bind (getElementById id) k w)
        with (k (match document w !! id with Some _ => Some id | None => None end) w);
      generalize (match document w !! id with Some _ => Some id | None => @None string end);
      intro; cbv beta
  end.

Lemma state_class_after c cls l :
  In c state_classes -> In cls state_classes ->
  includes (token_add c (fold_left (fun l c => token_remove c l) state_classes l)) cls
  = bool_decide (Some c = Some cls).
Proof.
  intros Hc Hcls. destruct (string_dec cls c) as [->|Hne].
  - rewrite includes_token_add. symmetry. apply bool_decide_eq_true. reflexivity.
  - rewrite includes_token_add_other by exact Hne.
    rewrite fold_token_remove_excludes by exact Hcls.
    symmetry. apply bool_decide_eq_false. intros [= E]. apply Hne. symmetry. exact E.
Qed.

Lemma state_branch c (rest : JS unit) w e cls :
  document w !! "access-status" = Some e ->
  In c state_classes -> In cls state_classes ->
  Steps keeps_state_classes rest ->
  has_class (world_of ((classList_remove (Some "access-status") state_classes ;;
                        classList_add (Some "access-status") c ;; rest) w)) "access-status" cls
  = bool_decide (Some c = Some cls).
Proof.
  intros He Hc Hcls Hrest. unfold classList_remove, classList_add.
  rewrite !alter_step. rewrite (Hrest _ "access-status" cls Hcls).
  rewrite !has_class_alter, !document_set_document.
  rewrite lookup_alter_eq, He. cbn [fmap option_fmap option_map].
  rewrite !decide_True by reflexivity. cbn [classList with_classList].
  apply state_class_after; assumption.
Qed.

(** X5. Whatever the state of a status event and whatever the panel
    showed before, after the handler the status panel carries exactly
    the class of that state among "granted", "denied" and "checking",
    and none of the three for a state the handler does not know; this
    holds even when a later statement of the handler throws. *)
Theorem X5_one_state_class (w : World) (data : AccessStatus) (cls : string) :
  attached w "access-status" = true ->
  In cls state_classes ->
  has_class (world_of (on_access_status_change data w)) "access-status" cls
  = bool_decide (state_class (state data) = Some cls).
Proof.
  intros Ha Hcls. unfold attached in Ha.
  destruct (document w !! "access-status") as [e1|] eqn:H1; [|discriminate].
  unfold on_access_status_change. rewrite modify_step.
  rewrite (get_step "access-status" _ _ e1) by exact H1.
  do 5 any_lookup.
  unfold state_class.
  repeat match goal with
         | |- context [String.eqb (state data) ?s] =>
             destruct (String.eqb (state data) s); cbv iota
         end;
    try (apply (state_branch _ _ _ e1); [exact H1 | simpl; tauto | exact Hcls |];
         keeps_state_classes_auto).
  unfold classList_remove.
  change (world_of ((alterElement ?f (Some ?r) ;; ret tt) ?w0))
    with (set_document (alter f r (document w0)) w0).
  rewrite has_class_alter. rewrite document_set_currentState, H1.
  rewrite decide_True by reflexivity. cbn [classList with_classList].
  rewrite fold_token_remove_excludes by exact Hcls.
  symmetry. apply bool_decide_eq_false. discriminate.
Qed.

Lemma X5_one_state_class_witness :
  let data := mkAccessStatus "ACCESS_GRANTED" None None None in
  attached kiosk "access-status" = true /\ In "granted" state_classes /\
  has_class (world_of (on_access_status_change data kiosk)) "access-status" "granted"
  = bool_decide (state_class (state data) = Some "granted").
Proof.
  split; [vm_compute; reflexivity|]. split; [left; reflexivity|].
  apply (X5_one_state_class kiosk (mkAccessStatus "ACCESS_GRANTED" None None None) "granted");
    [vm_compute; reflexivity | left; reflexivity].
Defined.

(** The handler up to its branch, the six elements found. *)
Ltac handler_known Hst H1 H2 H3 H4 H5 H6 :=
  unfold on_access_status_change; rewrite Hst;
  cbn [String.eqb Ascii.eqb Bool.eqb];
  rewrite modify_step;
  erewrite (get_step "access-status") by exact H1;
  erewrite (get_step "status-icon") by exact H2;
  erewrite (get_step "status-text") by exact H3;
  erewrite (get_step "status-message") by exact H4;
  erewrite (get_step "status-user") by exact H5;
  erewrite (get_step "door-progress") by exact H6;
  unfold classList_remove, classList_add, set_textContent, set_style, playAnimation;
  rewrite !alter_step, ?set_document_twice, ?document_set_document, ?document_set_currentState.

Lemma alter_last f r w :
  alterElement f (Some r) w = Ok tt (set_document (alter f r (document w)) w).
Proof. reflexivity. Qed.

Lemma face_detecting_pulse w data e1 e2 e3 e4 e5 e6 :
  state data = "FACE_DETECTING" ->
  document w !! "access-status" = Some e1 ->
  document w !! "status-icon" = Some e2 ->
  document w !! "status-text" = Some e3 ->
  document w !! "status-message" = Some e4 ->
  document w !! "status-user" = Some e5 ->
  document w !! "door-progress" = Some e6 ->
  has_class (world_of (on_access_status_change data w)) "status-icon" "pulse-animation" = true.
Proof.
  intros Hst H1 H2 H3 H4 H5 H6.
  handler_known Hst H1 H2 H3 H4 H5 H6.
  rewrite alter_last. cbn [world_of].
  rewrite has_class_alter, document_set_document. lookup_through. rewrite H2.
  cbn [fmap option_fmap option_map]. rewrite decide_True by reflexivity.
  apply includes_token_add.
Qed.

(** X6. The status handler takes no class off any element other than
    "granted", "denied" and "checking": whatever events follow, a class
    outside these three stays where it is.  In particular the
    "pulse-animation" that a FACE_DETECTING event puts on the status
    icon is still there after any later status events. *)
Theorem X6_handler_keeps_other_classes (w : World) (evs : list AccessStatus) :
  (forall id cls, ~ In cls state_classes -> has_class w id cls = true ->
                  has_class (handle_all evs w) id cls = true) /\
  (forall data,
     state data = "FACE_DETECTING" ->
     is_Some (document w !! "access-status") ->
     is_Some (document w !! "status-icon") ->
     is_Some (document w !! "status-text") ->
     is_Some (document w !! "status-message") ->
     is_Some (document w !! "status-user") ->
     is_Some (document w !! "door-progress") ->
     has_class (handle_all (data :: evs) w) "status-icon" "pulse-animation" = true).
Proof.
  split.
  - intros id cls. apply keeps_classes_handle_all.
  - intros data Hst [e1 H1] [e2 H2] [e3 H3] [e4 H4] [e5 H5] [e6 H6]. simpl.
    apply keeps_classes_handle_all; [intros [H|[H|[H|[]]]]; discriminate H|].
    exact (face_detecting_pulse w data e1 e2 e3 e4 e5 e6 Hst H1 H2 H3 H4 H5 H6).
Qed.

Lemma X6_handler_keeps_other_classes_witness :
  let detecting := mkAccessStatus "FACE_DETECTING" None None None in
  let idle := mkAccessStatus "IDLE" None None None in
  let denied := mkAccessStatus "ACCESS_DENIED" None None None in
  state detecting = "FACE_DETECTING" /\
  is_Some (document kiosk !! "access-status") /\
  is_Some (document kiosk !! "status-icon") /\
  is_Some (document kiosk !! "status-text") /\
  is_Some (document kiosk !! "status-message") /\
  is_Some (document kiosk !! "status-user") /\
  is_Some (document kiosk !! "door-progress") /\
  has_class (handle_all [detecting; idle; denied] kiosk) "status-icon" "pulse-animation" = true.
Proof.
  assert (H1 : is_Some (document kiosk !! "access-status")) by (vm_compute; eauto).
  assert (H2 : is_Some (document kiosk !! "status-icon")) by (vm_compute; eauto).
  assert (H3 : is_Some (document kiosk !! "status-text")) by (vm_compute; eauto).
  assert (H4 : is_Some (document kiosk !! "status-message")) by (vm_compute; eauto).
  assert (H5 : is_Some (document kiosk !! "status-user")) by (vm_compute; eauto).
  assert (H6 : is_Some (document kiosk !! "door-progress")) by (vm_compute; eauto).
  repeat (split; [first [reflexivity | assumption]|]).
  exact (proj2 (X6_handler_keeps_other_classes kiosk
                  [mkAccessStatus "IDLE" None None None;
                   mkAccessStatus "ACCESS_DENIED" None None None])
               (mkAccessStatus "FACE_DETECTING" None None None) eq_refl H1 H2 H3 H4 H5 H6).
Defined.

(** ** The state is adopted first *)

Lemma same_state_refl w : same_state w w.
Proof. reflexivity. Qed.

Lemma same_state_trans a b c : same_state a b -> same_state b c -> same_state a c.
Proof. unfold same_state. congruence. Qed.

(** X7. The handler records the state of the event before it touches
    the page, so the state is adopted whatever happens next.  Without
    the status panel the handler throws with only the state changed;
    with the panel, a state the handler does not know clears the three
    state classes of the panel and changes nothing else. *)
Theorem X7_state_adopted_first (w : World) (data : AccessStatus) :
  currentState (world_of (on_access_status_change data w)) = state data /\
  (attached w "access-status" = false ->
   on_access_status_change data w = Throw (set_currentState (state data) w)) /\
  (attached w "access-status" = true -> state_class (state data) = None ->
   on_access_status_change data w
   = Ok tt (set_document
              (alter (with_classList
                        (fun l => fold_left (fun l c => token_remove c l) state_classes l))
                     "access-status" (document w))
              (set_currentState (state data) w))).
Proof.
  split; [|split].
  - unfold on_access_status_change. rewrite modify_step. cbv beta.
    match goal with
    | |- currentState (world_of (?m ?w0)) = _ =>
        assert (Hs : Steps same_state m)
          by (unfold_program; steps_with same_state_refl same_state_trans untouched);
        exact (Hs w0)
    end.
  - unfold attached. destruct (document w !! "access-status") eqn:H1; [discriminate|].
    intros _. unfold on_access_status_change, bind, modify, getElementById, read.
    cbn [document set_currentState]. rewrite H1. reflexivity.
  - unfold attached. destruct (document w !! "access-status") as [e1|] eqn:H1; [|discriminate].
    intros _. unfold on_access_status_change. rewrite modify_step.
    rewrite (get_step "access-status" _ _ e1) by exact H1.
    do 5 any_lookup. unfold state_class.
    repeat match goal with
           | |- context [String.eqb (state data) ?s] =>
               destruct (String.eqb (state data) s); cbv iota; try discriminate
           end.
    intros _. reflexivity.
Qed.

Lemma X7_state_adopted_first_witness :
  let data := mkAccessStatus "MAINTENANCE" None None None in
  attached kiosk "access-status" = true /\ state_class (state data) = None /\
  has_class (world_of (on_access_status_change data kiosk)) "access-status" "checking" = false /\
  attached bare "access-status" = false /\
  completes (on_access_status_change data bare) = false.
Proof.
  assert (Ha : attached kiosk "access-status" = true) by (vm_compute; reflexivity).
  assert (Hb : attached bare "access-status" = false) by (vm_compute; reflexivity).
  split; [exact Ha|]. split; [reflexivity|]. split.
  - rewrite (proj2 (proj2 (X7_state_adopted_first kiosk
               (mkAccessStatus "MAINTENANCE" None None None))) Ha eq_refl).
    vm_compute. reflexivity.
  - split; [exact Hb|].
    rewrite (proj1 (proj2 (X7_state_adopted_first bare
               (mkAccessStatus "MAINTENANCE" None None None))) Hb).
    reflexivity.
Defined.

(** ** From recognition to the equipment check *)

Lemma face_recognized_run w data e1 e2 e3 e4 e5 e6 :
  state data = "FACE_RECOGNIZED" ->
  document w !! "access-status" = Some e1 ->
  document w !! "status-icon" = Some e2 ->
  document w !! "status-text" = Some e3 ->
  document w !! "status-message" = Some e4 ->
  document w !! "status-user" = Some e5 ->
  document w !! "door-progress" = Some e6 ->
  on_access_status_change data w
  = Ok tt
      (set_document
         (alter (with_style "display" "none") "door-progress"
            (alter (with_classList (token_add "fade-in")) "status-user"
               (alter (with_style "display" "block") "status-user"
                  (alter (with_textContent
                            ("Welcome, " +:+ interpolate (person_name data) +:+ "!"))
                         "status-user"
                     (alter (with_textContent "Checking PPE...") "status-message"
                        (alter (with_textContent "IDENTITY VERIFIED") "status-text"
                           (alter (with_textContent "✓") "status-icon"
                              (alter (with_classList (token_add "checking")) "access-status"
                                 (alter (with_classList (fun l =>
                                           fold_left (fun l c => token_remove c l)
                                             ["granted"; "denied"; "checking"] l))
                                        "access-status" (document w))))))))))
         (set_currentState "FACE_RECOGNIZED" w)).
Proof.
  intros Hst H1 H2 H3 H4 H5 H6.
  handler_known Hst H1 H2 H3 H4 H5 H6. reflexivity.
Qed.

Lemma ppe_checking_run w data e1 e2 e3 e4 e5 e6 :
  state data = "PPE_CHECKING" ->
  document w !! "access-status" = Some e1 ->
  document w !! "status-icon" = Some e2 ->
  document w !! "status-text" = Some e3 ->
  document w !! "status-message" = Some e4 ->
  document w !! "status-user" = Some e5 ->
  document w !! "door-progress" = Some e6 ->
  on_access_status_change data w
  = Ok tt
      (set_document
         (alter (with_style "display" "none") "door-progress"
            (alter (with_textContent (or_string (message data) "Please show required PPE"))
                   "status-message"
               (alter (with_textContent "CHECKING PPE...") "status-text"
                  (alter (with_textContent "🔎") "status-icon"
                     (alter (with_classList (token_add "checking")) "access-status"
                        (alter (with_classList (fun l =>
                                  fold_left (fun l c => token_remove c l)
                                    ["granted"; "denied"; "checking"] l))
                               "access-status" (document w)))))))
         (set_currentState "PPE_CHECKING" w)).
Proof.
  intros Hst H1 H2 H3 H4 H5 H6.
  handler_known Hst H1 H2 H3 H4 H5 H6.
  rewrite alter_last, ?set_document_twice, ?document_set_document. reflexivity.
Qed.

(** X8. A FACE_RECOGNIZED event followed by a PPE_CHECKING event, on a
    page with the six elements of the status panel: both handlers
    complete and schedule nothing; the PPE_CHECKING handler leaves the
    person-name slot alone, so the greeting of the recognition stays on
    display, while the message slot shows the event's message or
    "Please show required PPE".  A recognition event without a person
    name greets "undefined". *)
Theorem X8_greeting_survives_check (w : World) (d1 d2 : AccessStatus) :
  state d1 = "FACE_RECOGNIZED" ->
  state d2 = "PPE_CHECKING" ->
  is_Some (document w !! "access-status") ->
  is_Some (document w !! "status-icon") ->
  is_Some (document w !! "status-text") ->
  is_Some (document w !! "status-message") ->
  is_Some (document w !! "status-user") ->
  is_Some (document w !! "door-progress") ->
  let w1 := world_of (on_access_status_change d1 w) in
  let w2 := world_of (on_access_status_change d2 w1) in
  completes (on_access_status_change d1 w) = true /\
  completes (on_access_status_change d2 w1) = true /\
  timers w2 = timers w /\
  document w2 !! "status-user" = document w1 !! "status-user" /\
  text_of w2 "status-user" = Some ("Welcome, " +:+ interpolate (person_name d1) +:+ "!") /\
  (person_name d1 = None -> text_of w2 "status-user" = Some "Welcome, undefined!") /\
  style_of w2 "status-user" "display" = Some "block" /\
  has_class w2 "status-user" "fade-in" = true /\
  text_of w2 "status-message" = Some (or_string (message d2) "Please show required PPE") /\
  style_of w2 "door-progress" "display" = Some "none".
Proof.
  intros Hs1 Hs2 [e1 H1] [e2 H2] [e3 H3] [e4 H4] [e5 H5] [e6 H6]. cbv zeta.
  destruct (Grows_on_access_status_change d1 w) as [_ [Hak _]].
  destruct (present_akin _ _ "access-status" Hak (mk_is_Some _ _ H1)) as [f1 F1].
  destruct (present_akin _ _ "status-icon" Hak (mk_is_Some _ _ H2)) as [f2 F2].
  destruct (present_akin _ _ "status-text" Hak (mk_is_Some _ _ H3)) as [f3 F3].
  destruct (present_akin _ _ "status-message" Hak (mk_is_Some _ _ H4)) as [f4 F4].
  destruct (present_akin _ _ "status-user" Hak (mk_is_Some _ _ H5)) as [f5 F5].
  destruct (present_akin _ _ "door-progress" Hak (mk_is_Some _ _ H6)) as [f6 F6].
  rewrite (ppe_checking_run _ d2 f1 f2 f3 f4 f5 f6 Hs2 F1 F2 F3 F4 F5 F6).
  cbn [world_of completes].
  assert (Hu : document (world_of (on_access_status_change d1 w)) !! "status-user"
               = Some (with_classList (token_add "fade-in")
                         (with_style "display" "block"
                            (with_textContent
                               ("Welcome, " +:+ interpolate (person_name d1) +:+ "!") e5)))).
  { rewrite (face_recognized_run w d1 e1 e2 e3 e4 e5 e6 Hs1 H1 H2 H3 H4 H5 H6).
    cbn [world_of]. rewrite document_set_document. lookup_through. rewrite H5. reflexivity. }
  assert (Ht : timers (world_of (on_access_status_change d1 w)) = timers w).
  { rewrite (face_recognized_run w d1 e1 e2 e3 e4 e5 e6 Hs1 H1 H2 H3 H4 H5 H6). reflexivity. }
  assert (Hc : completes (on_access_status_change d1 w) = true).
  { rewrite (face_recognized_run w d1 e1 e2 e3 e4 e5 e6 Hs1 H1 H2 H3 H4 H5 H6). reflexivity. }
  unfold text_of, style_of, has_class. rewrite !document_set_document.
  assert (Hu2 : alter (with_style "display" "none") "door-progress"
                  (alter (with_textContent (or_string (message d2) "Please show required PPE"))
                         "status-message"
                     (alter (with_textContent "CHECKING PPE...") "status-text"
                        (alter (with_textContent "🔎") "status-icon"
                           (alter (with_classList (token_add "checking")) "access-status"
                              (alter (with_classList (fun l =>
                                        fold_left (fun l c => token_remove c l)
                                          ["granted"; "denied"; "checking"] l))
                                     "access-status"
                                     (document (world_of (on_access_status_change d1 w))))))))
                !! "status-user"
                = document (world_of (on_access_status_change d1 w)) !! "status-user").
  { lookup_through. reflexivity. }
  split; [exact Hc|]. split; [reflexivity|]. split; [exact Ht|].
  split; [exact Hu2|]. rewrite Hu2, Hu. cbn [fmap option_fmap option_map mbind option_bind].
  split; [reflexivity|]. split; [intros ->; reflexivity|].
  split; [apply lookup_insert_eq|].
  split; [apply includes_token_add|].
  split; lookup_through.
  - rewrite F4. reflexivity.
  - rewrite F6. cbn. apply lookup_insert_eq.
Qed.

Lemma X8_greeting_survives_check_witness :
  let d1 := mkAccessStatus "FACE_RECOGNIZED" None None None in
  let d2 := mkAccessStatus "PPE_CHECKING" None (Some "Helmet missing") None in
  state d1 = "FACE_RECOGNIZED" /\ state d2 = "PPE_CHECKING" /\
  is_Some (document kiosk !! "access-status") /\
  is_Some (document kiosk !! "status-icon") /\
  is_Some (document kiosk !! "status-text") /\
  is_Some (document kiosk !! "status-message") /\
  is_Some (document kiosk !! "status-user") /\
  is_Some (document kiosk !! "door-progress") /\
  text_of (world_of (on_access_status_change d2 (world_of (on_access_status_change d1 kiosk))))
    "status-user" = Some "Welcome, undefined!".
Proof.
  assert (H1 : is_Some (document kiosk !! "access-status")) by (vm_compute; eauto).
  assert (H2 : is_Some (document kiosk !! "status-icon")) by (vm_compute; eauto).
  assert (H3 : is_Some (document kiosk !! "status-text")) by (vm_compute; eauto).
  assert (H4 : is_Some (document kiosk !! "status-message")) by (vm_compute; eauto).
  assert (H5 : is_Some (document kiosk !! "status-user")) by (vm_compute; eauto).
  assert (H6 : is_Some (document kiosk !! "door-progress")) by (vm_compute; eauto).
  repeat (split; [first [reflexivity | assumption]|]).
  pose proof (X8_greeting_survives_check kiosk
                (mkAccessStatus "FACE_RECOGNIZED" None None None)
                (mkAccessStatus "PPE_CHECKING" None (Some "Helmet missing") None)
                eq_refl eq_refl H1 H2 H3 H4 H5 H6) as H.
  cbv zeta in H. exact (proj1 (proj2 (proj2 (proj2 (proj2 (proj2 H))))) eq_refl).
Defined.

(** ** Painting a region *)

Lemma paint_paint c1 c2 s : paint c2 (paint c1 s) = paint c2 s.
Proof.
  destruct s as [t f st]. unfold paint, paint_fill, paint_stroke, fillable, strokable.
  cbn [tag fill stroke].
  destruct (includes ["ellipse"; "circle"; "path"; "rect"] t) eqn:Ef;
    destruct (includes ["line"; "path"] t) eqn:Es;
    destruct f as [f|]; destruct st as [st|];
    repeat (progress (cbn; rewrite ?Ef, ?Es)); reflexivity.
Qed.

Lemma paint_tag c s : tag (paint c s) = tag s.
Proof.
  destruct s as [t f st]. unfold paint, paint_fill, paint_stroke, fillable, strokable.
  cbn [tag fill stroke].
  destruct (includes ["ellipse"; "circle"; "path"; "rect"] t) eqn:Ef;
    destruct (includes ["line"; "path"] t) eqn:Es;
    destruct f as [f|]; destruct st as [st|];
    repeat (progress (cbn; rewrite ?Ef, ?Es)); reflexivity.
Qed.

Lemma paint_fillable c s :
  fillable s = true -> fill (paint c s) = Some c /\ stroke (paint c s) = stroke s.
Proof.
  destruct s as [t f st]. unfold paint, paint_fill, paint_stroke, fillable, strokable.
  cbn [tag fill stroke]. intros Ef.
  destruct (includes ["line"; "path"] t) eqn:Es;
    destruct f as [f|]; destruct st as [st|];
    repeat (progress (cbn; rewrite ?Ef, ?Es)); split; reflexivity.
Qed.

Lemma paint_line c s :
  fillable s = false -> strokable s = true ->
  fill (paint c s) = fill s /\
  (is_Some (stroke s) -> fill s = None -> stroke (paint c s) = Some c) /\
  (stroke s = None \/ is_Some (fill s) -> stroke (paint c s) = stroke s).
Proof.
  destruct s as [t f st]. unfold paint, paint_fill, paint_stroke, fillable, strokable.
  cbn [tag fill stroke]. intros Ef Es.
  destruct f as [f|]; destruct st as [st|];
    repeat (progress (cbn; rewrite ?Ef, ?Es)).
  all: split; [reflexivity|]; split;
    [ intros [x Hx] Hf; first [discriminate Hx | discriminate Hf | reflexivity]
    | intros [Hn|[x Hx]]; first [discriminate Hn | discriminate Hx | reflexivity] ].
Qed.

Lemma with_shapes_paint c e :
  with_shapes (map (paint_stroke c)) (with_shapes (map (paint_fill c)) e)
  = with_shapes (map (paint c)) e.
Proof. unfold with_shapes. cbn. rewrite List.map_map. reflexivity. Qed.

Lemma setPartColor_run p c w :
  setPartColor p c w = Ok tt (set_document (alter (with_shapes (map (paint c))) p (document w)) w).
Proof.
  unfold setPartColor, bind, getElementById, read.
  destruct (document w !! p) as [e|] eqn:E.
  - cbn. unfold modify. rewrite set_document_twice, document_set_document.
    rewrite alter_alter_eq. f_equal. f_equal.
    apply alter_ext. intros x _. apply with_shapes_paint.
  - cbn. rewrite alter_id' by exact E. rewrite set_document_id. reflexivity.
Qed.

(** X9. [setPartColor] on an attached region fills every ellipse,
    circle, path and rect with the colour and leaves their strokes
    alone: a path is filled first, so the stroke pass, which wants a
    stroke and no fill, never recolours a path; only a line that has a
    stroke and no fill gets the colour as its stroke.  Painting again
    forgets the earlier colour, and a region that is not attached is
    skipped without an error. *)
Theorem X9_setPartColor (w : World) (partId color : string) :
  setPartColor partId color w
  = Ok tt (set_document (alter (with_shapes (map (paint color))) partId (document w)) w) /\
  (document w !! partId = None -> setPartColor partId color w = Ok tt w) /\
  (forall s, tag (paint color s) = tag s) /\
  (forall s, fillable s = true ->
             fill (paint color s) = Some color /\ stroke (paint color s) = stroke s) /\
  (forall s, tag s = "path" ->
             fill (paint color s) = Some color /\ stroke (paint color s) = stroke s) /\
  (forall s, tag s = "line" ->
             fill (paint color s) = fill s /\
             (is_Some (stroke s) -> fill s = None -> stroke (paint color s) = Some color) /\
             (stroke s = None \/ is_Some (fill s) -> stroke (paint color s) = stroke s)) /\
  (forall c0 s, paint color (paint c0 s) = paint color s).
Proof.
  split; [apply setPartColor_run|]. split.
  { intros E. rewrite setPartColor_run, alter_id' by exact E.
    rewrite set_document_id. reflexivity. }
  split; [intros s; apply paint_tag|].
  split; [intros s; apply paint_fillable|].
  split; [intros s Ht; apply paint_fillable; unfold fillable; rewrite Ht; reflexivity|].
  split; [intros s Ht; apply paint_line; unfold fillable, strokable; rewrite Ht; reflexivity|].
  intros c0 s. apply paint_paint.
Qed.

Lemma X9_setPartColor_witness :
  let outline := mkShape "path" None (Some "#374151") in
  tag outline = "path" /\
  (fill (paint COLORS.REQUIRED_MISSING outline) = Some COLORS.REQUIRED_MISSING /\
   stroke (paint COLORS.REQUIRED_MISSING outline) = stroke outline) /\
  document bare !! "head" = None /\
  setPartColor "head" COLORS.DEFAULT bare = Ok tt bare.
Proof.
  split; [reflexivity|]. split.
  - exact (proj1 (proj2 (proj2 (proj2 (proj2
        (X9_setPartColor bare "head" COLORS.REQUIRED_MISSING)))))
        (mkShape "path" None (Some "#374151")) eq_refl).
  - split; [reflexivity|].
    exact (proj1 (proj2 (X9_setPartColor bare "head" COLORS.DEFAULT)) eq_refl).
Defined.

(** ** Removing tokens, as a filter *)

Lemma fold_remove_filter cs l :
  fold_left (fun l c => token_remove c l) cs l
  = List.filter (fun x => negb (includes cs x)) l.
Proof.
  revert l. induction cs as [|c cs IH]; intros l; simpl.
  - induction l as [|x l IHl]; [reflexivity|]. simpl. rewrite <- IHl. reflexivity.
  - rewrite IH. unfold token_remove.
    induction l as [|x l IHl]; [reflexivity|]. simpl.
    change (includes (c :: cs) x) with (String.eqb x c || includes cs x).
    destruct (String.eqb x c); simpl; [exact IHl|].
    destruct (includes cs x); simpl; rewrite IHl; reflexivity.
Qed.

Lemma filter_twice {A} (f : A -> bool) l : List.filter f (List.filter f l) = List.filter f l.
Proof.
  induction l as [|x l IH]; [reflexivity|]. simpl.
  destruct (f x) eqn:E; simpl; rewrite ?E, IH; reflexivity.
Qed.

Lemma fold_remove_twice cs l :
  fold_left (fun l c => token_remove c l) cs (fold_left (fun l c => token_remove c l) cs l)
  = fold_left (fun l c => token_remove c l) cs l.
Proof. rewrite !fold_remove_filter. apply filter_twice. Qed.

Lemma fold_remove_add cs g l :
  In g cs ->
  fold_left (fun l c => token_remove c l) cs (token_add g l)
  = fold_left (fun l c => token_remove c l) cs l.
Proof.
  intros Hg. rewrite !fold_remove_filter. unfold token_add.
  destruct (includes l g); [reflexivity|].
  rewrite List.filter_app. simpl.
  apply includes_In in Hg. rewrite Hg. simpl. apply app_nil_r.
Qed.

(** ** The display after an update *)

Lemma element_eq e e' :
  classList e = classList e' -> textContent e = textContent e' -> style e = style e' ->
  shapes e = shapes e' -> kids e = kids e' -> e = e'.
Proof. destruct e, e'. cbn. intros. subst. reflexivity. Qed.

Lemma repaint_classList d r p e :
  classList (repaint d r p e)
  = (if shouldGlow d r p
     then if isDetected d p then token_add "glow-green" else token_add "glow-red"
     else fun l => l)
      (fold_left (fun l c => token_remove c l) ["glow-green"; "glow-red"] (classList e)).
Proof. unfold repaint. destruct (shouldGlow d r p); [destruct (isDetected d p)|]; reflexivity. Qed.

Lemma repaint_shapes d r p e :
  shapes (repaint d r p e) = map (paint (partColor d r p)) (shapes e).
Proof.
  unfold repaint. rewrite with_shapes_paint.
  destruct (shouldGlow d r p); [destruct (isDetected d p)|]; reflexivity.
Qed.

Lemma repaint_rest d r p e :
  textContent (repaint d r p e) = textContent e /\
  style (repaint d r p e) = style e /\
  kids (repaint d r p e) = kids e.
Proof.
  unfold repaint. destruct (shouldGlow d r p); [destruct (isDetected d p)|];
    repeat split; reflexivity.
Qed.

Lemma repaint_twice d1 r1 d2 r2 p e :
  repaint d2 r2 p (repaint d1 r1 p e) = repaint d2 r2 p e.
Proof.
  destruct (repaint_rest d1 r1 p e) as (T1 & S1 & K1).
  destruct (repaint_rest d2 r2 p e) as (T2 & S2 & K2).
  destruct (repaint_rest d2 r2 p (repaint d1 r1 p e)) as (T3 & S3 & K3).
  apply element_eq; [| congruence | congruence | | congruence].
  - rewrite !repaint_classList. f_equal.
    destruct (shouldGlow d1 r1 p); [destruct (isDetected d1 p)|];
      rewrite ?fold_remove_add by (simpl; tauto); apply fold_remove_twice.
  - rewrite !repaint_shapes, List.map_map.
    apply List.map_ext. intros s. apply paint_paint.
Qed.

Lemma repaintAll_twice d1 r1 d2 r2 doc :
  repaintAll d2 r2 (repaintAll d1 r1 doc) = repaintAll d2 r2 doc.
Proof.
  apply map_eq. intros p.
  destruct (in_dec string_dec p (Object_keys BODY_PART_MAPPING)) as [Hin|Hout].
  - rewrite !repaintAll_at by exact Hin.
    destruct (doc !! p) as [e|]; [|reflexivity]. cbn. rewrite repaint_twice. reflexivity.
  - rewrite !repaintAll_other by exact Hout. reflexivity.
Qed.

(** X10. With the figure loaded, the display depends on the last update
    only: two updates in a row leave exactly the world that the second
    alone leaves (so repeating an update changes nothing).  Before the
    figure is loaded an update does nothing at all, not even store the
    two lists for the summary. *)
Theorem X10_last_update_wins (w : World) (d1 r1 d2 r2 : list string) :
  (svgLoaded w = true ->
   world_of (updateBodyVisualization d2 r2 (world_of (updateBodyVisualization d1 r1 w)))
   = world_of (updateBodyVisualization d2 r2 w)) /\
  (svgLoaded w = false ->
   updateBodyVisualization d1 r1 w = Ok tt w /\
   getStatusSummary (world_of (updateBodyVisualization d1 r1 w)) = getStatusSummary w).
Proof.
  split.
  - intros H. rewrite (updateBodyVisualization_run d1 r1 w H). cbn [world_of].
    rewrite !updateBodyVisualization_run by exact H.
    cbn [world_of]. rewrite document_set_document.
    change (document (set_current d1 r1 w)) with (document w).
    change (document (set_current d2 r2 w)) with (document w).
    rewrite repaintAll_twice. reflexivity.
  - intros H. assert (E : updateBodyVisualization d1 r1 w = Ok tt w).
    { unfold updateBodyVisualization, bind, read. rewrite H. reflexivity. }
    rewrite E. split; reflexivity.
Qed.

Lemma X10_last_update_wins_witness :
  svgLoaded kiosk = true /\
  world_of (updateBodyVisualization ["Helmet"] ["helmet"; "gloves"]
              (world_of (updateBodyVisualization [] ["shoes"] kiosk)))
  = world_of (updateBodyVisualization ["Helmet"] ["helmet"; "gloves"] kiosk).
Proof.
  split; [reflexivity|].
  exact (proj1 (X10_last_update_wins kiosk [] ["shoes"] ["Helmet"] ["helmet"; "gloves"]) eq_refl).
Defined.

Lemma region_after_update (w : World) (d r : list string) (partId : string) :
  svgLoaded w = true ->
  In partId (Object_keys BODY_PART_MAPPING) ->
  attached w partId = true ->
  let w' := world_of (updateBodyVisualization d r w) in
  has_class w' partId "glow-green"
  = String.eqb (partColor d r partId) COLORS.REQUIRED_DETECTED /\
  has_class w' partId "glow-red"
  = String.eqb (partColor d r partId) COLORS.REQUIRED_MISSING /\
  (exists e, document w' !! partId = Some e /\
             forall s, In s (shapes e) -> fillable s = true ->
                       fill s = Some (partColor d r partId)) /\
  (forall id, ~ In id (Object_keys BODY_PART_MAPPING) -> document w' !! id = document w !! id).
Proof.
  intros Hl Hin Ha. cbv zeta. unfold attached in Ha.
  destruct (document w !! partId) as [e|] eqn:E; [|discriminate].
  rewrite (updateBodyVisualization_run d r w Hl). cbn [world_of].
  unfold has_class. rewrite !document_set_document.
  change (document (set_current d r w)) with (document w).
  rewrite repaintAll_at by exact Hin. rewrite E. cbn [fmap option_fmap option_map].
  rewrite repaint_classList.
  assert (Hgg : includes (fold_left (fun l c => token_remove c l) ["glow-green"; "glow-red"]
                            (classList e)) "glow-green" = false)
    by (apply fold_token_remove_excludes; simpl; tauto).
  assert (Hgr : includes (fold_left (fun l c => token_remove c l) ["glow-green"; "glow-red"]
                            (classList e)) "glow-red" = false)
    by (apply fold_token_remove_excludes; simpl; tauto).
  split; [|split; [|split]].
  - unfold shouldGlow, partColor.
    destruct (isRequired r partId); [destruct (isDetected d partId)|]; cbn [negb].
    + apply includes_token_add.
    + rewrite includes_token_add_other by discriminate. exact Hgg.
    + exact Hgg.
  - unfold shouldGlow, partColor.
    destruct (isRequired r partId); [destruct (isDetected d partId)|]; cbn [negb].
    + rewrite includes_token_add_other by discriminate. exact Hgr.
    + apply includes_token_add.
    + exact Hgr.
  - eexists. split; [reflexivity|]. intros s Hs Hf.
    rewrite repaint_shapes in Hs. apply in_map_iff in Hs. destruct Hs as (s0 & <- & _).
    apply paint_fillable. unfold fillable in *. rewrite paint_tag in Hf. exact Hf.
  - intros id Hid. apply repaintAll_other. exact Hid.
Qed.

(** X11. After an update, an attached region glows green exactly when
    it is coloured as required and detected, glows red exactly when it
    is coloured as required and missing (so never both), and each of
    its ellipses, circles, paths and rects is filled with the colour of
    its status; elements that are not regions are as they were. *)
Theorem X11_glow_follows_colour (w : World) (d r : list string) (partId : string) :
  svgLoaded w = true ->
  In partId (Object_keys BODY_PART_MAPPING) ->
  attached w partId = true ->
  let w' := world_of (updateBodyVisualization d r w) in
  has_class w' partId "glow-green"
  = String.eqb (partColor d r partId) COLORS.REQUIRED_DETECTED /\
  has_class w' partId "glow-red"
  = String.eqb (partColor d r partId) COLORS.REQUIRED_MISSING /\
  (exists e, document w' !! partId = Some e /\
             forall s, In s (shapes e) -> fillable s = true ->
                       fill s = Some (partColor d r partId)) /\
  (forall id, ~ In id (Object_keys BODY_PART_MAPPING) -> document w' !! id = document w !! id).
Proof. apply region_after_update. Qed.

Lemma X11_glow_follows_colour_witness :
  svgLoaded kiosk = true /\
  In "head" (Object_keys BODY_PART_MAPPING) /\
  attached kiosk "head" = true /\
  has_class (world_of (updateBodyVisualization [] ["helmet"] kiosk)) "head" "glow-red"
  = String.eqb (partColor [] ["helmet"] "head") COLORS.REQUIRED_MISSING.
Proof.
  assert (Hin : In "head" (Object_keys BODY_PART_MAPPING)) by (left; reflexivity).
  assert (Ha : attached kiosk "head" = true) by (vm_compute; reflexivity).
  split; [reflexivity|]. split; [exact Hin|]. split; [exact Ha|].
  exact (proj1 (proj2 (X11_glow_follows_colour kiosk [] ["helmet"] "head" eq_refl Hin Ha))).
Defined.

(** ** Resetting the figure *)

Lemma forEach_alter (g : string -> Element -> Element) (body : string -> JS unit) l w :
  (forall x w, body x w = Ok tt (set_document (alter (g x) x (document w)) w)) ->
  forEach l body w
  = Ok tt (set_document (foldl (fun doc p => alter (g p) p doc) (document w) l) w).
Proof.
  intros Hb. revert w. induction l as [|p l IH]; intros w; simpl.
  - rewrite set_document_id. reflexivity.
  - unfold bind. rewrite Hb, IH. reflexivity.
Qed.

Lemma resetVisualization_run w :
  resetVisualization w
  = Ok tt (set_document
             (foldl (fun doc p => alter reset_part p doc) (document w)
                    (Object_keys BODY_PART_MAPPING)) w).
Proof.
  unfold resetVisualization. apply (forEach_alter (fun _ => reset_part)).
  clear w. intros p w. unfold bind at 1. rewrite setPartColor_run.
  unfold bind, getElementById, read. cbn [document set_document].
  rewrite lookup_alter_eq. destruct (document w !! p) as [e|] eqn:E; cbn.
  - unfold modify. rewrite set_document_twice, document_set_document, alter_alter_eq.
    f_equal. f_equal. apply alter_ext. intros x _. unfold reset_part.
    rewrite with_shapes_paint. reflexivity.
  - rewrite !alter_id' by exact E. reflexivity.
Qed.

(** X12. [resetVisualization] completes on every page, loaded or not:
    each attached region loses "glow-green", "glow-red" and
    "attention-animation" and has its fillable shapes painted in the
    default colour, other elements and the pending timers are left alone,
    and the two lists of the last update are kept, so the summary
    still reports the state from before the reset. *)
Theorem X12_reset_keeps_snapshot (w : World) :
  let w' := world_of (resetVisualization w) in
  completes (resetVisualization w) = true /\
  getStatusSummary w' = getStatusSummary w /\
  timers w' = timers w /\
  (forall id, ~ In id (Object_keys BODY_PART_MAPPING) -> document w' !! id = document w !! id) /\
  (forall partId cls,
     In partId (Object_keys BODY_PART_MAPPING) ->
     In cls ["glow-green"; "glow-red"; "attention-animation"] ->
     has_class w' partId cls = false) /\
  (forall partId e,
     In partId (Object_keys BODY_PART_MAPPING) ->
     document w' !! partId = Some e ->
     forall s, In s (shapes e) -> fillable s = true -> fill s = Some COLORS.DEFAULT).
Proof.
  cbv zeta. rewrite resetVisualization_run. cbn [world_of completes].
  split; [reflexivity|]. split; [reflexivity|]. split; [reflexivity|].
  unfold has_class. rewrite !document_set_document.
  split; [|split].
  - intros id Hid. apply foldl_alter_other. exact Hid.
  - intros p cls Hp Hcls.
    rewrite (foldl_alter_at (fun _ => reset_part)) by (apply keys_NoDup || exact Hp).
    destruct (document w !! p) as [e|]; [|reflexivity]. cbn [fmap option_fmap option_map].
    unfold reset_part. cbn [classList with_classList].
    apply fold_token_remove_excludes. exact Hcls.
  - intros p e Hp He s Hs Hf.
    rewrite (foldl_alter_at (fun _ => reset_part)) in He by (apply keys_NoDup || exact Hp).
    destruct (document w !! p) as [e0|]; [|discriminate]. cbn in He. injection He as <-.
    unfold reset_part in Hs. rewrite with_shapes_paint in Hs.
    cbn [shapes with_classList with_shapes] in Hs.
    apply in_map_iff in Hs. destruct Hs as (s0 & <- & _).
    apply paint_fillable. unfold fillable in *. rewrite paint_tag in Hf. exact Hf.
Qed.

Lemma X12_reset_keeps_snapshot_witness :
  let w := world_of (updateBodyVisualization [] ["helmet"] kiosk) in
  In "head" (Object_keys BODY_PART_MAPPING) /\
  In "glow-red" ["glow-green"; "glow-red"; "attention-animation"] /\
  has_class w "head" "glow-red" = true /\
  has_class (world_of (resetVisualization w)) "head" "glow-red" = false /\
  missingList (getStatusSummary (world_of (resetVisualization w))) = ["helmet"].
Proof.
  assert (Hin : In "head" (Object_keys BODY_PART_MAPPING)) by (left; reflexivity).
  assert (Hc : In "glow-red" ["glow-green"; "glow-red"; "attention-animation"])
    by (right; left; reflexivity).
  split; [exact Hin|]. split; [exact Hc|]. split; [vm_compute; reflexivity|].
  pose proof (X12_reset_keeps_snapshot
                (world_of (updateBodyVisualization [] ["helmet"] kiosk))) as H.
  cbv zeta in H. destruct H as (_ & Hs & _ & _ & Hcls & _).
  split; [exact (Hcls "head" "glow-red" Hin Hc)|].
  rewrite Hs. vm_compute. reflexivity.
Defined.

(** ** Detecting more *)

Lemma includes_app a b x : includes (a ++ b) x = includes a x || includes b x.
Proof. unfold includes. apply existsb_app. Qed.

Lemma isDetected_app d d' p : isDetected (d ++ d') p = isDetected d p || isDetected d' p.
Proof.
  unfold isDetected, some_included. rewrite List.map_app.
  induction (partClassesLower p) as [|c l IH]; [reflexivity|]. simpl.
  rewrite IH, includes_app.
  destruct (includes (map toLowerCase d) c), (includes (map toLowerCase d') c),
    (existsb (fun cls => includes (map toLowerCase d) cls) l),
    (existsb (fun cls => includes (map toLowerCase d') cls) l); reflexivity.
Qed.

Lemma filter_length_le {A} (f g : A -> bool) l :
  (forall x, f x = true -> g x = true) ->
  length (List.filter f l) <= length (List.filter g l).
Proof.
  intros H. induction l as [|x l IH]; [reflexivity|]. simpl.
  destruct (f x) eqn:E.
  - rewrite (H x E). simpl. lia.
  - destruct (g x); simpl; lia.
Qed.

(** X13. Detecting more never hurts: with further classes detected (in
    front of or behind those already there) a region coloured as
    required and detected stays so, a region coloured as not required
    stays so, no region turns missing that was not, and the summary's
    missing count does not grow. *)
Theorem X13_detecting_more (d d' r : list string) (partId : string) :
  (partColor d r partId = COLORS.REQUIRED_DETECTED ->
   partColor (d ++ d') r partId = COLORS.REQUIRED_DETECTED /\
   partColor (d' ++ d) r partId = COLORS.REQUIRED_DETECTED) /\
  (partColor d r partId = COLORS.NOT_REQUIRED <->
   partColor (d ++ d') r partId = COLORS.NOT_REQUIRED) /\
  (partColor (d ++ d') r partId = COLORS.REQUIRED_MISSING ->
   partColor d r partId = COLORS.REQUIRED_MISSING) /\
  missing (statusSummary (d ++ d') r) <= missing (statusSummary d r) /\
  (allDetected (statusSummary d r) = true -> allDetected (statusSummary (d ++ d') r) = true).
Proof.
  assert (Hm : missing (statusSummary (d ++ d') r) <= missing (statusSummary d r)).
  { unfold statusSummary; cbn [missing]. apply filter_length_le. intros x.
    rewrite List.map_app, includes_app.
    destruct (includes (map toLowerCase d) x); [discriminate | reflexivity]. }
  unfold partColor. rewrite !isDetected_app.
  destruct (isRequired r partId), (isDetected d partId), (isDetected d' partId); cbn;
    (split; [|split; [|split; [|split]]]);
    try (intros; first [discriminate | split; reflexivity]);
    try (split; intros; first [discriminate | reflexivity]);
    try exact Hm;
    try (unfold statusSummary in *; cbn [allDetected missing] in *;
         intros H; apply Nat.eqb_eq in H; apply Nat.eqb_eq; lia).
Qed.

Lemma X13_detecting_more_witness :
  partColor ["Helmet"] ["helmet"] "head" = COLORS.REQUIRED_DETECTED /\
  partColor (["Helmet"] ++ ["Gloves"]) ["helmet"] "head" = COLORS.REQUIRED_DETECTED.
Proof.
  split; [vm_compute; reflexivity|].
  exact (proj1 (proj1 (X13_detecting_more ["Helmet"] ["Gloves"] ["helmet"] "head")
                  ltac:(vm_compute; reflexivity))).
Defined.

(** ** Nothing missing *)

Lemma allDetected_ppe d r :
  allDetected (statusSummary d r) = true <->
  forall req, In req r -> ppeItemDetected d req = true.
Proof.
  change (allDetected (statusSummary d r))
    with (Nat.eqb (length (missingList (statusSummary d r))) 0).
  rewrite Nat.eqb_eq, missingList_ppe, length_map. split.
  - intros H req Hreq. destruct (ppeItemDetected d req) eqn:E; [reflexivity|].
    assert (Hin : In req (List.filter (fun req => negb (ppeItemDetected d req)) r))
      by (apply filter_In; split; [exact Hreq | rewrite E; reflexivity]).
    destruct (List.filter (fun req => negb (ppeItemDetected d req)) r); [destruct Hin | discriminate].
  - intros H. induction r as [|req r IH]; [reflexivity|]. simpl.
    rewrite (H req) by (left; reflexivity). simpl. apply IH. intros x Hx. apply H. right. exact Hx.
Qed.

Lemma allDetected_no_region d r :
  allDetected (statusSummary d r) = true -> missingRegions d r = [].
Proof.
  intros H. destruct (missingRegions d r) as [|p l] eqn:E; [reflexivity|].
  destruct (missingRegion_class d r p) as (cls & _ & Hcls); [rewrite E; left; reflexivity|].
  change (allDetected (statusSummary d r))
    with (Nat.eqb (length (missingList (statusSummary d r))) 0) in H.
  apply Nat.eqb_eq in H.
  destruct (missingList (statusSummary d r)); [destruct Hcls | discriminate].
Qed.

(** X14. The summary says [allDetected] exactly when every required
    class passes the test of the equipment list.  When it does, no
    region is coloured as missing, and [highlightMissingPPE] completes
    without touching the page or setting a timer. *)
Theorem X14_nothing_missing (w : World) :
  (allDetected (getStatusSummary w) = true <->
   forall req, In req (currentRequired w) -> ppeItemDetected (currentDetected w) req = true) /\
  (allDetected (getStatusSummary w) = true ->
   missingRegions (currentDetected w) (currentRequired w) = [] /\
   highlightMissingPPE w = Ok tt w).
Proof.
  split; [apply allDetected_ppe|]. intros H.
  pose proof (allDetected_no_region _ _ H) as Hn. split; [exact Hn|].
  unfold highlightMissingPPE, bind, read. apply forEach_idle. intros p Hp.
  destruct (isRequired (currentRequired w) p && negb (isDetected (currentDetected w) p)) eqn:E;
    [|reflexivity].
  apply andb_true_iff in E. destruct E as [Er Ed]. apply negb_true_iff in Ed.
  assert (Hin : In p (missingRegions (currentDetected w) (currentRequired w))).
  { unfold missingRegions. apply filter_In. split; [exact Hp|].
    unfold partColor. rewrite Er, Ed. reflexivity. }
  rewrite Hn in Hin. destruct Hin.
Qed.

Lemma X14_nothing_missing_witness :
  let w := world_of (updateBodyVisualization ["HELMET"; "Gloves"] ["helmet"] kiosk) in
  allDetected (getStatusSummary w) = true /\ highlightMissingPPE w = Ok tt w.
Proof.
  assert (H : allDetected (getStatusSummary
                (world_of (updateBodyVisualization ["HELMET"; "Gloves"] ["helmet"] kiosk))) = true)
    by (vm_compute; reflexivity).
  split; [exact H|].
  exact (proj2 (proj2 (X14_nothing_missing _) H)).
Defined.

(** ** The effects of the status handler end as well *)

(** The class goes on, something that completes runs, and the timer
    that takes the class off is set. *)
Lemma settles_add_around r c (m : JS unit) d :
  Steps settles m -> Safe m ->
  Steps settles (classList_add (Some r) c ;; m ;; setTimeout (CbRemoveClass r c) d).
Proof.
  intros Hm Hs w.
  set (w1 := set_document (alter (with_classList (token_add c)) r (document w)) w).
  specialize (Hm w1). specialize (Hs w1).
  destruct (m w1) as [[] w2|w2] eqn:E; [|discriminate]. cbn [world_of] in Hm.
  assert (Hrun : (classList_add (Some r) c ;; m ;; setTimeout (CbRemoveClass r c) d) w
                 = Ok tt (set_timers (timers w2 ++ [((now w2 + d)%N, CbRemoveClass r c)]) w2)).
  { unfold classList_add. rewrite alter_step. fold w1. unfold bind. rewrite E. reflexivity. }
  rewrite Hrun. cbn [world_of]. destruct Hm as ([new Ht] & Cl & Kd).
  change (timers w1) with (timers w) in Ht.
  split; [|split].
  - eexists. cbn [timers set_timers]. rewrite Ht, <- app_assoc. reflexivity.
  - intros id cls Hc H.
    change (has_class (set_timers ?t ?x) id cls) with (has_class x id cls) in H.
    cbn [timers set_timers].
    destruct (Cl id cls Hc H) as [H1|Hcov]; [|right; apply covers_class_app; exact Hcov].
    unfold w1 in H1. rewrite has_class_alter in H1. unfold has_class.
    destruct (document w !! id) as [e|]; [|discriminate].
    destruct (decide (r = id)) as [<-|]; [|left; exact H1].
    cbn [classList with_classList] in H1.
    destruct (includes_token_add_inv _ _ _ H1) as [->|H']; [|left; exact H'].
    right. left. eexists. apply in_or_app. right. left. reflexivity.
  - intros id p H.
    change (has_kid (set_timers ?t ?x) id p) with (has_kid x id p) in H.
    cbn [timers set_timers].
    destruct (Kd id p H) as [H1|Hcov]; [|right; apply covers_node_app; exact Hcov].
    left. unfold w1 in H1. apply has_kid_alter in H1. destruct H1 as (e & He & H1).
    exists e. split; [exact He|]. destruct (decide (r = id)); exact H1.
Qed.

Lemma settles_createParticles r count : Steps settles (createParticles (Some r) count).
Proof. unfold createParticles. settles_auto. Qed.

Lemma Safe_createParticles r count : Safe (createParticles (Some r) count).
Proof. unfold createParticles. safe_auto. Qed.

Lemma settles_playSuccessAnimation : Steps settles playSuccessAnimation.
Proof.
  unfold playSuccessAnimation.
  apply (Steps_bind settles settles_trans);
    [apply (Steps_getElementById settles settles_refl)|].
  intros [r|]; [|intros w; apply settles_refl].
  apply (settles_add_around r "ripple-effect" (createParticles (Some r) 20) 1000);
    [apply settles_createParticles | apply Safe_createParticles].
Qed.

Lemma settles_playDeniedAnimation : Steps settles playDeniedAnimation.
Proof.
  unfold playDeniedAnimation.
  apply (Steps_bind settles settles_trans);
    [apply (Steps_getElementById settles settles_refl)|].
  intros [r|]; [|intros w; apply settles_refl].
  apply (settles_add_then_remove r "shake-animation" 500).
Qed.

Ltac settles_leaf :=
  first [ apply settles_playSuccessAnimation
        | apply settles_playDeniedAnimation
        | apply (Steps_deref settles settles_refl)
        | apply settles_modify; reflexivity
        | apply settles_classList_add_other;
          let H := fresh in
          intros H; repeat (destruct H as [H|H]; [discriminate H|]); exact H ].

Lemma settles_handler_access data :
  state data = "ACCESS_GRANTED" \/ state data = "ACCESS_DENIED" ->
  Steps settles (on_access_status_change data).
Proof.
  intros [Hst|Hst]; unfold on_access_status_change; rewrite Hst;
    cbn [String.eqb Ascii.eqb Bool.eqb]; unfold animateDoorProgress, playAnimation;
    settles_auto; settles_leaf.
Qed.

(** X15. The effects that the status handler itself starts on an
    ACCESS_GRANTED or ACCESS_DENIED event end: once the loop has run
    dry no timer is pending, and a passing class ("ripple-effect",
    "shake-animation", ...) or a particle is on the page only if it
    was there before the event; on a page where every passing class and
    particle had its timer, none is left. *)
Theorem X15_status_effects_end (w : World) (data : AccessStatus) :
  timely w ->
  state data = "ACCESS_GRANTED" \/ state data = "ACCESS_DENIED" ->
  let w' := snd (drain (world_of (on_access_status_change data w))) in
  timers w' = [] /\
  (forall id cls, In cls transient -> has_class w' id cls = true -> has_class w id cls = true) /\
  (forall id p, has_kid w' id p -> has_kid w id p) /\
  (tidy w -> (forall id cls, In cls transient -> has_class w' id cls = false) /\
             (forall id p, ~ has_kid w' id p)).
Proof.
  intros Hw Hst.
  exact (settled_after _ _ w (Grows_on_access_status_change data)
           (settles_handler_access data Hst) Hw).
Qed.

Lemma X15_status_effects_end_witness :
  let data := mkAccessStatus "ACCESS_GRANTED" (Some "Alex") None None in
  timely kiosk /\ tidy kiosk /\
  (state data = "ACCESS_GRANTED" \/ state data = "ACCESS_DENIED") /\
  has_class (snd (drain (world_of (on_access_status_change data kiosk))))
    "access-status" "ripple-effect" = false.
Proof.
  destruct kiosk_tidy as [Hk Ht]. split; [exact Hk|]. split; [exact Ht|].
  split; [left; reflexivity|].
  apply (proj1 (proj2 (proj2 (proj2
           (X15_status_effects_end kiosk (mkAccessStatus "ACCESS_GRANTED" (Some "Alex") None None)
              Hk (or_introl eq_refl)))) Ht)).
  do 9 right. left. reflexivity.
Defined.

(** ** Switches of the controller *)

Lemma token_remove_absent c l : includes l c = false -> token_remove c l = l.
Proof.
  intros H. unfold token_remove. induction l as [|x l IH]; [reflexivity|].
  change (includes (x :: l) c) with (String.eqb c x || includes l c) in H.
  apply orb_false_iff in H. destruct H as [Hx Hl]. simpl.
  rewrite String.eqb_sym, Hx. simpl. rewrite IH by exact Hl. reflexivity.
Qed.

Lemma token_add_remove c l : includes l c = false -> token_remove c (token_add c l) = l.
Proof.
  intros H. unfold token_add. rewrite H. unfold token_remove.
  rewrite List.filter_app. simpl. rewrite String.eqb_refl. simpl.
  rewrite app_nil_r. apply token_remove_absent. exact H.
Qed.

Lemma token_add_twice c l : token_add c (token_add c l) = token_add c l.
Proof. unfold token_add at 1. rewrite includes_token_add. reflexivity. Qed.

Lemma switch_on id cls w e :
  document w !! id = Some e ->
  (element <- getElementById id ;;
   whenPresent element (fun _ => classList_add element cls)) w
  = Ok tt (set_document (alter (with_classList (token_add cls)) id (document w)) w).
Proof. intros E. unfold bind, getElementById, read. rewrite E. reflexivity. Qed.

Lemma switch_off id cls w e :
  document w !! id = Some e ->
  (element <- getElementById id ;;
   whenPresent element (fun _ => classList_remove element [cls])) w
  = Ok tt (set_document (alter (with_classList (token_remove cls)) id (document w)) w).
Proof. intros E. unfold bind, getElementById, read. rewrite E. reflexivity. Qed.

Lemma get_absent id (k : option string -> JS unit) w :
  document w !! id = None -> bind (getElementById id) k w = k None w.
Proof. intros E. unfold bind, getElementById, read. rewrite E. reflexivity. Qed.

Lemma switch_laws id cls w :
  let on := (element <- getElementById id ;;
             whenPresent element (fun _ => classList_add element cls)) in
  let off := (element <- getElementById id ;;
              whenPresent element (fun _ => classList_remove element [cls])) in
  (attached w id = true ->
   has_class (world_of (on w)) id cls = true /\
   has_class (world_of (off w)) id cls = false) /\
  world_of (on (world_of (on w))) = world_of (on w) /\
  (has_class w id cls = false -> world_of (off (world_of (on w))) = w) /\
  (attached w id = false -> on w = Ok tt w /\ off w = Ok tt w) /\
  timers (world_of (on w)) = timers w /\ timers (world_of (off w)) = timers w.
Proof.
  cbv zeta. unfold attached, has_class.
  destruct (document w !! id) as [e|] eqn:E.
  - rewrite (switch_on id cls w e E), (switch_off id cls w e E). cbn [world_of].
    assert (E1 : document (set_document (alter (with_classList (token_add cls)) id (document w)) w)
                 !! id = Some (with_classList (token_add cls) e)).
    { rewrite document_set_document, lookup_alter_eq, E. reflexivity. }
    rewrite (switch_on id cls _ _ E1), (switch_off id cls _ _ E1). cbn [world_of].
    rewrite !set_document_twice, !document_set_document, !lookup_alter_eq, E, !alter_alter_eq.
    cbn [fmap option_fmap option_map classList with_classList].
    split; [intros _; split; [apply includes_token_add | apply includes_token_remove]|].
    split.
    { f_equal. apply alter_ext. intros x _. unfold with_classList. cbn.
      rewrite token_add_twice. reflexivity. }
    split; [|split; [discriminate | split; reflexivity]].
    intros H. transitivity (set_document (document w) w); [|apply set_document_id]. f_equal.
    apply map_eq. intros j. rewrite lookup_alter. destruct (decide (id = j)) as [<-|]; [|reflexivity].
    rewrite E. cbn. f_equal. destruct e as [cl tx st sh kd]. unfold with_classList. cbn in *.
    rewrite token_add_remove by exact H. reflexivity.
  - repeat (rewrite !(get_absent id _ w E); cbn [world_of whenPresent ret]).
    split; [discriminate|]. split; [reflexivity|]. split; [reflexivity|].
    split; [intros _; split; reflexivity | split; reflexivity].
Qed.

(** X16. [pulseElement] and [rotateElement] are switches without a
    timer: on an attached element, enabling puts the class on and
    disabling takes it off; enabling twice is enabling once; enabling
    and then disabling gives back the very page one started from when
    the class was not on; on an element that is not attached both do
    nothing; neither ever sets a timer, so the animation runs until it
    is switched off. *)
Theorem X16_switches (w : World) (id : string) :
  (attached w id = true ->
   has_class (world_of (AnimationController.pulseElement id true w)) id "pulse-animation" = true /\
   has_class (world_of (AnimationController.pulseElement id false w)) id "pulse-animation" = false /\
   has_class (world_of (AnimationController.rotateElement id true w)) id "rotate-animation" = true /\
   has_class (world_of (AnimationController.rotateElement id false w)) id "rotate-animation" = false) /\
  (world_of (AnimationController.pulseElement id true
               (world_of (AnimationController.pulseElement id true w)))
   = world_of (AnimationController.pulseElement id true w)) /\
  (has_class w id "pulse-animation" = false ->
   world_of (AnimationController.pulseElement id false
               (world_of (AnimationController.pulseElement id true w))) = w) /\
  (has_class w id "rotate-animation" = false ->
   world_of (AnimationController.rotateElement id false
               (world_of (AnimationController.rotateElement id true w))) = w) /\
  (attached w id = false ->
   forall enable, AnimationController.pulseElement id enable w = Ok tt w /\
                  AnimationController.rotateElement id enable w = Ok tt w) /\
  (forall enable, timers (world_of (AnimationController.pulseElement id enable w)) = timers w /\
                  timers (world_of (AnimationController.rotateElement id enable w)) = timers w).
Proof.
  pose proof (switch_laws id "pulse-animation" w) as P.
  pose proof (switch_laws id "rotate-animation" w) as R. cbv zeta in P, R.
  destruct P as (P1 & P2 & P3 & P4 & P5 & P6). destruct R as (R1 & R2 & R3 & R4 & R5 & R6).
  split; [|split; [|split; [|split; [|split]]]].
  - intros Ha. destruct (P1 Ha) as [Pa Pb]. destruct (R1 Ha) as [Ra Rb].
    split; [exact Pa|]. split; [exact Pb|]. split; [exact Ra | exact Rb].
  - exact P2.
  - exact P3.
  - exact R3.
  - intros Ha enable. destruct (P4 Ha) as [Pa Pb]. destruct (R4 Ha) as [Ra Rb].
    destruct enable; split; assumption.
  - intros enable. destruct enable; split; assumption.
Qed.

Lemma X16_switches_witness :
  attached kiosk "status-icon" = true /\
  has_class kiosk "status-icon" "pulse-animation" = false /\
  has_class (world_of (AnimationController.pulseElement "status-icon" true kiosk))
    "status-icon" "pulse-animation" = true /\
  world_of (AnimationController.pulseElement "status-icon" false
              (world_of (AnimationController.pulseElement "status-icon" true kiosk))) = kiosk.
Proof.
  assert (Ha : attached kiosk "status-icon" = true) by (vm_compute; reflexivity).
  assert (Hc : has_class kiosk "status-icon" "pulse-animation" = false)
    by (vm_compute; reflexivity).
  split; [exact Ha|]. split; [exact Hc|]. split.
  - exact (proj1 (proj1 (X16_switches kiosk "status-icon") Ha)).
  - exact (proj1 (proj2 (proj2 (X16_switches kiosk "status-icon"))) Hc).
Defined.

(** ** Clearing the animations *)

Lemma clearAllAnimations_run w :
  AnimationController.clearAllAnimations w
  = Ok tt (set_isAnimating false
             (set_document
                (with_classList (fun l => fold_left (fun l c => token_remove c l)
                                            AnimationController.animationClasses l)
                   <$> document w) w)).
Proof. reflexivity. Qed.

(** X17. [clearAllAnimations] completes, lowers the flag and strips the
    fifteen animation classes from every element, keeping every other
    class, the texts, the styles and the particles; it cancels no timer,
    so what a running sequence has scheduled still happens; clearing
    twice is clearing once. *)
Theorem X17_clear_all (w : World) :
  let w' := world_of (AnimationController.clearAllAnimations w) in
  completes (AnimationController.clearAllAnimations w) = true /\
  isAnimating w' = false /\
  timers w' = timers w /\
  (forall id cls, In cls AnimationController.animationClasses -> has_class w' id cls = false) /\
  (forall id cls, ~ In cls AnimationController.animationClasses ->
                  has_class w' id cls = has_class w id cls) /\
  (forall id, text_of w' id = text_of w id /\
              (forall p, style_of w' id p = style_of w id p) /\
              (forall p, has_kid w' id p <-> has_kid w id p)) /\
  world_of (AnimationController.clearAllAnimations w') = w'.
Proof.
  cbv zeta. rewrite !clearAllAnimations_run. cbn [world_of completes].
  split; [reflexivity|]. split; [reflexivity|]. split; [reflexivity|].
  unfold has_class, text_of, style_of, has_kid.
  change (document (set_isAnimating false (set_document ?d w))) with d.
  split; [|split; [|split]].
  - intros id cls Hc. rewrite lookup_fmap.
    destruct (document w !! id) as [e|]; [|reflexivity].
    cbn [fmap option_fmap option_map classList with_classList].
    apply fold_token_remove_excludes. exact Hc.
  - intros id cls Hc. rewrite lookup_fmap.
    destruct (document w !! id) as [e|]; [|reflexivity].
    cbn [fmap option_fmap option_map classList with_classList].
    apply includes_fold_remove_other. exact Hc.
  - intros id. rewrite lookup_fmap.
    destruct (document w !! id) as [e|]; cbn.
    + split; [reflexivity|]. split; [reflexivity|].
      intros p. split; intros (x & [= <-] & Hp); eexists; (split; [reflexivity | exact Hp]).
    + split; [reflexivity|]. split; [reflexivity|].
      intros p. split; intros (x & Hx & _); discriminate Hx.
  - match goal with
    | |- set_isAnimating false (set_document (?f <$> _) _) = _ =>
        transitivity (set_isAnimating false (set_document (f <$> (f <$> document w)) w));
          [reflexivity|]
    end.
    f_equal. f_equal. rewrite <- map_fmap_compose. apply map_fmap_ext.
    intros id e _. unfold compose, with_classList.
    cbn [classList textContent style shapes kids].
    rewrite fold_remove_twice. reflexivity.
Qed.

Lemma X17_clear_all_witness :
  let w := world_of (AnimationController.playAccessDenied "No helmet" kiosk) in
  In "shake-animation" AnimationController.animationClasses /\
  has_class w "access-status" "shake-animation" = true /\
  has_class (world_of (AnimationController.clearAllAnimations w))
    "access-status" "shake-animation" = false.
Proof.
  assert (Hin : In "shake-animation" AnimationController.animationClasses)
    by (right; left; reflexivity).
  split; [exact Hin|]. split; [vm_compute; reflexivity|].
  pose proof (X17_clear_all (world_of (AnimationController.playAccessDenied "No helmet" kiosk)))
    as H.
  cbv zeta in H. exact (proj1 (proj2 (proj2 (proj2 H))) "access-status" "shake-animation" Hin).
Defined.

(** ** Flashing an element *)

(** X18. [flashElement] flashes green for the colour "green" and red
    for every other colour, whatever it is.  On an attached element the
    class goes on and one timer is set, 1500 ms ahead, whose callback
    takes that very class off again; an element that is not attached is
    skipped without an error. *)
Theorem X18_flash_colour (w : World) (id color : string) :
  (color <> "green" -> AnimationController.flashClass color = "flash-red") /\
  AnimationController.flashClass "green" = "flash-green" /\
  (attached w id = true ->
   let cls := AnimationController.flashClass color in
   let w' := world_of (AnimationController.flashElement id color w) in
   completes (AnimationController.flashElement id color w) = true /\
   has_class w' id cls = true /\
   timers w' = timers w ++ [((now w + 1500)%N, CbRemoveClass id cls)] /\
   has_class (world_of (exec (CbRemoveClass id cls) w')) id cls = false) /\
  (attached w id = false -> AnimationController.flashElement id color w = Ok tt w).
Proof.
  split; [|split; [reflexivity|split]].
  - intros Hne. unfold AnimationController.flashClass.
    destruct (String.eqb color "green") eqn:E; [|reflexivity].
    apply String.eqb_eq in E. contradiction.
  - unfold attached. destruct (document w !! id) as [e|] eqn:E; [|discriminate].
    intros _. cbv zeta.
    assert (Hrun : AnimationController.flashElement id color w
                   = Ok tt (set_timers
                              (timers w ++ [((now w + 1500)%N,
                                             CbRemoveClass id (AnimationController.flashClass color))])
                              (set_document
                                 (alter (with_classList
                                           (token_add (AnimationController.flashClass color)))
                                        id (document w)) w))).
    { unfold AnimationController.flashElement, bind, getElementById, read. rewrite E. reflexivity. }
    rewrite Hrun. cbn [world_of completes].
    split; [reflexivity|]. split.
    { unfold has_class. rewrite document_set_timers, document_set_document, lookup_alter_eq, E.
      cbn. apply includes_token_add. }
    split; [reflexivity|]. apply exec_removeClass_off.
  - unfold attached. destruct (document w !! id) as [e|] eqn:E; [discriminate|].
    intros _. unfold AnimationController.flashElement. rewrite (get_absent id _ w E). reflexivity.
Qed.

Lemma X18_flash_colour_witness :
  "Green" <> "green" /\ AnimationController.flashClass "Green" = "flash-red" /\
  attached kiosk "head" = true /\
  has_class (world_of (AnimationController.flashElement "head" "Green" kiosk)) "head" "flash-red"
  = true.
Proof.
  assert (Hne : "Green" <> "green") by discriminate.
  assert (Ha : attached kiosk "head" = true) by (vm_compute; reflexivity).
  split; [exact Hne|].
  split; [exact (proj1 (X18_flash_colour kiosk "head" "Green") Hne)|].
  split; [exact Ha|].
  pose proof (proj1 (proj2 (proj2 (X18_flash_colour kiosk "head" "Green"))) Ha) as H.
  cbv zeta in H. rewrite (proj1 (X18_flash_colour kiosk "head" "Green") Hne) in H.
  exact (proj1 (proj2 H)).
Defined.

(** ** A configuration without requirements *)

(** X19. A configuration update that carries no list of required
    classes, or an empty one, requires nothing: with the figure loaded,
    the handler stores the empty list, every attached region is painted
    as not required and glows neither green nor red, and the summary
    reports nothing required and [allDetected], whatever is detected. *)
Theorem X19_config_without_requirements (w : World) (data : Config) :
  required_classes data = None \/ required_classes data = Some [] ->
  bodyVisualization w = true -> svgLoaded w = true ->
  let w' := world_of (on_config_update data w) in
  completes (on_config_update data w) = true /\
  requiredClasses w' = [] /\
  getStatusSummary w' = mkSummary 0 0 0 [] true /\
  (forall partId,
     In partId (Object_keys BODY_PART_MAPPING) -> attached w partId = true ->
     has_class w' partId "glow-green" = false /\
     has_class w' partId "glow-red" = false /\
     exists e, document w' !! partId = Some e /\
               forall s, In s (shapes e) -> fillable s = true ->
                         fill s = Some COLORS.NOT_REQUIRED).
Proof.
  intros Hreq Hb Hl. cbv zeta.
  assert (Hr : default [] (required_classes data) = []) by (destruct Hreq as [-> | ->]; reflexivity).
  pose proof (on_config_update_run data w Hb Hl) as Hrun. cbv zeta in Hrun.
  rewrite Hr in Hrun. rewrite Hrun. cbn [world_of completes].
  split; [reflexivity|]. split; [reflexivity|]. split; [reflexivity|].
  intros p Hp Ha.
  assert (Hl' : svgLoaded (set_requiredClasses [] w) = true) by exact Hl.
  pose proof (region_after_update (set_requiredClasses [] w) (detectedClasses w) [] p Hl' Hp Ha)
    as H. cbv zeta in H.
  rewrite (updateBodyVisualization_run _ _ _ Hl') in H. cbn [world_of] in H.
  destruct H as (Hg & Hrd & He & _).
  assert (Hc : partColor (detectedClasses w) [] p = COLORS.NOT_REQUIRED).
  { unfold partColor, isRequired, some_included. simpl map.
    assert (Hx : existsb (fun cls => includes [] cls) (partClassesLower p) = false).
    { induction (partClassesLower p) as [|c l IH]; [reflexivity | exact IH]. }
    rewrite Hx. reflexivity. }
  rewrite Hc in Hg, Hrd, He.
  split; [exact Hg|]. split; [exact Hrd|]. exact He.
Qed.

Lemma X19_config_without_requirements_witness :
  let w := world_of (on_config_update (mkConfig (Some ["helmet"])) kiosk) in
  let data := mkConfig None in
  (required_classes data = None \/ required_classes data = Some []) /\
  bodyVisualization w = true /\ svgLoaded w = true /\
  allDetected (getStatusSummary w) = false /\
  getStatusSummary (world_of (on_config_update data w)) = mkSummary 0 0 0 [] true.
Proof.
  split; [left; reflexivity|]. split; [reflexivity|]. split; [reflexivity|].
  split; [vm_compute; reflexivity|].
  exact (proj1 (proj2 (proj2
    (X19_config_without_requirements
       (world_of (on_config_update (mkConfig (Some ["helmet"])) kiosk)) (mkConfig None)
       (or_introl eq_refl) eq_refl eq_refl)))).
Defined.

(** ** The door progress bar *)

Lemma animateDoorProgress_run d w e :
  document w !! "door-progress-bar" = Some e ->
  animateDoorProgress d w
  = Ok tt (set_timers (timers w ++ [((now w + 50)%N, CbFullWidth "door-progress-bar")])
             (set_document
                (alter (with_style "transition" ("width " +:+ pretty d +:+ "s linear"))
                       "door-progress-bar"
                   (alter (with_style "width" "0%") "door-progress-bar" (document w))) w)).
Proof.
  intros E. unfold animateDoorProgress. rewrite (get_step _ _ _ e E).
  unfold set_style. rewrite !alter_step, set_document_twice, document_set_document.
  reflexivity.
Qed.



(** ** An ACCESS_GRANTED event *)

Lemma same_styles_refl w : same_styles w w.
Proof. intros id p. reflexivity. Qed.

Lemma same_styles_trans a b c : same_styles a b -> same_styles b c -> same_styles a c.
Proof. intros H1 H2 id p. rewrite H2, H1. reflexivity. Qed.

Lemma same_styles_plain f o :
  (forall e, style (f e) = style e) -> Steps same_styles (alterElement f o).
Proof.
  intros Hf w id p. destruct o as [r|]; [|reflexivity].
  change (world_of (alterElement f (Some r) w)) with (set_document (alter f r (document w)) w).
  unfold style_of. rewrite document_set_document, lookup_alter.
  destruct (decide (r = id)) as [<-|]; [|reflexivity].
  destruct (document w !! r) as [e|]; [|reflexivity]. cbn. rewrite Hf. reflexivity.
Qed.

Ltac same_styles_leaf :=
  idtac;
  lazymatch goal with
  | |- Steps _ (classList_add _ _) => apply same_styles_plain; reflexivity
  | |- Steps _ (classList_remove _ _) => apply same_styles_plain; reflexivity
  | |- Steps _ (appendChild _ _) => apply same_styles_plain; reflexivity
  | |- _ => intros ? ? ?; reflexivity
  end.

Lemma same_styles_playSuccessAnimation : Steps same_styles playSuccessAnimation.
Proof.
  unfold playSuccessAnimation, createParticles.
  steps_with same_styles_refl same_styles_trans same_styles_leaf.
Qed.

Lemma alter_plain_kids f k (m : gmap string Element) id :
  (forall e, kids (f e) = kids e) -> kids <$> alter f k m !! id = kids <$> m !! id.
Proof.
  intros Hf. rewrite lookup_alter. destruct (decide (k = id)) as [<-|]; [|reflexivity].
  destruct (m !! k) as [e|]; [|reflexivity]. cbn. rewrite Hf. reflexivity.
Qed.

Lemma bind_Ok {A B} (m : JS A) (k : A -> JS B) w a w1 :
  m w = Ok a w1 -> bind m k w = k a w1.
Proof. intros E. unfold bind. rewrite E. reflexivity. Qed.

Lemma playSuccessAnimation_completes w e :
  document w !! "access-status" = Some e -> completes (playSuccessAnimation w) = true.
Proof.
  intros E. unfold playSuccessAnimation. rewrite (get_step _ _ _ e E).
  assert (Hs : Safe (classList_add (Some "access-status") "ripple-effect" ;;
                     createParticles (Some "access-status") 20 ;;
                     s <- deref (Some "access-status") ;;
                     setTimeout (CbRemoveClass s "ripple-effect") 1000))
    by (unfold createParticles; safe_auto; intros ?; reflexivity).
  apply Hs.
Qed.



(** ** Initialising the figure *)

Lemma initBodyVisualization_run w :
  initBodyVisualization w
  = Ok tt (set_document
             (foldl (fun doc p => alter init_part p doc) (document w)
                    (Object_keys BODY_PART_MAPPING))
             (set_svgLoaded true w)).
Proof.
  unfold initBodyVisualization. rewrite modify_step.
  apply (forEach_alter (fun _ => init_part) _ _ (set_svgLoaded true w)).
  clear w. intros p w. unfold bind at 1, getElementById, read.
  destruct (document w !! p) as [e|] eqn:E; cbn [whenPresent].
  - unfold classList_add. rewrite alter_step, setPartColor_run.
    rewrite set_document_twice, document_set_document, alter_alter_eq. reflexivity.
  - rewrite alter_id' by exact E. rewrite set_document_id. reflexivity.
Qed.

(** X22. [initBodyVisualization] completes on every page and marks the
    figure as loaded: each attached region gets the class
    "body-part-transition" and its fillable shapes the default colour,
    other elements are left alone, no timer is set and the lists kept
    for the summary are not touched; initialising twice is initialising
    once.  From then on an update is no longer ignored. *)
Theorem X22_init (w : World) :
  let w' := world_of (initBodyVisualization w) in
  completes (initBodyVisualization w) = true /\
  svgLoaded w' = true /\
  timers w' = timers w /\
  getStatusSummary w' = getStatusSummary w /\
  (forall id, ~ In id (Object_keys BODY_PART_MAPPING) -> document w' !! id = document w !! id) /\
  (forall partId,
     In partId (Object_keys BODY_PART_MAPPING) -> attached w partId = true ->
     has_class w' partId "body-part-transition" = true /\
     exists e, document w' !! partId = Some e /\
               forall s, In s (shapes e) -> fillable s = true -> fill s = Some COLORS.DEFAULT) /\
  world_of (initBodyVisualization w') = w' /\
  (forall d r, currentDetected (world_of (updateBodyVisualization d r w')) = d /\
               currentRequired (world_of (updateBodyVisualization d r w')) = r).
Proof.
  cbv zeta. rewrite !initBodyVisualization_run. cbn [world_of completes].
  split; [reflexivity|]. split; [reflexivity|]. split; [reflexivity|]. split; [reflexivity|].
  unfold has_class, attached. rewrite !document_set_document.
  split; [intros id Hid; apply foldl_alter_other; exact Hid|].
  split; [|split].
  - intros p Hp Ha.
    rewrite (foldl_alter_at (fun _ => init_part)) by (apply keys_NoDup || exact Hp).
    destruct (document w !! p) as [e|]; [|discriminate]. cbn [fmap option_fmap option_map].
    split; [apply includes_token_add|].
    eexists. split; [reflexivity|]. intros s Hs Hf.
    unfold init_part in Hs. cbn [shapes with_shapes with_classList] in Hs.
    apply in_map_iff in Hs. destruct Hs as (s0 & <- & _).
    apply paint_fillable. unfold fillable in *. rewrite paint_tag in Hf. exact Hf.
  - match goal with
    | |- set_document ?d (set_svgLoaded true ?w0) = ?rhs =>
        transitivity (set_document d (set_svgLoaded true w)); [reflexivity|]
    end.
    f_equal. apply map_eq. intros p.
    destruct (in_dec string_dec p (Object_keys BODY_PART_MAPPING)) as [Hin|Hout].
    + rewrite !(foldl_alter_at (fun _ => init_part)) by (apply keys_NoDup || exact Hin).
      destruct (document w !! p) as [e|]; [|reflexivity].
      cbn [fmap option_fmap option_map]. f_equal.
      unfold init_part. apply element_eq; cbn [classList textContent style shapes kids
                                                with_shapes with_classList];
        try reflexivity.
      * apply token_add_twice.
      * rewrite List.map_map. apply List.map_ext. intros s. apply paint_paint.
    + rewrite !foldl_alter_other by exact Hout. reflexivity.
  - intros d r.
    match goal with
    | |- context [updateBodyVisualization d r ?w0] =>
        rewrite (updateBodyVisualization_run d r w0 eq_refl)
    end.
    split; reflexivity.
Qed.

Lemma X22_init_witness :
  let w := loaded (page panel_ids (Object_keys BODY_PART_MAPPING) raw_part) true in
  In "head" (Object_keys BODY_PART_MAPPING) /\ attached w "head" = true /\
  svgLoaded w = false /\
  has_class w "head" "body-part-transition" = false /\
  has_class (world_of (initBodyVisualization w)) "head" "body-part-transition" = true.
Proof.
  assert (Hin : In "head" (Object_keys BODY_PART_MAPPING)) by (left; reflexivity).
  assert (Ha : attached (loaded (page panel_ids (Object_keys BODY_PART_MAPPING) raw_part) true)
                 "head" = true) by (vm_compute; reflexivity).
  split; [exact Hin|]. split; [exact Ha|]. split; [reflexivity|].
  split; [vm_compute; reflexivity|].
  pose proof (X22_init (loaded (page panel_ids (Object_keys BODY_PART_MAPPING) raw_part) true))
    as H.
  cbv zeta in H.
  exact (proj1 (proj1 (proj2 (proj2 (proj2 (proj2 (proj2 H))))) "head" Hin Ha)).
Defined.

(** ** The PIN keypad *)

Lemma dot_id_inj i j : Keypad.dot_id i = Keypad.dot_id j -> i = j.
Proof.
  unfold Keypad.dot_id. cbn [append]. intros [= H]. exact (inj pretty _ _ H).
Qed.

Lemma updateDots_keeps n i p :
  Keypad.pinValue (Keypad.pad_of (Keypad.updateDots n i p)) = Keypad.pinValue p /\
  Keypad.autoSubmits (Keypad.pad_of (Keypad.updateDots n i p)) = Keypad.autoSubmits p.
Proof.
  revert i p. induction n as [|n IH]; intros i p; simpl; [split; reflexivity|].
  destruct (Keypad.page p !! Keypad.dot_id i); [|split; reflexivity].
  destruct (IH (S i) (Keypad.mkPad (Keypad.pinValue p)
              (alter (with_classList (Keypad.light (Keypad.pinValue p) i)) (Keypad.dot_id i)
                     (Keypad.page p)) (Keypad.autoSubmits p))) as [H1 H2].
  split; [exact H1 | exact H2].
Qed.

Lemma updateDots_thrown n i p k :
  i <= k < i + n -> Keypad.page p !! Keypad.dot_id k = None ->
  Keypad.returned (Keypad.updateDots n i p) = false.
Proof.
  revert i p. induction n as [|n IH]; intros i p Hk Hnone; [lia|]. simpl.
  destruct (Keypad.page p !! Keypad.dot_id i) as [e|] eqn:E; [|reflexivity].
  apply IH.
  - destruct (Nat.eq_dec k i) as [->|]; [congruence | lia].
  - cbn [Keypad.page]. rewrite lookup_alter_None. exact Hnone.
Qed.

Lemma dots_fold_other pin (l : list nat) (pg : gmap string Element) id :
  (forall k, In k l -> id <> Keypad.dot_id k) ->
  foldl (fun pg k => alter (with_classList (Keypad.light pin k)) (Keypad.dot_id k) pg) pg l !! id
  = pg !! id.
Proof.
  revert pg. induction l as [|x l IH]; intros pg H; simpl; [reflexivity|].
  rewrite IH by (intros k Hk; apply H; right; exact Hk).
  apply lookup_alter_ne. intros E. exact (H x (or_introl eq_refl) (eq_sym E)).
Qed.

Lemma dots_fold_at pin (l : list nat) (pg : gmap string Element) k :
  List.NoDup l -> In k l ->
  foldl (fun pg k => alter (with_classList (Keypad.light pin k)) (Keypad.dot_id k) pg) pg l
    !! Keypad.dot_id k
  = with_classList (Keypad.light pin k) <$> pg !! Keypad.dot_id k.
Proof.
  revert pg. induction l as [|x l IH]; intros pg Hnd Hk; [destruct Hk|].
  inversion Hnd as [|? ? Hx Hl]; subst. simpl. destruct Hk as [-> | Hk].
  - rewrite dots_fold_other; [apply lookup_alter_eq|].
    intros j Hj E. apply dot_id_inj in E. subst. exact (Hx Hj).
  - rewrite IH by assumption. rewrite lookup_alter_ne; [reflexivity|].
    intros E. apply dot_id_inj in E. subst. exact (Hx Hk).
Qed.

Lemma updateDots_run n i p :
  (forall k, i <= k < i + n -> is_Some (Keypad.page p !! Keypad.dot_id k)) ->
  Keypad.updateDots n i p
  = Keypad.Returned
      (Keypad.mkPad (Keypad.pinValue p)
         (foldl (fun pg k => alter (with_classList (Keypad.light (Keypad.pinValue p) k))
                               (Keypad.dot_id k) pg)
                (Keypad.page p) (seq i n))
         (Keypad.autoSubmits p)).
Proof.
  revert i p. induction n as [|n IH]; intros i p H; simpl; [destruct p; reflexivity|].
  destruct (H i ltac:(lia)) as [e E]. rewrite E.
  rewrite IH; [reflexivity|].
  intros k Hk. cbn [Keypad.page]. apply not_eq_None_Some. rewrite lookup_alter_None.
  apply not_eq_None_Some. apply H. lia.
Qed.

(** What [updateDisplay] leaves on a page with the six dots. *)
Lemma updateDisplay_run p :
  Keypad.dotted p ->
  exists pg,
    Keypad.updateDisplay p = Keypad.Returned (Keypad.mkPad (Keypad.pinValue p) pg
                                                (Keypad.autoSubmits p)) /\
    (forall k, 1 <= k <= 6 ->
       pg !! Keypad.dot_id k
       = with_classList (Keypad.light (Keypad.pinValue p) k) <$> Keypad.page p !! Keypad.dot_id k) /\
    (forall id, (forall k, 1 <= k <= 6 -> id <> Keypad.dot_id k) ->
       pg !! id = Keypad.page p !! id).
Proof.
  intros Hd. eexists. split; [|split].
  - unfold Keypad.updateDisplay. apply updateDots_run.
    intros k Hk. apply Hd. unfold Keypad.MAX_PIN_LENGTH in *. lia.
  - intros k Hk. apply dots_fold_at; [apply List.seq_NoDup | apply in_seq; unfold Keypad.MAX_PIN_LENGTH; lia].
  - intros id Hid. apply dots_fold_other. intros k Hk. apply in_seq in Hk.
    apply Hid. unfold Keypad.MAX_PIN_LENGTH in Hk. lia.
Qed.

Lemma light_filled pin k l :
  includes (Keypad.light pin k l) "filled" = (k <=? String.length pin)%nat.
Proof.
  unfold Keypad.light. destruct (k <=? String.length pin)%nat;
    [apply includes_token_add | apply includes_token_remove].
Qed.

Lemma updateDisplay_shows p :
  Keypad.dotted p ->
  Keypad.returned (Keypad.updateDisplay p) = true /\
  Keypad.dotted (Keypad.pad_of (Keypad.updateDisplay p)) /\
  Keypad.shows_length (Keypad.pad_of (Keypad.updateDisplay p)).
Proof.
  intros Hd. destruct (updateDisplay_run p Hd) as (pg & -> & Hat & _).
  cbn [Keypad.pad_of Keypad.returned]. split; [reflexivity|]. split.
  - intros k Hk. cbn [Keypad.page]. rewrite Hat by exact Hk.
    destruct (Hd k Hk) as [e ->]. eauto.
  - intros k Hk. unfold Keypad.filled. cbn [Keypad.page Keypad.pinValue].
    rewrite Hat by exact Hk. destruct (Hd k Hk) as [e ->].
    cbn [fmap option_fmap option_map classList with_classList]. apply light_filled.
Qed.


Lemma addDigit_run digit p :
  Keypad.dotted p -> String.length (Keypad.pinValue p) < 6 ->
  exists pg,
    Keypad.addDigit digit p
    = Keypad.Returned
        (Keypad.mkPad (Keypad.pinValue p +:+ digit) pg
           (if (String.length (Keypad.pinValue p +:+ digit) =? 6)%nat
            then S (Keypad.autoSubmits p) else Keypad.autoSubmits p)) /\
    (forall k, 1 <= k <= 6 ->
       pg !! Keypad.dot_id k
       = with_classList (Keypad.light (Keypad.pinValue p +:+ digit) k)
           <$> Keypad.page p !! Keypad.dot_id k) /\
    (forall id, (forall k, 1 <= k <= 6 -> id <> Keypad.dot_id k) ->
       pg !! id = Keypad.page p !! id).
Proof.
  intros Hd Hlen. unfold Keypad.addDigit, Keypad.MAX_PIN_LENGTH.
  destruct (Nat.ltb_spec (String.length (Keypad.pinValue p)) 6) as [_|]; [|lia].
  destruct (updateDisplay_run
              (Keypad.mkPad (Keypad.pinValue p +:+ digit) (Keypad.page p) (Keypad.autoSubmits p))
              Hd) as (pg & -> & Hat & Hother).
  exists pg. cbn [Keypad.pinValue Keypad.page Keypad.autoSubmits] in *.
  split; [|split; assumption].
  destruct (String.length (Keypad.pinValue p +:+ digit) =? 6)%nat; reflexivity.
Qed.

Lemma deleteDigit_run p :
  Keypad.dotted p -> 0 < String.length (Keypad.pinValue p) ->
  exists pg,
    Keypad.deleteDigit p
    = Keypad.Returned (Keypad.mkPad (Keypad.drop_last (Keypad.pinValue p)) pg
                         (Keypad.autoSubmits p)) /\
    (forall k, 1 <= k <= 6 ->
       pg !! Keypad.dot_id k
       = with_classList (Keypad.light (Keypad.drop_last (Keypad.pinValue p)) k)
           <$> Keypad.page p !! Keypad.dot_id k) /\
    (forall id, (forall k, 1 <= k <= 6 -> id <> Keypad.dot_id k) ->
       pg !! id = Keypad.page p !! id).
Proof.
  intros Hd Hlen. unfold Keypad.deleteDigit.
  destruct (Nat.ltb_spec 0 (String.length (Keypad.pinValue p))) as [_|]; [|lia].
  exact (updateDisplay_run
           (Keypad.mkPad (Keypad.drop_last (Keypad.pinValue p)) (Keypad.page p)
              (Keypad.autoSubmits p)) Hd).
Qed.

Lemma shown_of_run pin pg n (page0 : gmap string Element) :
  (forall k, 1 <= k <= 6 -> is_Some (page0 !! Keypad.dot_id k)) ->
  (forall k, 1 <= k <= 6 ->
     pg !! Keypad.dot_id k = with_classList (Keypad.light pin k) <$> page0 !! Keypad.dot_id k) ->
  Keypad.dotted (Keypad.mkPad pin pg n) /\ Keypad.shows_length (Keypad.mkPad pin pg n).
Proof.
  intros Hd Hat. split.
  - intros k Hk. cbn [Keypad.page]. rewrite Hat by exact Hk. destruct (Hd k Hk) as [e ->]. eauto.
  - intros k Hk. unfold Keypad.filled. cbn [Keypad.page Keypad.pinValue].
    rewrite Hat by exact Hk. destruct (Hd k Hk) as [e ->].
    cbn [fmap option_fmap option_map classList with_classList]. apply light_filled.
Qed.

(** X23. On a page with the six dots, [updateDisplay] returns and
    leaves dot i filled exactly when i is at most the length of the PIN;
    so does [addDigit] when it accepts the digit and [deleteDigit] when
    there is something to delete, and since a call that changes nothing
    leaves the dots alone, a display that shows the length of the PIN
    keeps doing so through every [addDigit] and [deleteDigit]. *)
Theorem X23_dots_show_length (p : Keypad.Pad) (digit : string) :
  Keypad.dotted p ->
  (Keypad.returned (Keypad.updateDisplay p) = true /\
   Keypad.shows_length (Keypad.pad_of (Keypad.updateDisplay p))) /\
  (String.length (Keypad.pinValue p) < 6 ->
   Keypad.returned (Keypad.addDigit digit p) = true /\
   Keypad.shows_length (Keypad.pad_of (Keypad.addDigit digit p))) /\
  (0 < String.length (Keypad.pinValue p) ->
   Keypad.returned (Keypad.deleteDigit p) = true /\
   Keypad.shows_length (Keypad.pad_of (Keypad.deleteDigit p))) /\
  (Keypad.shows_length p ->
   Keypad.returned (Keypad.addDigit digit p) = true /\
   Keypad.returned (Keypad.deleteDigit p) = true /\
   Keypad.shows_length (Keypad.pad_of (Keypad.addDigit digit p)) /\
   Keypad.shows_length (Keypad.pad_of (Keypad.deleteDigit p)) /\
   Keypad.dotted (Keypad.pad_of (Keypad.addDigit digit p)) /\
   Keypad.dotted (Keypad.pad_of (Keypad.deleteDigit p))).
Proof.
  intros Hd.
  assert (Ha : String.length (Keypad.pinValue p) < 6 ->
               Keypad.returned (Keypad.addDigit digit p) = true /\
               Keypad.shows_length (Keypad.pad_of (Keypad.addDigit digit p)) /\
               Keypad.dotted (Keypad.pad_of (Keypad.addDigit digit p))).
  { intros Hlen. destruct (addDigit_run digit p Hd Hlen) as (pg & -> & Hat & _).
    cbn [Keypad.pad_of Keypad.returned]. split; [reflexivity|].
    destruct (shown_of_run _ pg
                (if (String.length (Keypad.pinValue p +:+ digit) =? 6)%nat
                 then S (Keypad.autoSubmits p) else Keypad.autoSubmits p) _ Hd Hat) as [D S'].
    split; assumption. }
  assert (Hdel : 0 < String.length (Keypad.pinValue p) ->
                 Keypad.returned (Keypad.deleteDigit p) = true /\
                 Keypad.shows_length (Keypad.pad_of (Keypad.deleteDigit p)) /\
                 Keypad.dotted (Keypad.pad_of (Keypad.deleteDigit p))).
  { intros Hlen. destruct (deleteDigit_run p Hd Hlen) as (pg & -> & Hat & _).
    cbn [Keypad.pad_of Keypad.returned]. split; [reflexivity|].
    destruct (shown_of_run _ pg (Keypad.autoSubmits p) _ Hd Hat) as [D S']. split; assumption. }
  split; [destruct (updateDisplay_shows p Hd) as (R & _ & S'); split; assumption|].
  split; [intros Hlen; destruct (Ha Hlen) as (R & S' & _); split; assumption|].
  split; [intros Hlen; destruct (Hdel Hlen) as (R & S' & _); split; assumption|].
  intros Hs.
  assert (Ha' : Keypad.returned (Keypad.addDigit digit p) = true /\
                Keypad.shows_length (Keypad.pad_of (Keypad.addDigit digit p)) /\
                Keypad.dotted (Keypad.pad_of (Keypad.addDigit digit p))).
  { destruct (Nat.lt_ge_cases (String.length (Keypad.pinValue p)) 6) as [Hlt|Hge];
      [exact (Ha Hlt)|].
    unfold Keypad.addDigit, Keypad.MAX_PIN_LENGTH.
    destruct (Nat.ltb_spec (String.length (Keypad.pinValue p)) 6) as [|_]; [lia|].
    split; [reflexivity|]. split; assumption. }
  assert (Hd' : Keypad.returned (Keypad.deleteDigit p) = true /\
                Keypad.shows_length (Keypad.pad_of (Keypad.deleteDigit p)) /\
                Keypad.dotted (Keypad.pad_of (Keypad.deleteDigit p))).
  { destruct (Nat.lt_ge_cases 0 (String.length (Keypad.pinValue p))) as [Hlt|Hge];
      [exact (Hdel Hlt)|].
    unfold Keypad.deleteDigit.
    destruct (Nat.ltb_spec 0 (String.length (Keypad.pinValue p))) as [|_]; [lia|].
    split; [reflexivity|]. split; assumption. }
  destruct Ha' as (A1 & A2 & A3). destruct Hd' as (D1 & D2 & D3).
  repeat split; assumption.
Qed.

Lemma fresh_dotted : Keypad.dotted Keypad.fresh.
Proof.
  intros k Hk. unfold Keypad.MAX_PIN_LENGTH in Hk.
  assert (Hin : In k [1; 2; 3; 4; 5; 6]) by (simpl; lia).
  repeat (destruct Hin as [<-|Hin]; [vm_compute; eauto|]). destruct Hin.
Qed.

Lemma X23_dots_show_length_witness :
  Keypad.dotted Keypad.fresh /\
  String.length (Keypad.pinValue Keypad.fresh) < 6 /\
  Keypad.shows_length (Keypad.pad_of (Keypad.addDigit "7" Keypad.fresh)).
Proof.
  split; [exact fresh_dotted|].
  assert (Hlen : String.length (Keypad.pinValue Keypad.fresh) < 6) by (simpl; lia).
  split; [exact Hlen|].
  exact (proj2 (proj1 (proj2 (X23_dots_show_length Keypad.fresh "7" fresh_dotted)) Hlen)).
Defined.

Lemma length_append a b : String.length (a +:+ b) = String.length a + String.length b.
Proof. induction a as [|c a IH]; simpl; [reflexivity | rewrite IH; reflexivity]. Qed.

Lemma addDigit_full digit p :
  6 <= String.length (Keypad.pinValue p) -> Keypad.addDigit digit p = Keypad.Returned p.
Proof.
  intros H. unfold Keypad.addDigit, Keypad.MAX_PIN_LENGTH.
  destruct (Nat.ltb_spec (String.length (Keypad.pinValue p)) 6); [lia | reflexivity].
Qed.

Lemma typeAll_run ds p :
  Keypad.dotted p -> Keypad.shows_length p ->
  Forall (fun d => String.length d = 1) ds ->
  String.length (Keypad.pinValue p) <= 6 ->
  exists pg n,
    Keypad.typeAll ds p
    = Keypad.Returned
        (Keypad.mkPad
           (fold_left (fun s d => s +:+ d)
                      (firstn (6 - String.length (Keypad.pinValue p)) ds) (Keypad.pinValue p))
           pg n) /\
    n = (if (String.length (Keypad.pinValue p) <? 6)%nat
            && (6 <=? String.length (Keypad.pinValue p) + length ds)%nat
         then S (Keypad.autoSubmits p) else Keypad.autoSubmits p) /\
    Keypad.shows_length
      (Keypad.mkPad
         (fold_left (fun s d => s +:+ d)
                    (firstn (6 - String.length (Keypad.pinValue p)) ds) (Keypad.pinValue p))
         pg n).
Proof.
  revert p. induction ds as [|d ds IH]; intros p Hd Hs Hds Hlen.
  - exists (Keypad.page p), (Keypad.autoSubmits p).
    rewrite firstn_nil. cbn [fold_left Keypad.typeAll length].
    split; [destruct p; reflexivity|]. split; [|destruct p; exact Hs].
    destruct (Nat.ltb_spec (String.length (Keypad.pinValue p)) 6);
      destruct (Nat.leb_spec 6 (String.length (Keypad.pinValue p) + 0)); cbn; try reflexivity; lia.
  - inversion Hds as [|? ? Hd1 Hds']; subst.
    destruct (Nat.lt_ge_cases (String.length (Keypad.pinValue p)) 6) as [Hlt|Hge].
    + destruct (addDigit_run d p Hd Hlt) as (pg1 & Hrun & Hat & _).
      cbn [Keypad.typeAll]. rewrite Hrun.
      set (n1 := if (String.length (Keypad.pinValue p +:+ d) =? 6)%nat
                 then S (Keypad.autoSubmits p) else Keypad.autoSubmits p) in *.
      destruct (shown_of_run (Keypad.pinValue p +:+ d) pg1 n1 _ Hd Hat) as [D1 S1].
      assert (L1 : String.length (Keypad.pinValue p +:+ d) = S (String.length (Keypad.pinValue p)))
        by (rewrite length_append, Hd1; lia).
      destruct (IH (Keypad.mkPad (Keypad.pinValue p +:+ d) pg1 n1) D1 S1 Hds')
        as (pg & n & Hty & Hn & Hsh).
      { cbn [Keypad.pinValue]. lia. }
      cbn [Keypad.pinValue Keypad.autoSubmits] in Hty, Hn, Hsh.
      assert (Hfirst : firstn (6 - String.length (Keypad.pinValue p)) (d :: ds)
                       = d :: firstn (6 - String.length (Keypad.pinValue p +:+ d)) ds).
      { rewrite L1. destruct (6 - String.length (Keypad.pinValue p)) as [|m] eqn:Em; [lia|].
        replace (6 - S (String.length (Keypad.pinValue p))) with m by lia. reflexivity. }
      exists pg, n. rewrite Hfirst. cbn [fold_left]. split; [exact Hty|]. split; [|exact Hsh].
      rewrite Hn. unfold n1. rewrite L1. cbn [length].
      destruct (Nat.ltb_spec (S (String.length (Keypad.pinValue p))) 6);
        destruct (Nat.leb_spec 6 (S (String.length (Keypad.pinValue p)) + length ds));
        destruct (Nat.eqb_spec (S (String.length (Keypad.pinValue p))) 6);
        destruct (Nat.ltb_spec (String.length (Keypad.pinValue p)) 6);
        destruct (Nat.leb_spec 6 (String.length (Keypad.pinValue p) + S (length ds)));
        cbn; try reflexivity; lia.
    + cbn [Keypad.typeAll]. rewrite (addDigit_full d p Hge).
      destruct (IH p Hd Hs Hds' Hlen) as (pg & n & Hty & Hn & Hsh).
      exists pg, n.
      replace (6 - String.length (Keypad.pinValue p)) with 0 in * by lia.
      rewrite firstn_O in *. split; [exact Hty|]. split; [|exact Hsh].
      rewrite Hn.
      destruct (Nat.ltb_spec (String.length (Keypad.pinValue p)) 6); [lia|]. reflexivity.
Qed.

Lemma Forall_firstn_keeps {A} (P : A -> Prop) n l : Forall P l -> Forall P (firstn n l).
Proof.
  revert l. induction n as [|n IH]; intros l H; [constructor|].
  destruct H as [|x l Hx Hl]; [constructor|]. simpl. constructor; [exact Hx | apply IH; exact Hl].
Qed.

Lemma length_typed ds s :
  Forall (fun d => String.length d = 1) ds ->
  String.length (fold_left (fun s d => s +:+ d) ds s) = String.length s + length ds.
Proof.
  revert s. induction ds as [|d ds IH]; intros s H; simpl; [lia|].
  inversion H as [|? ? Hd Hds]; subst. rewrite IH by exact Hds.
  rewrite length_append, Hd. lia.
Qed.

(** X24. Typing one-character digits on an empty keypad with its six
    dots: every call returns, the PIN is the first six digits typed
    (further digits are ignored), the dots show its length, and
    [setTimeout(submitPIN, 300)] is called exactly once if six or more
    digits were typed and not at all otherwise.  A digit string that
    takes the PIN from below six to above six is accepted, schedules no
    submission, and from then on every digit is ignored. *)
Theorem X24_six_digits (p : Keypad.Pad) (ds : list string) (digit : string) :
  Keypad.dotted p ->
  (Keypad.shows_length p -> Keypad.pinValue p = "" ->
   Forall (fun d => String.length d = 1) ds ->
   let p' := Keypad.pad_of (Keypad.typeAll ds p) in
   Keypad.returned (Keypad.typeAll ds p) = true /\
   Keypad.pinValue p' = fold_left (fun s d => s +:+ d) (firstn 6 ds) "" /\
   String.length (Keypad.pinValue p') = Nat.min 6 (length ds) /\
   Keypad.autoSubmits p'
   = (if (6 <=? length ds)%nat then S (Keypad.autoSubmits p) else Keypad.autoSubmits p) /\
   Keypad.shows_length p') /\
  (String.length (Keypad.pinValue p) < 6 ->
   6 < String.length (Keypad.pinValue p) + String.length digit ->
   let p' := Keypad.pad_of (Keypad.addDigit digit p) in
   Keypad.returned (Keypad.addDigit digit p) = true /\
   6 < String.length (Keypad.pinValue p') /\
   Keypad.autoSubmits p' = Keypad.autoSubmits p /\
   forall d, Keypad.addDigit d p' = Keypad.Returned p').
Proof.
  intros Hd. split.
  - intros Hs Hpin Hds. cbv zeta.
    destruct (typeAll_run ds p Hd Hs Hds) as (pg & n & -> & Hn & Hsh); [rewrite Hpin; simpl; lia|].
    rewrite Hpin in *. cbn [String.length Nat.sub Nat.add] in *.
    cbn [Keypad.pad_of Keypad.returned Keypad.pinValue Keypad.autoSubmits].
    split; [reflexivity|]. split; [reflexivity|]. split.
    { rewrite length_typed by (apply Forall_firstn_keeps; exact Hds).
      rewrite length_firstn. simpl. reflexivity. }
    split; [|exact Hsh]. rewrite Hn. reflexivity.
  - intros Hlt Hover. cbv zeta.
    destruct (addDigit_run digit p Hd Hlt) as (pg & -> & _).
    cbn [Keypad.pad_of Keypad.returned Keypad.pinValue Keypad.autoSubmits].
    assert (L : String.length (Keypad.pinValue p +:+ digit)
                = String.length (Keypad.pinValue p) + String.length digit)
      by apply length_append.
    destruct (Nat.eqb_spec (String.length (Keypad.pinValue p +:+ digit)) 6) as [E|_]; [lia|].
    split; [reflexivity|]. split; [lia|]. split; [reflexivity|].
    intros d. apply addDigit_full. cbn [Keypad.pinValue]. lia.
Qed.

Lemma fresh_shows_length : Keypad.shows_length Keypad.fresh.
Proof.
  intros k Hk. unfold Keypad.MAX_PIN_LENGTH in Hk.
  assert (Hin : In k [1; 2; 3; 4; 5; 6]) by (simpl; lia).
  repeat (destruct Hin as [<-|Hin]; [vm_compute; reflexivity|]). destruct Hin.
Qed.

Lemma X24_six_digits_witness :
  let ds := ["1"; "2"; "3"; "4"; "5"; "6"; "7"] in
  Keypad.dotted Keypad.fresh /\ Keypad.shows_length Keypad.fresh /\
  Keypad.pinValue Keypad.fresh = "" /\
  Forall (fun d => String.length d = 1) ds /\
  Keypad.pinValue (Keypad.pad_of (Keypad.typeAll ds Keypad.fresh)) = "123456" /\
  Keypad.autoSubmits (Keypad.pad_of (Keypad.typeAll ds Keypad.fresh)) = 1.
Proof.
  pose proof fresh_shows_length as Hs.
  assert (Hds : Forall (fun d => String.length d = 1) ["1"; "2"; "3"; "4"; "5"; "6"; "7"])
    by (repeat constructor).
  split; [exact fresh_dotted|]. split; [exact Hs|]. split; [reflexivity|]. split; [exact Hds|].
  pose proof (proj1 (X24_six_digits Keypad.fresh ["1"; "2"; "3"; "4"; "5"; "6"; "7"] "0"
                       fresh_dotted) Hs eq_refl Hds) as H.
  cbv zeta in H. destruct H as (_ & Hp & _ & Ha & _).
  split; [exact Hp | exact Ha].
Defined.

Lemma substring_append a b : substring 0 (String.length a) (a +:+ b) = a.
Proof.
  induction a as [|c a IH]; simpl; [destruct b; reflexivity | rewrite IH; reflexivity].
Qed.

Lemma drop_last_append a d : String.length d = 1 -> Keypad.drop_last (a +:+ d) = a.
Proof.
  intros Hd. unfold Keypad.drop_last. rewrite length_append, Hd.
  replace (String.length a + 1 - 1) with (String.length a) by lia. apply substring_append.
Qed.

Lemma light_back pin d k l :
  String.length d = 1 ->
  includes l "filled" = (k <=? String.length pin)%nat ->
  Keypad.light pin k (Keypad.light (pin +:+ d) k l) = l.
Proof.
  intros Hd Hl. unfold Keypad.light. rewrite length_append, Hd.
  assert (Hin : forall x, includes x "filled" = true -> token_add "filled" x = x)
    by (intros x Hx; unfold token_add; rewrite Hx; reflexivity).
  destruct (Nat.leb_spec k (String.length pin)) as [Hle|Hgt].
  - destruct (Nat.leb_spec k (String.length pin + 1)) as [_|]; [|lia].
    rewrite (Hin l Hl). apply Hin. exact Hl.
  - destruct (Nat.leb_spec k (String.length pin + 1)) as [_|_].
    + apply token_add_remove. exact Hl.
    + rewrite (token_remove_absent "filled" l Hl). apply token_remove_absent. exact Hl.
Qed.

(** X25. [deleteDigit] on an empty PIN does nothing, whatever is on the
    page.  On a page with the six dots whose display shows the length of
    the PIN, adding a one-character digit and deleting it again gives
    back the PIN and the page exactly as they were; but when that digit
    was the sixth, the submission that [addDigit] scheduled stays
    scheduled.  If one of the six dots is missing, an accepted digit is
    appended to the PIN and then the call throws, with no submission
    scheduled. *)
Theorem X25_delete (p : Keypad.Pad) (digit : string) :
  (Keypad.pinValue p = "" -> Keypad.deleteDigit p = Keypad.Returned p) /\
  (Keypad.dotted p -> Keypad.shows_length p ->
   String.length digit = 1 -> String.length (Keypad.pinValue p) < 6 ->
   let p1 := Keypad.pad_of (Keypad.addDigit digit p) in
   Keypad.returned (Keypad.addDigit digit p) = true /\
   Keypad.deleteDigit p1
   = Keypad.Returned (Keypad.mkPad (Keypad.pinValue p) (Keypad.page p) (Keypad.autoSubmits p1)) /\
   Keypad.autoSubmits p1
   = (if (String.length (Keypad.pinValue p) =? 5)%nat
      then S (Keypad.autoSubmits p) else Keypad.autoSubmits p)) /\
  (forall k, 1 <= k <= 6 -> Keypad.page p !! Keypad.dot_id k = None ->
   String.length (Keypad.pinValue p) < 6 ->
   Keypad.returned (Keypad.addDigit digit p) = false /\
   Keypad.pinValue (Keypad.pad_of (Keypad.addDigit digit p)) = Keypad.pinValue p +:+ digit /\
   Keypad.autoSubmits (Keypad.pad_of (Keypad.addDigit digit p)) = Keypad.autoSubmits p).
Proof.
  split; [|split].
  - intros E. unfold Keypad.deleteDigit. rewrite E. reflexivity.
  - intros Hd Hs Hdig Hlt. cbv zeta.
    destruct (addDigit_run digit p Hd Hlt) as (pg1 & Hrun & Hat1 & Ho1). rewrite Hrun.
    cbn [Keypad.pad_of Keypad.returned Keypad.autoSubmits].
    set (n1 := if (String.length (Keypad.pinValue p +:+ digit) =? 6)%nat
               then S (Keypad.autoSubmits p) else Keypad.autoSubmits p).
    destruct (shown_of_run (Keypad.pinValue p +:+ digit) pg1 n1 _ Hd Hat1) as [D1 _].
    assert (L1 : String.length (Keypad.pinValue p +:+ digit)
                 = String.length (Keypad.pinValue p) + 1)
      by (rewrite length_append, Hdig; reflexivity).
    destruct (deleteDigit_run (Keypad.mkPad (Keypad.pinValue p +:+ digit) pg1 n1) D1)
      as (pg2 & Hdel & Hat2 & Ho2); [cbn [Keypad.pinValue]; lia|].
    cbn [Keypad.pinValue Keypad.page Keypad.autoSubmits] in Hdel, Hat2, Ho2.
    rewrite (drop_last_append _ _ Hdig) in Hdel, Hat2.
    split; [reflexivity|]. split.
    + rewrite Hdel. f_equal. f_equal. apply map_eq. intros id.
      destruct (in_dec string_dec id (map Keypad.dot_id (seq 1 6))) as [Hin|Hout].
      * apply in_map_iff in Hin. destruct Hin as (k & <- & Hk). apply in_seq in Hk.
        assert (Hk' : 1 <= k <= 6) by lia.
        rewrite (Hat2 k Hk'), (Hat1 k Hk'). destruct (Hd k Hk') as [e He]. rewrite He.
        cbn [fmap option_fmap option_map]. f_equal.
        pose proof (Hs k Hk') as Hf. unfold Keypad.filled in Hf. rewrite He in Hf.
        destruct e as [cl tx st sh kd]. unfold with_classList. cbn in *.
        rewrite (light_back _ _ _ _ Hdig Hf). reflexivity.
      * assert (Hne : forall k, 1 <= k <= 6 -> id <> Keypad.dot_id k).
        { intros k Hk E. apply Hout. apply in_map_iff. exists k.
          split; [symmetry; exact E | apply in_seq; lia]. }
        rewrite (Ho2 id Hne), (Ho1 id Hne). reflexivity.
    + unfold n1. rewrite L1.
      destruct (Nat.eqb_spec (String.length (Keypad.pinValue p) + 1) 6);
        destruct (Nat.eqb_spec (String.length (Keypad.pinValue p)) 5); try reflexivity; lia.
  - intros k Hk Hnone Hlt. unfold Keypad.addDigit, Keypad.MAX_PIN_LENGTH.
    destruct (Nat.ltb_spec (String.length (Keypad.pinValue p)) 6) as [_|]; [|lia].
    pose proof (updateDots_thrown 6 1
                  (Keypad.mkPad (Keypad.pinValue p +:+ digit) (Keypad.page p)
                     (Keypad.autoSubmits p)) k ltac:(lia) Hnone) as Hth.
    pose proof (updateDots_keeps 6 1
                  (Keypad.mkPad (Keypad.pinValue p +:+ digit) (Keypad.page p)
                     (Keypad.autoSubmits p))) as [Hp Ha].
    unfold Keypad.updateDisplay, Keypad.MAX_PIN_LENGTH.
    destruct (Keypad.updateDots 6 1
                (Keypad.mkPad (Keypad.pinValue p +:+ digit) (Keypad.page p)
                   (Keypad.autoSubmits p))) as [p'|p']; [discriminate Hth|].
    cbn [Keypad.pad_of Keypad.returned] in *. split; [reflexivity|]. split; assumption.
Qed.

Lemma X25_delete_witness :
  Keypad.dotted Keypad.fresh /\ Keypad.shows_length Keypad.fresh /\
  String.length "6" = 1 /\ String.length (Keypad.pinValue Keypad.fresh) < 6 /\
  Keypad.deleteDigit (Keypad.pad_of (Keypad.addDigit "6" Keypad.fresh))
  = Keypad.Returned
      (Keypad.mkPad (Keypad.pinValue Keypad.fresh) (Keypad.page Keypad.fresh)
         (Keypad.autoSubmits (Keypad.pad_of (Keypad.addDigit "6" Keypad.fresh)))).
Proof.
  assert (Hl : String.length (Keypad.pinValue Keypad.fresh) < 6) by (simpl; lia).
  split; [exact fresh_dotted|]. split; [exact fresh_shows_length|].
  split; [reflexivity|]. split; [exact Hl|].
  exact (proj1 (proj2 (proj1 (proj2 (X25_delete Keypad.fresh "6"))
                         fresh_dotted fresh_shows_length eq_refl Hl))).
Defined.

(** ** The particles of the status panel *)

Lemma plainParticle_shift w w1 i :
  nextNode w1 = S (nextNode w) -> drawn w1 = S (S (drawn w)) -> entropy w1 = entropy w ->
  plainParticle w1 i = plainParticle w (S i).
Proof.
  intros Hn Hd He. unfold plainParticle. rewrite Hn, Hd, He.
  replace (i + S (nextNode w)) with (S i + nextNode w) by lia.
  replace (2 * i + S (S (drawn w))) with (2 * S i + drawn w) by lia.
  reflexivity.
Qed.

Lemma with_kids_app ps qs e :
  with_kids (fun l => l ++ qs) (with_kids (fun l => l ++ ps) e)
  = with_kids (fun l => l ++ (ps ++ qs)) e.
Proof. unfold with_kids. cbn. rewrite <- app_assoc. reflexivity. Qed.

Lemma createParticles_loop {A} c (l : list A) w :
  exists w',
    forEach l (fun _ =>
      n <- createElement ;;
      r1 <- Math_random ;;
      r2 <- Math_random ;;
      appendChild (Some c)
        {| node := n; pwidth := None; pheight := None; pbackground := None;
           pleft := (r1 * 100)%Q; pdelay := Some (r2 * (1 # 2))%Q |} ;;
      setTimeout (CbRemoveParticle n) 1500) w = Ok tt w' /\
    now w' = now w /\ entropy w' = entropy w /\
    nextNode w' = length l + nextNode w /\
    drawn w' = 2 * length l + drawn w /\
    timers w' = timers w ++ map (fun p => ((now w + 1500)%N, CbRemoveParticle (node p)))
                              (map (plainParticle w) (seq 0 (length l))) /\
    document w' = alter (with_kids (fun k => k ++ map (plainParticle w) (seq 0 (length l))))
                        c (document w).
Proof.
  revert w. induction l as [|x l IH]; intros w.
  - exists w. cbn [forEach length seq map]. split; [reflexivity|].
    repeat (split; [reflexivity|]). split; [rewrite app_nil_r; reflexivity|].
    symmetry. apply alter_id. intros e _. destruct e. unfold with_kids. cbn.
    rewrite app_nil_r. reflexivity.
  - set (body := fun _ : A =>
      n <- createElement ;;
      r1 <- Math_random ;;
      r2 <- Math_random ;;
      appendChild (Some c)
        {| node := n; pwidth := None; pheight := None; pbackground := None;
           pleft := (r1 * 100)%Q; pdelay := Some (r2 * (1 # 2))%Q |} ;;
      setTimeout (CbRemoveParticle n) 1500).
    set (w1 := world_of (body x w)).
    assert (Hstep : body x w = Ok tt w1) by reflexivity.
    assert (F1 : now w1 = now w) by reflexivity.
    assert (F2 : entropy w1 = entropy w) by reflexivity.
    assert (F3 : nextNode w1 = S (nextNode w)) by reflexivity.
    assert (F4 : drawn w1 = S (S (drawn w))) by reflexivity.
    assert (F5 : timers w1 = timers w ++ [((now w + 1500)%N, CbRemoveParticle (nextNode w))])
      by reflexivity.
    assert (F6 : document w1
                 = alter (with_kids (fun k => k ++ [plainParticle w 0])) c (document w))
      by reflexivity.
    destruct (IH w1) as (w' & Hrun & G1 & G2 & G3 & G4 & G5 & G6).
    exists w'. cbn [forEach]. fold body. fold body in Hrun.
    split; [rewrite (bind_Ok _ _ _ _ _ Hstep); exact Hrun|].
    assert (Hps : map (plainParticle w1) (seq 0 (length l))
                  = map (plainParticle w) (seq 1 (length l))).
    { rewrite <- List.seq_shift, List.map_map. apply List.map_ext. intros i.
      apply plainParticle_shift; assumption. }
    split; [congruence|]. split; [congruence|].
    split; [rewrite G3, F3; cbn [length]; lia|].
    split; [rewrite G4, F4; cbn [length]; lia|].
    split.
    + rewrite G5, F5, F1, Hps, <- app_assoc. reflexivity.
    + rewrite G6, F6, Hps, alter_alter_eq. apply alter_ext. intros e _.
      unfold compose. rewrite with_kids_app. reflexivity.
Qed.

Lemma plainParticle_range w i :
  (0 <= pleft (plainParticle w i))%Q /\ (pleft (plainParticle w i) < 100)%Q /\
  exists q, pdelay (plainParticle w i) = Some q /\ (0 <= q)%Q /\ (q < 1 # 2)%Q.
Proof.
  unfold plainParticle. cbn [pleft pdelay].
  destruct (unit_fraction_range (entropy w (2 * i + drawn w))) as [A1 B1].
  destruct (unit_fraction_range (entropy w (S (2 * i + drawn w)))) as [A2 B2].
  split; [lra|]. split; [lra|]. eexists. split; [reflexivity|]. split; lra.
Qed.

(** X26. [createParticles] on an attached container appends exactly
    [count] particles to it and sets exactly one removal timer per
    particle, 1500 ms ahead: the particles are new nodes, all different,
    each placed at a horizontal position from 0 up to but not including
    100 percent, with an animation delay from 0 up to but not including
    half a second and no size or colour of its own; the container is
    otherwise as it was and so is every other element.  With a count of
    0 nothing happens at all. *)
Theorem X26_createParticles (w : World) (c : string) (count : nat) :
  attached w c = true ->
  let w' := world_of (createParticles (Some c) count w) in
  completes (createParticles (Some c) count w) = true /\
  exists ps,
    length ps = count /\
    document w' !! c = with_kids (fun k => k ++ ps) <$> document w !! c /\
    timers w' = timers w ++ map (fun p => ((now w + 1500)%N, CbRemoveParticle (node p))) ps /\
    List.NoDup (map node ps) /\
    (forall p, In p ps ->
       nextNode w <= node p < nextNode w' /\
       (0 <= pleft p)%Q /\ (pleft p < 100)%Q /\
       (exists q, pdelay p = Some q /\ (0 <= q)%Q /\ (q < 1 # 2)%Q) /\
       pwidth p = None /\ pheight p = None /\ pbackground p = None) /\
    (forall id, id <> c -> document w' !! id = document w !! id) /\
    (count = 0 -> createParticles (Some c) count w = Ok tt w).
Proof.
  intros Ha. unfold attached in Ha.
  destruct (document w !! c) as [e|] eqn:E; [|discriminate]. cbv zeta.
  unfold createParticles.
  destruct (createParticles_loop c (seq 0 count) w) as (w' & Hrun & _ & _ & G3 & _ & G5 & G6).
  rewrite length_seq in G3, G5, G6. rewrite Hrun. cbn [world_of completes].
  split; [reflexivity|]. exists (map (plainParticle w) (seq 0 count)).
  split; [rewrite length_map, length_seq; reflexivity|].
  split; [rewrite G6, lookup_alter_eq, E; reflexivity|].
  split; [exact G5|].
  split.
  { rewrite List.map_map. cbn [node plainParticle].
    apply (List.NoDup_map_inv (fun n => n - nextNode w)). rewrite List.map_map.
    rewrite (List.map_ext _ (fun i => i)) by (intros i; lia).
    rewrite List.map_id. apply List.seq_NoDup. }
  split.
  { intros p Hp. apply in_map_iff in Hp. destruct Hp as (i & <- & Hi). apply in_seq in Hi.
    destruct (plainParticle_range w i) as (R1 & R2 & R3).
    split; [cbn [node plainParticle]; lia|].
    split; [exact R1|]. split; [exact R2|]. split; [exact R3|]. repeat split; reflexivity. }
  split; [intros id Hid; rewrite G6; apply lookup_alter_ne; congruence|].
  intros Hc. subst count. symmetry. exact Hrun.
Qed.

Lemma X26_createParticles_witness :
  attached kiosk "access-status" = true /\
  completes (createParticles (Some "access-status") 20 kiosk) = true.
Proof.
  assert (Ha : attached kiosk "access-status" = true) by (vm_compute; reflexivity).
  split; [exact Ha|].
  exact (proj1 (X26_createParticles kiosk "access-status" 20 Ha)).
Defined.

(** ** The denial reason *)

Lemma says_nothing_refl w : says_nothing w w.
Proof. split; [reflexivity|]. exists []. rewrite app_nil_r. split; [reflexivity | constructor]. Qed.

Lemma says_nothing_trans a b c : says_nothing a b -> says_nothing b c -> says_nothing a c.
Proof.
  intros [T1 (n1 & E1 & F1)] [T2 (n2 & E2 & F2)]. split.
  - intros id. rewrite T2, T1. reflexivity.
  - exists (n1 ++ n2). rewrite E2, E1, <- app_assoc. split; [reflexivity|].
    apply Forall_app. split; assumption.
Qed.

Lemma says_nothing_plain f o :
  (forall e, textContent (f e) = textContent e) -> Steps says_nothing (alterElement f o).
Proof.
  intros Hf w. destruct o as [r|]; [|apply says_nothing_refl].
  change (world_of (alterElement f (Some r) w)) with (set_document (alter f r (document w)) w).
  split.
  - intros id. unfold text_of. rewrite document_set_document, lookup_alter.
    destruct (decide (r = id)) as [<-|]; [|reflexivity].
    destruct (document w !! r) as [e|]; [|reflexivity]. cbn. rewrite Hf. reflexivity.
  - exists []. rewrite app_nil_r. split; [reflexivity | constructor].
Qed.

Lemma says_nothing_setTimeout a d : wordless a = true -> Steps says_nothing (setTimeout a d).
Proof.
  intros Ha w. split; [reflexivity|]. eexists. split; [reflexivity|].
  constructor; [exact Ha | constructor].
Qed.

Lemma says_nothing_modify f :
  (forall w, document (f w) = document w) -> (forall w, timers (f w) = timers w) ->
  Steps says_nothing (modify f).
Proof.
  intros Hd Ht w. cbn [world_of modify]. split.
  - intros id. unfold text_of. rewrite Hd. reflexivity.
  - exists []. rewrite app_nil_r. split; [apply Ht | constructor].
Qed.

Ltac says_nothing_leaf :=
  idtac;
  lazymatch goal with
  | |- Steps _ (classList_add _ _) => apply says_nothing_plain; reflexivity
  | |- Steps _ (classList_remove _ _) => apply says_nothing_plain; reflexivity
  | |- Steps _ (setTimeout _ _) => apply says_nothing_setTimeout; reflexivity
  | |- Steps _ (modify _) => apply says_nothing_modify; reflexivity
  end.

Ltac says_nothing_auto :=
  unfold_program; steps_with says_nothing_refl says_nothing_trans says_nothing_leaf.

Lemma says_nothing_exec a : wordless a = true -> Steps says_nothing (exec a).
Proof. destruct a; try discriminate; intros _; simpl exec; says_nothing_auto. Qed.

Lemma says_nothing_playAccessDenied reason :
  Steps says_nothing (AnimationController.playAccessDenied reason).
Proof. says_nothing_auto. Qed.

Lemma wordless_fire w0 w e w' :
  timely w ->
  (Forall (fun t : Timer => wordless (snd t) = true) (timers w) /\
   forall id, text_of w id = text_of w0 id) ->
  fire w = Some (e, w') ->
  Forall (fun t : Timer => wordless (snd t) = true) (timers w') /\
  forall id, text_of w' id = text_of w0 id.
Proof.
  intros Hw [Hall Htxt] Hf.
  destruct (fire_Some _ _ _ Hw Hf) as (rest & w1 & Hp & Hw1 & Hw' & _ & _ & _).
  assert (Hall' : Forall (fun t : Timer => wordless (snd t) = true) (e :: rest)).
  { rewrite Forall_forall in *. intros t Ht. apply Hall.
    apply list_elem_of_In. rewrite Hp. apply list_elem_of_In. exact Ht. }
  apply Forall_cons in Hall'. destruct Hall' as [He Hrest].
  destruct (says_nothing_exec (snd e) He w1) as [T (new & En & Fn)].
  rewrite <- Hw' in T, En. split.
  - rewrite En. apply Forall_app. split; [subst w1; exact Hrest | exact Fn].
  - intros id. rewrite T. subst w1. apply Htxt.
Qed.

Lemma wordless_drain w0 w :
  timely w ->
  Forall (fun t : Timer => wordless (snd t) = true) (timers w) ->
  (forall id, text_of w id = text_of w0 id) ->
  forall id, text_of (snd (drain w)) id = text_of w0 id.
Proof.
  remember (budget (timers w)) as k eqn:Ek. revert w Ek.
  induction k as [k IH] using lt_wf_ind. intros w Ek Hw Hall Htxt.
  destruct (fire w) as [[e w']|] eqn:Hf.
  - destruct (drain_step _ _ _ Hw Hf) as [_ ->].
    destruct (wordless_fire w0 w e w' Hw (conj Hall Htxt) Hf) as [Hall' Htxt'].
    apply (IH (budget (timers w'))); [subst k; exact (fire_budget _ _ _ Hw Hf) | reflexivity
      | exact (fire_timely _ _ _ Hw Hf) | exact Hall' | exact Htxt'].
  - apply fire_None in Hf. destruct (drain_idle _ Hf) as [_ ->]. exact Htxt.
Qed.

(** X27. The reason given to [playAccessDenied] never reaches the page.
    Started while nothing is pending, the sequence runs its three steps
    (the step for the reason at 400 ms among them), and when the loop
    has run dry every element shows the text it showed before, whatever
    the reason was: [showDenialReason] only makes the message element
    flash. *)
Theorem X27_reason_not_shown (w : World) (reason : string) :
  timers w = [] ->
  let w' := world_of (AnimationController.playAccessDenied reason w) in
  In ((now w + 400)%N, CbShowDenialReason reason) (trace w') /\
  (forall id, text_of w' id = text_of w id) /\
  (forall id, text_of (snd (drain w')) id = text_of w id) /\
  (forall w1 id, text_of (world_of (exec (CbShowDenialReason reason) w1)) id = text_of w1 id).
Proof.
  intros Ht. cbv zeta.
  assert (Hw : timely w) by (unfold timely; rewrite Ht; constructor).
  assert (Hw' : timely (world_of (AnimationController.playAccessDenied reason w)))
    by (eapply timely_grows; [exact Hw | apply Grows_playAccessDenied]).
  destruct (says_nothing_playAccessDenied reason w) as [T (new & En & Fn)].
  rewrite Ht in En. cbn [app] in En.
  split; [|split; [exact T|split]].
  - apply pending_fires; [exact Hw'|].
    destruct (playAccessDenied_timers_tail reason w) as [shake ->].
    apply in_or_app. right. apply in_or_app. right. simpl. tauto.
  - apply wordless_drain; [exact Hw' | rewrite En; exact Fn | exact T].
  - intros w1 id. apply (says_nothing_exec (CbShowDenialReason reason) eq_refl w1).
Qed.

Lemma X27_reason_not_shown_witness :
  timers kiosk = [] /\
  text_of (snd (drain (world_of (AnimationController.playAccessDenied "No helmet" kiosk))))
    "status-message" = text_of kiosk "status-message".
Proof.
  split; [reflexivity|].
  exact (proj1 (proj2 (proj2 (X27_reason_not_shown kiosk "No helmet" eq_refl))) "status-message").
Defined.

(** ** The state classes and the controller *)

(** What holds of every callback that [ok] admits holds of the whole
    run of the loop, when the pending timers are admitted. *)
Section Guarded.

Variable ok : Action -> bool.
Variable keep : World -> World -> Prop.
Hypothesis keep_refl : forall w, keep w w.
Hypothesis keep_trans : forall a b c, keep a b -> keep b c -> keep a c.
Hypothesis keep_clock : forall w ts n, keep w (set_timers ts (set_now n w)).
Hypothesis keep_exec :
  forall a, ok a = true ->
  forall w, keep w (world_of (exec a w)) /\
            exists new, timers (world_of (exec a w)) = timers w ++ new /\
                        Forall (fun t : Timer => ok (snd t) = true) new.

Lemma guarded_drain w :
  timely w -> Forall (fun t : Timer => ok (snd t) = true) (timers w) ->
  keep w (snd (drain w)).
Proof.
  remember (budget (timers w)) as k eqn:Ek. revert w Ek.
  induction k as [k IH] using lt_wf_ind. intros w Ek Hw Hall.
  destruct (fire w) as [[e w']|] eqn:Hf.
  - destruct (drain_step _ _ _ Hw Hf) as [_ ->].
    destruct (fire_Some _ _ _ Hw Hf) as (rest & w1 & Hp & Hw1 & Hw' & _ & _ & _).
    assert (Hall' : Forall (fun t : Timer => ok (snd t) = true) (e :: rest)).
    { rewrite Forall_forall in *. intros t Ht. apply Hall.
      apply list_elem_of_In. rewrite Hp. apply list_elem_of_In. exact Ht. }
    apply Forall_cons in Hall'. destruct Hall' as [He Hrest].
    destruct (keep_exec (snd e) He w1) as [K (new & En & Fn)]. rewrite <- Hw' in K, En.
    apply (keep_trans w w'); [apply (keep_trans w w1); [subst w1; apply keep_clock | exact K]|].
    apply (IH (budget (timers w'))); [subst k; exact (fire_budget _ _ _ Hw Hf) | reflexivity
      | exact (fire_timely _ _ _ Hw Hf) |].
    rewrite En. apply Forall_app. split; [subst w1; exact Hrest | exact Fn].
  - apply fire_None in Hf. destruct (drain_idle _ Hf) as [_ ->]. apply keep_refl.
Qed.

End Guarded.

Lemma state_kept_refl w : state_kept w w.
Proof.
  split; [apply keeps_state_classes_refl|]. exists []. rewrite app_nil_r.
  split; [reflexivity | constructor].
Qed.

Lemma state_kept_trans a b c : state_kept a b -> state_kept b c -> state_kept a c.
Proof.
  intros [T1 (n1 & E1 & F1)] [T2 (n2 & E2 & F2)]. split.
  - eapply keeps_state_classes_trans; eassumption.
  - exists (n1 ++ n2). rewrite E2, E1, <- app_assoc. split; [reflexivity|].
    apply Forall_app. split; assumption.
Qed.

Lemma state_kept_alter f o :
  (forall e cls, In cls state_classes ->
                 includes (classList (f e)) cls = includes (classList e) cls) ->
  Steps state_kept (alterElement f o).
Proof.
  intros Hf w. split.
  - intros id cls Hc. apply (has_class_alterElement_same f o (fun x => In x state_classes));
      [exact Hf | exact Hc].
  - exists []. rewrite app_nil_r. split; [destruct o; reflexivity | constructor].
Qed.

Lemma state_kept_add o c :
  negb (includes state_classes c) = true -> Steps state_kept (classList_add o c).
Proof.
  intros Hc. apply state_kept_alter. intros e cls Hcls. cbn [classList with_classList].
  apply includes_token_add_other. intros ->.
  apply includes_In in Hcls. rewrite Hcls in Hc. discriminate.
Qed.

Lemma state_kept_remove o cs :
  forallb (fun c => negb (includes state_classes c)) cs = true ->
  Steps state_kept (classList_remove o cs).
Proof.
  intros Hcs. apply state_kept_alter. intros e cls Hcls. cbn [classList with_classList].
  apply includes_fold_remove_other. intros Hin.
  rewrite forallb_forall in Hcs. specialize (Hcs cls Hin).
  apply includes_In in Hcls. rewrite Hcls in Hcs. discriminate.
Qed.

Lemma state_kept_setTimeout a d : spares_state a = true -> Steps state_kept (setTimeout a d).
Proof.
  intros Ha w. split; [intros id cls _; reflexivity|].
  eexists. split; [reflexivity|]. constructor; [exact Ha | constructor].
Qed.

Lemma state_kept_same {A} (m : JS A) :
  (forall w id cls, has_class (world_of (m w)) id cls = has_class w id cls) ->
  (forall w, timers (world_of (m w)) = timers w) ->
  Steps state_kept m.
Proof.
  intros Hc Ht w. split; [intros id cls _; apply Hc|].
  exists []. rewrite app_nil_r. split; [apply Ht | constructor].
Qed.

Lemma state_kept_remove_node n : Steps state_kept (remove_node n).
Proof.
  apply state_kept_same; [|reflexivity].
  intros w id cls. unfold has_class. cbn [world_of remove_node modify].
  rewrite document_set_document, lookup_fmap.
  destruct (document w !! id); reflexivity.
Qed.

Ltac state_kept_leaf :=
  idtac;
  lazymatch goal with
  | |- Steps _ (classList_add _ _) => apply state_kept_add; reflexivity
  | |- Steps _ (classList_remove _ _) => apply state_kept_remove; reflexivity
  | |- Steps _ (set_textContent _ _) => apply state_kept_alter; reflexivity
  | |- Steps _ (set_style _ _ _) => apply state_kept_alter; reflexivity
  | |- Steps _ (appendChild _ _) => apply state_kept_alter; reflexivity
  | |- Steps _ (setTimeout _ _) => apply state_kept_setTimeout; reflexivity
  | |- Steps _ (remove_node _) => apply state_kept_remove_node
  | |- Steps _ _ => apply state_kept_same; reflexivity
  end.

Ltac state_kept_auto :=
  unfold_program; steps_with state_kept_refl state_kept_trans state_kept_leaf.

Lemma state_kept_exec a : spares_state a = true -> Steps state_kept (exec a).
Proof.
  destruct a; intros Ha; simpl exec; try solve [state_kept_auto].
  apply state_kept_remove. cbn [forallb]. cbn [spares_state] in Ha. rewrite Ha. reflexivity.
Qed.

Lemma state_kept_playAccessGranted name :
  Steps state_kept (AnimationController.playAccessGranted name).
Proof. state_kept_auto. Qed.

Lemma state_kept_playAccessDenied reason :
  Steps state_kept (AnimationController.playAccessDenied reason).
Proof. state_kept_auto. Qed.

Lemma state_kept_after {A} (m : JS A) n w :
  Grows n m -> Steps state_kept m -> timely w ->
  Forall (fun t : Timer => spares_state (snd t) = true) (timers w) ->
  keeps_state_classes w (snd (drain (world_of (m w)))).
Proof.
  intros Hg Hs Hw Hall. destruct (Hs w) as [K (new & En & Fn)].
  eapply keeps_state_classes_trans; [exact K|].
  apply (guarded_drain spares_state keeps_state_classes
           keeps_state_classes_refl keeps_state_classes_trans).
  - intros w0 ts k id cls _. reflexivity.
  - intros a Ha w0. exact (state_kept_exec a Ha w0).
  - eapply timely_grows; [exact Hw | apply Hg].
  - rewrite En. apply Forall_app. split; assumption.
Qed.

(** X28. The animation controller never marks the status panel: as long
    as no pending timer is there to take off "granted", "denied" or
    "checking", after [playAccessGranted] or [playAccessDenied] and
    once the loop has run dry, every element carries exactly those of
    the three classes that it carried before.  The step at 200 ms of the
    granted sequence, [transitionStatusSection('granted')], makes no
    use of its argument: it only fades the panel out and in. *)
Theorem X28_controller_keeps_state_classes (w : World) (name reason : string) :
  timely w ->
  Forall (fun t : Timer => spares_state (snd t) = true) (timers w) ->
  (forall id cls, In cls state_classes ->
     has_class (snd (drain (world_of (AnimationController.playAccessGranted name w)))) id cls
     = has_class w id cls) /\
  (forall id cls, In cls state_classes ->
     has_class (snd (drain (world_of (AnimationController.playAccessDenied reason w)))) id cls
     = has_class w id cls) /\
  (forall type type' w1,
     exec (CbTransitionStatusSection type) w1 = exec (CbTransitionStatusSection type') w1).
Proof.
  intros Hw Hall. split; [|split].
  - exact (state_kept_after _ _ w (Grows_playAccessGranted name)
             (state_kept_playAccessGranted name) Hw Hall).
  - exact (state_kept_after _ _ w (Grows_playAccessDenied reason)
             (state_kept_playAccessDenied reason) Hw Hall).
  - intros type type' w1. reflexivity.
Qed.

Lemma X28_controller_keeps_state_classes_witness :
  timely kiosk /\
  Forall (fun t : Timer => spares_state (snd t) = true) (timers kiosk) /\
  In "granted" state_classes /\
  has_class (snd (drain (world_of (AnimationController.playAccessGranted "Alex" kiosk))))
    "access-status" "granted" = has_class kiosk "access-status" "granted".
Proof.
  assert (Hk : timely kiosk) by constructor.
  assert (Ha : Forall (fun t : Timer => spares_state (snd t) = true) (timers kiosk))
    by constructor.
  assert (Hin : In "granted" state_classes) by (left; reflexivity).
  split; [exact Hk|]. split; [exact Ha|]. split; [exact Hin|].
  exact (proj1 (X28_controller_keeps_state_classes kiosk "Alex" "none" Hk Ha)
           "access-status" "granted" Hin).
Defined.

(** ** The regions that flash *)

Lemma missing_test d r p :
  isRequired r p && negb (isDetected d p) = String.eqb (partColor d r p) COLORS.REQUIRED_MISSING.
Proof.
  unfold partColor. destruct (isRequired r p), (isDetected d p); reflexivity.
Qed.

Lemma attached_alter f x (doc : gmap string Element) w p :
  attached (set_timers (timers w ++ [((now w + 1000)%N, CbRemoveClass x "attention-animation")])
              (set_document (alter f x doc) w)) p
  = match doc !! p with Some _ => true | None => false end.
Proof.
  unfold attached. rewrite document_set_timers, document_set_document, lookup_alter.
  destruct (decide (x = p)) as [<-|]; [|reflexivity]. destruct (doc !! x); reflexivity.
Qed.

Lemma highlight_loop d r l w :
  forEach l (fun partId =>
    if isRequired r partId && negb (isDetected d partId) then
      part <- getElementById partId ;;
      whenPresent part (fun p =>
        classList_add part "attention-animation" ;;
        setTimeout (CbRemoveClass p "attention-animation") 1000)
    else ret tt) w
  = Ok tt
      (set_timers
         (timers w ++ map (fun p => ((now w + 1000)%N, CbRemoveClass p "attention-animation"))
                        (List.filter (fun p => isRequired r p && negb (isDetected d p)
                                               && attached w p) l))
         (set_document
            (foldl (fun doc p => alter (with_classList (token_add "attention-animation")) p doc)
                   (document w)
                   (List.filter (fun p => isRequired r p && negb (isDetected d p)
                                          && attached w p) l))
            w)).
Proof.
  revert w. induction l as [|x l IH]; intros w.
  - cbn [forEach List.filter map foldl]. rewrite app_nil_r.
    destruct w; reflexivity.
  - cbn [forEach List.filter].
    destruct (isRequired r x && negb (isDetected d x)) eqn:Ec; cbn [andb].
    + destruct (attached w x) eqn:Ea; unfold attached in Ea;
        destruct (document w !! x) as [e|] eqn:E; try discriminate Ea; clear Ea.
      * set (w1 := set_timers
                     (timers w ++ [((now w + 1000)%N, CbRemoveClass x "attention-animation")])
                     (set_document
                        (alter (with_classList (token_add "attention-animation")) x (document w))
                        w)).
        assert (Hstep : (part <- getElementById x ;;
                         whenPresent part (fun p =>
                           classList_add part "attention-animation" ;;
                           setTimeout (CbRemoveClass p "attention-animation") 1000)) w
                        = Ok tt w1)
          by (unfold bind at 1, getElementById, read; rewrite E; reflexivity).
        rewrite (bind_Ok _ _ _ _ _ Hstep). rewrite IH.
        assert (Hf : List.filter (fun p => isRequired r p && negb (isDetected d p)
                                            && attached w1 p) l
                     = List.filter (fun p => isRequired r p && negb (isDetected d p)
                                            && attached w p) l).
        { apply List.filter_ext. intros p. f_equal. unfold w1. rewrite attached_alter.
          reflexivity. }
        rewrite Hf. cbn [map foldl].
        change (timers w1)
          with (timers w ++ [((now w + 1000)%N, CbRemoveClass x "attention-animation")]).
        change (now w1) with (now w).
        change (document w1)
          with (alter (with_classList (token_add "attention-animation")) x (document w)).
        rewrite <- app_assoc. reflexivity.
      * rewrite (bind_Ok _ _ _ _ _
                   (get_absent x (fun part => whenPresent part _) w E : _ = Ok tt w)).
        apply IH.
    + rewrite ret_step. apply IH.
Qed.

Lemma filter_and {A} (f g : A -> bool) l :
  List.filter (fun x => f x && g x) l = List.filter g (List.filter f l).
Proof.
  induction l as [|x l IH]; [reflexivity|]. simpl.
  destruct (f x); simpl; [destruct (g x); rewrite IH; reflexivity | exact IH].
Qed.

Lemma highlightMissingPPE_run w :
  highlightMissingPPE w
  = Ok tt
      (set_timers
         (timers w ++ map (fun p => ((now w + 1000)%N, CbRemoveClass p "attention-animation"))
                        (flashed w))
         (set_document
            (foldl (fun doc p => alter (with_classList (token_add "attention-animation")) p doc)
                   (document w) (flashed w))
            w)).
Proof.
  unfold highlightMissingPPE. rewrite (bind_Ok _ _ _ _ _ (eq_refl : read currentDetected w = Ok _ w)).
  rewrite (bind_Ok _ _ _ _ _ (eq_refl : read currentRequired w = Ok _ w)).
  rewrite highlight_loop. unfold flashed, missingRegions.
  rewrite filter_and.
  rewrite (List.filter_ext
             (fun p => isRequired (currentRequired w) p && negb (isDetected (currentDetected w) p))
             (fun p => String.eqb (partColor (currentDetected w) (currentRequired w) p)
                         COLORS.REQUIRED_MISSING))
    by (intros p; apply missing_test).
  reflexivity.
Qed.

Lemma flashed_NoDup w : List.NoDup (flashed w).
Proof.
  unfold flashed, missingRegions. apply List.NoDup_filter, List.NoDup_filter, keys_NoDup.
Qed.

(** X29. [highlightMissingPPE] flashes exactly the attached regions
    that are coloured as missing under the lists of the last update:
    each of them gets "attention-animation" and one timer, 1000 ms
    ahead, that takes the class off again, in the order of the mapping;
    every other element is left as it was.  So right after an update of
    a loaded figure, what flashes is what glows red. *)
Theorem X29_what_flashes (w : World) :
  let w' := world_of (highlightMissingPPE w) in
  completes (highlightMissingPPE w) = true /\
  timers w' = timers w ++ map (fun p => ((now w + 1000)%N,
                                         CbRemoveClass p "attention-animation")) (flashed w) /\
  (forall p, In p (flashed w) -> has_class w' p "attention-animation" = true) /\
  (forall id, ~ In id (flashed w) -> document w' !! id = document w !! id) /\
  (forall p, In p (flashed w) <->
             In p (Object_keys BODY_PART_MAPPING) /\ attached w p = true /\
             partColor (currentDetected w) (currentRequired w) p = COLORS.REQUIRED_MISSING) /\
  (forall d r w0 p,
     svgLoaded w0 = true -> In p (Object_keys BODY_PART_MAPPING) ->
     (In p (flashed (world_of (updateBodyVisualization d r w0))) <->
      has_class (world_of (updateBodyVisualization d r w0)) p "glow-red" = true)).
Proof.
  cbv zeta. rewrite highlightMissingPPE_run. cbn [world_of completes].
  split; [reflexivity|]. split; [reflexivity|].
  assert (Hfl : forall w1 p, In p (flashed w1) <->
             In p (Object_keys BODY_PART_MAPPING) /\ attached w1 p = true /\
             partColor (currentDetected w1) (currentRequired w1) p = COLORS.REQUIRED_MISSING).
  { intros w1 p. unfold flashed, missingRegions. rewrite !filter_In, String.eqb_eq. tauto. }
  split; [|split; [|split; [exact (Hfl w)|]]].
  - intros p Hp. unfold has_class. rewrite document_set_timers, document_set_document.
    rewrite (foldl_alter_at (fun _ => with_classList (token_add "attention-animation")))
      by (apply flashed_NoDup || exact Hp).
    apply Hfl in Hp. destruct Hp as (_ & Ha & _). unfold attached in Ha.
    destruct (document w !! p) as [e|]; [|discriminate]. cbn. apply includes_token_add.
  - intros id Hid. rewrite document_set_timers, document_set_document.
    apply foldl_alter_other. exact Hid.
  - intros d r w0 p Hl Hp. rewrite Hfl.
    destruct (attached w0 p) eqn:Ha.
    + destruct (region_after_update w0 d r p Hl Hp Ha) as (_ & Hr & _). cbv zeta in Hr.
      rewrite Hr, String.eqb_eq.
      rewrite (updateBodyVisualization_run d r w0 Hl). cbn [world_of].
      change (currentDetected (set_document ?x (set_current d r w0))) with d.
      change (currentRequired (set_document ?x (set_current d r w0))) with r.
      assert (Ha' : attached (set_document (repaintAll d r (document w0)) (set_current d r w0)) p
                    = true).
      { unfold attached in *. rewrite document_set_document, repaintAll_at by exact Hp.
        change (document (set_current d r w0)) with (document w0).
        destruct (document w0 !! p); [reflexivity | discriminate]. }
      rewrite Ha'. tauto.
    + rewrite (updateBodyVisualization_run d r w0 Hl). cbn [world_of].
      unfold attached in *. unfold has_class.
      rewrite !document_set_document, repaintAll_at by exact Hp.
      change (document (set_current d r w0)) with (document w0).
      destruct (document w0 !! p); [discriminate|]. cbn.
      split; [intros (_ & H & _); discriminate H | discriminate].
Qed.

Lemma X29_what_flashes_witness :
  let w := world_of (updateBodyVisualization [] ["helmet"] kiosk) in
  svgLoaded kiosk = true /\ In "head" (Object_keys BODY_PART_MAPPING) /\
  has_class w "head" "glow-red" = true /\
  In "head" (flashed w).
Proof.
  assert (Hin : In "head" (Object_keys BODY_PART_MAPPING)) by (left; reflexivity).
  assert (Hg : has_class (world_of (updateBodyVisualization [] ["helmet"] kiosk))
                 "head" "glow-red" = true) by (vm_compute; reflexivity).
  split; [reflexivity|]. split; [exact Hin|]. split; [exact Hg|].
  pose proof (X29_what_flashes kiosk) as H. cbv zeta in H.
  destruct H as (_ & _ & _ & _ & _ & Hup).
  exact (proj2 (Hup [] ["helmet"] kiosk "head" eq_refl Hin) Hg).
Defined.

(** ** The welcome *)

Lemma writes_nothing_refl w : writes_nothing w w.
Proof. split; [reflexivity|]. exists []. rewrite app_nil_r. split; [reflexivity | constructor]. Qed.

Lemma writes_nothing_trans a b c : writes_nothing a b -> writes_nothing b c -> writes_nothing a c.
Proof.
  intros [T1 (n1 & E1 & F1)] [T2 (n2 & E2 & F2)]. split.
  - intros id. rewrite T2, T1. reflexivity.
  - exists (n1 ++ n2). rewrite E2, E1, <- app_assoc. split; [reflexivity|].
    apply Forall_app. split; assumption.
Qed.

Lemma writes_nothing_plain f o :
  (forall e, textContent (f e) = textContent e) -> Steps writes_nothing (alterElement f o).
Proof.
  intros Hf w. destruct o as [r|]; [|apply writes_nothing_refl].
  change (world_of (alterElement f (Some r) w)) with (set_document (alter f r (document w)) w).
  split.
  - intros id. unfold text_of. rewrite document_set_document, lookup_alter.
    destruct (decide (r = id)) as [<-|]; [|reflexivity].
    destruct (document w !! r) as [e|]; [|reflexivity]. cbn. rewrite Hf. reflexivity.
  - exists []. rewrite app_nil_r. split; [reflexivity | constructor].
Qed.

Lemma writes_nothing_setTimeout a d : textless a = true -> Steps writes_nothing (setTimeout a d).
Proof.
  intros Ha w. split; [reflexivity|]. eexists. split; [reflexivity|].
  constructor; [exact Ha | constructor].
Qed.

Lemma writes_nothing_same {A} (m : JS A) :
  (forall w id, text_of (world_of (m w)) id = text_of w id) ->
  (forall w, timers (world_of (m w)) = timers w) ->
  Steps writes_nothing m.
Proof.
  intros Hc Ht w. split; [apply Hc|].
  exists []. rewrite app_nil_r. split; [apply Ht | constructor].
Qed.

Lemma writes_nothing_remove_node n : Steps writes_nothing (remove_node n).
Proof.
  apply writes_nothing_same; [|reflexivity].
  intros w id. unfold text_of. cbn [world_of remove_node modify].
  rewrite document_set_document, lookup_fmap.
  destruct (document w !! id); reflexivity.
Qed.

Ltac writes_nothing_leaf :=
  idtac;
  lazymatch goal with
  | |- Steps _ (classList_add _ _) => apply writes_nothing_plain; reflexivity
  | |- Steps _ (classList_remove _ _) => apply writes_nothing_plain; reflexivity
  | |- Steps _ (set_style _ _ _) => apply writes_nothing_plain; reflexivity
  | |- Steps _ (appendChild _ _) => apply writes_nothing_plain; reflexivity
  | |- Steps _ (setTimeout _ _) => apply writes_nothing_setTimeout; reflexivity
  | |- Steps _ (remove_node _) => apply writes_nothing_remove_node
  | |- Steps _ _ => apply writes_nothing_same; reflexivity
  end.

Lemma writes_nothing_exec a : textless a = true -> Steps writes_nothing (exec a).
Proof.
  destruct a; try discriminate; intros _; simpl exec; unfold_program;
    steps_with writes_nothing_refl writes_nothing_trans writes_nothing_leaf.
Qed.

Lemma exec_showWelcomeMessage name w e :
  document w !! "status-user" = Some e ->
  exec (CbShowWelcomeMessage name) w
  = Ok tt (set_timers
             (timers w ++ [((now w + 600)%N, CbRemoveClass "status-user" "slide-in-up")])
             (set_document
                (alter (with_classList (token_add "slide-in-up")) "status-user"
                   (alter (with_style "display" "block") "status-user"
                      (alter (with_textContent ("Welcome, " +:+ name +:+ "!")) "status-user"
                         (document w)))) w)).
Proof.
  intros E. simpl exec. unfold AnimationController.showWelcomeMessage.
  rewrite (get_step _ _ _ e E). cbn [whenPresent].
  unfold set_textContent, set_style, classList_add.
  rewrite !alter_step, !set_document_twice, !document_set_document. reflexivity.
Qed.

(** The invariant of the loop: the welcome is on display or still to
    come, and nothing else has been written. *)
Lemma welcome_fire name w0 w e w' :
  timely w ->
  (Forall (fun t : Timer => welcomes name (snd t) = true) (timers w) /\
   attached w "status-user" = true /\
   (text_of w "status-user" = Some ("Welcome, " +:+ name +:+ "!") \/
    exists d, In (d, CbShowWelcomeMessage name) (timers w)) /\
   (forall id, id <> "status-user" -> text_of w id = text_of w0 id)) ->
  fire w = Some (e, w') ->
  Forall (fun t : Timer => welcomes name (snd t) = true) (timers w') /\
  attached w' "status-user" = true /\
  (text_of w' "status-user" = Some ("Welcome, " +:+ name +:+ "!") \/
   exists d, In (d, CbShowWelcomeMessage name) (timers w')) /\
  (forall id, id <> "status-user" -> text_of w' id = text_of w0 id).
Proof.
  intros Hw (Hall & Ha & Hshown & Hothers) Hf.
  destruct (fire_Some _ _ _ Hw Hf) as (rest & w1 & Hp & Hw1 & Hw' & _ & _ & Hg).
  assert (Hall' : Forall (fun t : Timer => welcomes name (snd t) = true) (e :: rest)).
  { rewrite Forall_forall in *. intros t Ht. apply Hall.
    apply list_elem_of_In. rewrite Hp. apply list_elem_of_In. exact Ht. }
  apply Forall_cons in Hall'. destruct Hall' as [He Hrest].
  assert (Hin : forall u, In u (timers w) -> u = e \/ In u rest).
  { intros u Hu. apply list_elem_of_In in Hu. rewrite Hp in Hu. apply list_elem_of_In in Hu.
    destruct Hu as [<-|Hu]; [left; reflexivity | right; exact Hu]. }
  assert (Ha1 : attached w1 "status-user" = true) by (subst w1; exact Ha).
  assert (T1 : forall id, text_of w1 id = text_of w id) by (subst w1; reflexivity).
  assert (R1 : timers w1 = rest) by (subst w1; reflexivity).
  destruct (textless (snd e)) eqn:Et.
  - destruct (writes_nothing_exec (snd e) Et w1) as [T (new & En & Fn)].
    rewrite <- Hw' in T, En. rewrite R1 in En.
    split; [|split; [|split]].
    + rewrite En. apply Forall_app. split; [exact Hrest|].
      eapply Forall_impl; [exact Fn|]. intros t Ht. cbn beta in Ht.
      destruct (snd t); try reflexivity. discriminate Ht.
    + destruct Hg as (_ & Hak & _). rewrite (attached_akin _ _ _ Hak). exact Ha1.
    + destruct Hshown as [Hs|[d Hd]].
      * left. rewrite T, T1. exact Hs.
      * right. exists d. rewrite En. apply in_or_app. left.
        destruct (Hin _ Hd) as [<-|Hr]; [discriminate Et | exact Hr].
    + intros id Hid. rewrite T, T1. apply Hothers. exact Hid.
  - destruct e as [due a]. cbn [snd] in *. destruct a; try discriminate Et.
    cbn [welcomes] in He. apply String.eqb_eq in He. subst personName.
    unfold attached in Ha1. destruct (document w1 !! "status-user") as [u|] eqn:Eu;
      [|discriminate].
    rewrite (exec_showWelcomeMessage name w1 u Eu) in Hw'. cbn [world_of] in Hw'.
    subst w'. cbn [timers set_timers]. rewrite R1.
    unfold attached, text_of. rewrite !document_set_timers, !document_set_document.
    split; [|split; [|split]].
    + apply Forall_app. split; [exact Hrest | repeat constructor].
    + rewrite !lookup_alter_eq, Eu. reflexivity.
    + left. rewrite !lookup_alter_eq, Eu. reflexivity.
    + intros id Hid. rewrite !lookup_alter_ne by congruence.
      fold (text_of w1 id). rewrite T1. apply Hothers. exact Hid.
Qed.

Lemma welcome_drain name w0 w :
  timely w ->
  Forall (fun t : Timer => welcomes name (snd t) = true) (timers w) ->
  attached w "status-user" = true ->
  (text_of w "status-user" = Some ("Welcome, " +:+ name +:+ "!") \/
   exists d, In (d, CbShowWelcomeMessage name) (timers w)) ->
  (forall id, id <> "status-user" -> text_of w id = text_of w0 id) ->
  text_of (snd (drain w)) "status-user" = Some ("Welcome, " +:+ name +:+ "!") /\
  (forall id, id <> "status-user" -> text_of (snd (drain w)) id = text_of w0 id).
Proof.
  remember (budget (timers w)) as k eqn:Ek. revert w Ek.
  induction k as [k IH] using lt_wf_ind. intros w Ek Hw Hall Ha Hshown Hothers.
  destruct (fire w) as [[e w']|] eqn:Hf.
  - destruct (drain_step _ _ _ Hw Hf) as [_ ->].
    destruct (welcome_fire name w0 w e w' Hw (conj Hall (conj Ha (conj Hshown Hothers))) Hf)
      as (Hall' & Ha' & Hshown' & Hothers').
    apply (IH (budget (timers w'))); [subst k; exact (fire_budget _ _ _ Hw Hf) | reflexivity
      | exact (fire_timely _ _ _ Hw Hf) | assumption..].
  - apply fire_None in Hf. destruct (drain_idle _ Hf) as [_ ->].
    split; [|exact Hothers].
    destruct Hshown as [Hs|[d Hd]]; [exact Hs|]. rewrite Hf in Hd. destruct Hd.
Qed.

(** X30. The name given to [playAccessGranted] is what the page ends up
    welcoming.  On a page with the person-name element, as long as no
    welcome for another name is pending, once the loop has run dry that
    element reads "Welcome, <name>!", and every other element has the
    text it had before the sequence started. *)
Theorem X30_welcome_shown (w : World) (name : string) :
  timely w ->
  Forall (fun t : Timer => welcomes name (snd t) = true) (timers w) ->
  attached w "status-user" = true ->
  let w' := snd (drain (world_of (AnimationController.playAccessGranted name w))) in
  text_of w' "status-user" = Some ("Welcome, " +:+ name +:+ "!") /\
  (forall id, id <> "status-user" -> text_of w' id = text_of w id).
Proof.
  intros Hw Hall Ha. cbv zeta.
  pose proof (Grows_playAccessGranted name w) as Hg.
  assert (Hin : In ((now w + 400)%N, CbShowWelcomeMessage name)
                  (timers (world_of (AnimationController.playAccessGranted name w))))
    by (apply playAccessGranted_step; simpl; tauto).
  assert (Hdoc : document (world_of (AnimationController.playAccessGranted name w))
                 = document w) by (destruct w; reflexivity).
  assert (Htxt : forall id, text_of (world_of (AnimationController.playAccessGranted name w)) id
                            = text_of w id)
    by (intros id; unfold text_of; rewrite Hdoc; reflexivity).
  apply welcome_drain.
  - eapply timely_grows; [exact Hw | exact Hg].
  - destruct Hg as (_ & _ & new & En & _).
    apply List.Forall_forall. intros t Ht.
    destruct (snd t) as [| | | |n| | | | | | | | |] eqn:Et; try reflexivity.
    cbn [welcomes]. apply String.eqb_eq.
    rewrite En in Ht. apply in_app_or in Ht. destruct Ht as [Ht|Ht].
    + rewrite List.Forall_forall in Hall. specialize (Hall t Ht). rewrite Et in Hall.
      apply String.eqb_eq. exact Hall.
    + pose proof (playAccessGranted_timers name w) as Htm.
      rewrite En in Htm. apply app_inv_head in Htm. rewrite Htm in Ht.
      apply in_app_or in Ht. destruct Ht as [Ht|Ht].
      * apply list_elem_of_In, elem_of_lookup_imap in Ht.
        destruct Ht as (i & y & -> & _). discriminate Et.
      * cbn [In] in Ht.
        repeat (destruct Ht as [<-|Ht];
                [cbn [snd] in Et; first [discriminate Et | injection Et as <-; reflexivity]|]).
        destruct Ht.
  - destruct Hg as (_ & Hak & _). rewrite (attached_akin _ _ _ Hak). exact Ha.
  - right. eexists. exact Hin.
  - intros id _. apply Htxt.
Qed.

Lemma X30_welcome_shown_witness :
  timely kiosk /\
  Forall (fun t : Timer => welcomes "Alex" (snd t) = true) (timers kiosk) /\
  attached kiosk "status-user" = true /\
  text_of (snd (drain (world_of (AnimationController.playAccessGranted "Alex" kiosk))))
    "status-user" = Some "Welcome, Alex!".
Proof.
  assert (Hk : timely kiosk) by constructor.
  assert (Hall : Forall (fun t : Timer => welcomes "Alex" (snd t) = true) (timers kiosk))
    by constructor.
  assert (Ha : attached kiosk "status-user" = true) by (vm_compute; reflexivity).
  split; [exact Hk|]. split; [exact Hall|]. split; [exact Ha|].
  exact (proj1 (X30_welcome_shown kiosk "Alex" Hk Hall Ha)).
Defined.
